(** * The segmentation session engine of web_app/index.js

    A shallow embedding of the browser client: the module-scope state
    variables, the DOM state the handlers touch, the event handlers, and the
    async functions [decode], [encode], [loadFromAviUtl2] and the cut handler,
    each split at its [await]s into the continuations the event loop runs. *)

From Stdlib Require Import ZArith NArith Floats Bool String.
From stdpp Require Import base option list.

Local Open Scope nat_scope.

(** ** JavaScript numbers

    A JS number is an IEEE-754 binary64 value: the kernel's primitive [float].
    [a > b] in the source is [b <? a] here; every comparison with NaN is
    false. *)

Module JsNumber.

Definition gt (a b : float) : bool := (b <? a)%float.

Definition is_neg_zero (x : float) : bool := is_zero x && get_sign x.
Definition is_pos_zero (x : float) : bool := is_zero x && negb (get_sign x).

(** [Math.min(a, b)]: NaN if either argument is NaN; -0 is below +0. *)
Definition Math_min (a b : float) : float :=
  if is_nan a || is_nan b then nan
  else if (is_neg_zero b && is_pos_zero a) || (b <? a)%float then b
  else a.

(** [Math.max(a, b)]: NaN if either argument is NaN; +0 is above -0. *)
Definition Math_max (a b : float) : float :=
  if is_nan a || is_nan b then nan
  else if (is_pos_zero b && is_neg_zero a) || (a <? b)%float then b
  else a.

(** A number that lies in the closed interval [[0,1]]. *)
Definition in_unit (x : float) : bool := (0 <=? x)%float && (x <=? 1)%float.

End JsNumber.
Import JsNumber.

(** index.js:318  [function clamp(x, min = 0, max = 1)] *)
Definition clamp (x min max : float) : float :=
  Math_max (Math_min x max) min.


(** A specification float that is a number and not infinite. *)
Definition SFfinite (x : spec_float) : Prop :=
  match x with
  | S754_zero _ | S754_finite _ _ _ => True
  | _ => False
  end.

(** ** Data model *)

(** index.js:27  the keys of [MODEL_IDS] *)
Inductive ModelKey := slimsam | sam_vit_base | sam_vit_large.

(** A prompt point as [getPoint] builds it: [{position: [x, y], label}]. *)
Record Point := mkPoint {
  position : float * float;
  label : Z
}.

(** The fields of a [RawImage] the client reads. [data] is the interleaved
    channel buffer (a [Uint8ClampedArray] or [Uint8Array]). *)
Record RawImage := mkRawImage {
  data : list N;
  width : nat;
  height : nat;
  channels : nat
}.

(** What [processor(image)] yields, as far as the client reads it. Each size
    is the pair [[height, width]]. *)
Record Processed (PV : Type) := mkProcessed {
  pixel_values : PV;
  original_sizes : list (float * float);
  reshaped_input_sizes : list (float * float)
}.
Arguments mkProcessed {PV} _ _ _.
Arguments pixel_values {PV} _.
Arguments original_sizes {PV} _.
Arguments reshaped_input_sizes {PV} _.

Record Tensor (A : Type) := mkTensor {
  tensor_data : list A;
  dims : list nat
}.
Arguments mkTensor {A} _ _.
Arguments tensor_data {A} _.
Arguments dims {A} _.

(** The mask canvas: its size and its RGBA bitmap, four bytes per pixel. *)
Record Canvas := mkCanvas {
  canvas_width : nat;
  canvas_height : nat;
  pixels : list N
}.

(** What a pointer event carries, with the container's bounding box that
    [getBoundingClientRect] returns when the handler runs. *)
Record DOMRect := mkDOMRect {
  rect_left : float;
  rect_top : float;
  rect_width : float;
  rect_height : float
}.

Record MouseEvt := mkMouseEvt {
  clientX : float;
  clientY : float;
  button : Z;
  bb : DOMRect
}.

Inductive Display := display_flex | display_none.

Inductive JsError :=
| TypeError
| IndexSizeError
| ExternalError (message : string).

(** The completion of a JavaScript evaluation: a value or a thrown error. *)
Inductive Completion (A : Type) :=
| Normal (a : A)
| Throw (e : JsError).
Arguments Normal {A} _.
Arguments Throw {A} _.

(** ** The collaborators of §6, as total functions of their inputs

    The inference library, the image decoder and the PNG encoder are outside
    the source.  Whether a call to one of them succeeds is decided by the
    event that settles its promise ([Settle], below); what a successful
    call yields is a function of what the call was given. *)
Class Platform := {
  Embeddings : Type;
  PredMasks : Type;
  PixelValues : Type;
  Blob : Type;
  (** [model({...imageEmbeddings, input_points, input_labels})], yielding
      [pred_masks] and [iou_scores.data] *)
  sam_model : ModelKey -> option Embeddings -> Tensor float -> Tensor Z ->
              PredMasks * list float;
  (** [RawImage.fromTensor(processor.post_process_masks(..)[0][0])] *)
  post_process_masks : ModelKey -> PredMasks -> list (float * float) ->
                       list (float * float) -> RawImage;
  RawImage_fromURL : string -> RawImage;
  processor_call : ModelKey -> RawImage -> Processed PixelValues;
  get_image_embeddings : ModelKey -> Processed PixelValues -> Embeddings;
  convertToBlob : list N -> nat -> nat -> Blob;
  createObjectURL : Blob -> string;
  toFixed2 : float -> string
}.

(** ** Pixel algorithms *)

(** A zero-filled RGBA bitmap, as [createImageData] and [clearRect] leave. *)
Definition blank (w h : nat) : list N := replicate (4 * w * h) 0%N.

(** [scores[i]]; an index out of range reads [undefined], which compares
    like NaN. *)
Definition score_at (scores : list float) (i : nat) : float :=
  default nan (scores !! i).

(** index.js:136-142
<<
  let bestIndex = 0;
  for (let i = 1; i < numMasks; ++i)
    if (scores[i] > scores[bestIndex]) bestIndex = i;
>> *)
Definition bestIndex_step (scores : list float) (best i : nat) : nat :=
  if gt (score_at scores i) (score_at scores best) then i else best.

Definition bestIndex (scores : list float) : nat :=
  foldl (bestIndex_step scores) 0 (seq 1 (length scores - 1)).

(** index.js:147-155, one iteration. A typed array ignores a write past its
    end, as stdpp's list insert does. *)
Definition fill_pixel (numMasks best : nat) (mask : list N)
    (pixelData : list N) (i : nat) : list N :=
  match mask !! (numMasks * i + best) with
  | Some 1%N =>
      let offset := 4 * i in
      <[offset + 3 := 255%N]>
        (<[offset + 2 := 189%N]>
          (<[offset + 1 := 114%N]>
            (<[offset := 0%N]> pixelData)))
  | _ => pixelData
  end.

(** The loop runs [i] over [pixelData.length], the byte count. *)
Definition fill_mask (numMasks best : nat) (mask : list N)
    (pixelData : list N) : list N :=
  foldl (fill_pixel numMasks best mask) pixelData (seq 0 (length pixelData)).

(** index.js:368-378, one iteration of the cut loop. The loop reads
    [imageInput.data] three bytes per pixel and the mask bitmap four; a read
    past the end of the image yields [undefined], which a clamped byte array
    stores as 0. *)
Definition copy_channel (imagePixelData : list N)
    (sourceOffset targetOffset : nat) (maskPixelData : list N) (j : nat)
    : list N :=
  <[targetOffset + j := default 0%N (imagePixelData !! (sourceOffset + j))]>
    maskPixelData.

Definition copy_pixel (imagePixelData : list N) (maskPixelData : list N)
    (i : nat) : list N :=
  let sourceOffset := 3 * i in
  let targetOffset := 4 * i in
  match maskPixelData !! (targetOffset + 3) with
  | Some a =>
      if (0 <? a)%N
      then foldl (copy_channel imagePixelData sourceOffset targetOffset)
                 maskPixelData (seq 0 3)
      else maskPixelData
  | None => maskPixelData
  end.

Definition cut_pixels (imagePixelData maskPixelData : list N) (w h : nat)
    : list N :=
  foldl (copy_pixel imagePixelData) maskPixelData (seq 0 (w * h)).

(** index.js:322-337 *)
Definition getPoint (e : MouseEvt) : Point :=
  let mouseX :=
    clamp ((clientX e - rect_left (bb e)) / rect_width (bb e)) 0 1 in
  let mouseY :=
    clamp ((clientY e - rect_top (bb e)) / rect_height (bb e)) 0 1 in
  mkPoint (mouseX, mouseY) (if (button e =? 2)%Z then 0%Z else 1%Z).

(** ** The session state and the event loop *)

Definition AVIUTL2_MASK_URL : string := "http://127.0.0.1:17860/mask".
Definition EXAMPLE_URL : string :=
  "https://huggingface.co/datasets/Xenova/transformers.js-docs/resolve/main/corgi.jpg".

(** Who awaits the promise of an [encode] call. *)
Inductive EncodeCaller := Detached | FromAviUtl2.

Section Engine.

Context {P : Platform}.

Record Response := mkResponse {
  ok : bool;
  status : nat;
  statusText : string;
  body : Blob
}.

(** An [await] in flight: the continuation of the async function that
    waits, with the values it has captured. *)
Inductive Task :=
| AwaitModel (m : ModelKey) (emb : option Embeddings)
    (input_points : Tensor float) (input_labels : Tensor Z)  (* :98 *)
| AwaitPostProcess (p : ModelKey) (pred_masks : PredMasks)
    (original reshaped : list (float * float))
    (iou_scores : list float)                                 (* :105 *)
| AwaitFromURL (url : string) (k : EncodeCaller)              (* :207 *)
| AwaitProcessor (p : ModelKey) (img : RawImage)
    (k : EncodeCaller)                                        (* :215 *)
| AwaitEmbeddings (m : ModelKey) (ip : Processed PixelValues)
    (k : EncodeCaller)                                        (* :216 *)
| AwaitFrameFetch                                             (* :236 *)
| AwaitFrameBlob (r : Response)                               (* :241 *)
| AwaitModelLoad (key : ModelKey)                             (* :72 *)
| AwaitConvertToBlob (px : list N) (w h : nat)                (* :382 *)
| AwaitMaskPost (b : Blob).                                   (* :394 *)

(** What the cut handler hands to its two sinks: a file offered for
    download, a request sent. The requests of the loads (lines 64-68, 207
    and 236) are the awaits above. *)
Inductive Output :=
| Download (filename : string) (b : Blob)
| HttpPost (url contentType : string) (b : Blob).

Record State := mkState {
  (* module-scope variables, index.js:37-51 *)
  isEncoding : bool;
  isDecoding : bool;
  decodePending : bool;
  lastPoints : option (list Point);
  isMultiMaskMode : bool;
  imageInput : option RawImage;
  imageProcessed : option (Processed PixelValues);
  imageEmbeddings : option Embeddings;
  currentModelKey : ModelKey;
  model : option ModelKey;
  processor : option ModelKey;
  (* the DOM state the handlers read and write *)
  statusLabel : string;
  cutButton_disabled : bool;
  loadFromAviUtl2Button_disabled : bool;
  uploadButton_display : Display;
  backgroundImage : option string;
  icons : list Point;
  maskCanvas : Canvas;
  (* the awaits in flight, and what the cut handler has emitted *)
  pending : list Task;
  outputs : list Output
}.

Definition set_isEncoding (v : bool) (s : State) : State :=
  mkState v (isDecoding s) (decodePending s) (lastPoints s)
    (isMultiMaskMode s) (imageInput s) (imageProcessed s)
    (imageEmbeddings s) (currentModelKey s) (model s) (processor s)
    (statusLabel s) (cutButton_disabled s)
    (loadFromAviUtl2Button_disabled s) (uploadButton_display s)
    (backgroundImage s) (icons s) (maskCanvas s) (pending s) (outputs s).
Definition set_isDecoding (v : bool) (s : State) : State :=
  mkState (isEncoding s) v (decodePending s) (lastPoints s)
    (isMultiMaskMode s) (imageInput s) (imageProcessed s)
    (imageEmbeddings s) (currentModelKey s) (model s) (processor s)
    (statusLabel s) (cutButton_disabled s)
    (loadFromAviUtl2Button_disabled s) (uploadButton_display s)
    (backgroundImage s) (icons s) (maskCanvas s) (pending s) (outputs s).
Definition set_decodePending (v : bool) (s : State) : State :=
  mkState (isEncoding s) (isDecoding s) v (lastPoints s)
    (isMultiMaskMode s) (imageInput s) (imageProcessed s)
    (imageEmbeddings s) (currentModelKey s) (model s) (processor s)
    (statusLabel s) (cutButton_disabled s)
    (loadFromAviUtl2Button_disabled s) (uploadButton_display s)
    (backgroundImage s) (icons s) (maskCanvas s) (pending s) (outputs s).
Definition set_lastPoints (v : option (list Point)) (s : State) : State :=
  mkState (isEncoding s) (isDecoding s) (decodePending s) v
    (isMultiMaskMode s) (imageInput s) (imageProcessed s)
    (imageEmbeddings s) (currentModelKey s) (model s) (processor s)
    (statusLabel s) (cutButton_disabled s)
    (loadFromAviUtl2Button_disabled s) (uploadButton_display s)
    (backgroundImage s) (icons s) (maskCanvas s) (pending s) (outputs s).
Definition set_isMultiMaskMode (v : bool) (s : State) : State :=
  mkState (isEncoding s) (isDecoding s) (decodePending s) (lastPoints s)
    v (imageInput s) (imageProcessed s) (imageEmbeddings s)
    (currentModelKey s) (model s) (processor s) (statusLabel s)
    (cutButton_disabled s) (loadFromAviUtl2Button_disabled s)
    (uploadButton_display s) (backgroundImage s) (icons s) (maskCanvas
    s) (pending s) (outputs s).
Definition set_imageInput (v : option RawImage) (s : State) : State :=
  mkState (isEncoding s) (isDecoding s) (decodePending s) (lastPoints s)
    (isMultiMaskMode s) v (imageProcessed s) (imageEmbeddings s)
    (currentModelKey s) (model s) (processor s) (statusLabel s)
    (cutButton_disabled s) (loadFromAviUtl2Button_disabled s)
    (uploadButton_display s) (backgroundImage s) (icons s) (maskCanvas
    s) (pending s) (outputs s).
Definition set_imageProcessed (v : option (Processed PixelValues)) (s : State) : State :=
  mkState (isEncoding s) (isDecoding s) (decodePending s) (lastPoints s)
    (isMultiMaskMode s) (imageInput s) v (imageEmbeddings s)
    (currentModelKey s) (model s) (processor s) (statusLabel s)
    (cutButton_disabled s) (loadFromAviUtl2Button_disabled s)
    (uploadButton_display s) (backgroundImage s) (icons s) (maskCanvas
    s) (pending s) (outputs s).
Definition set_imageEmbeddings (v : option Embeddings) (s : State) : State :=
  mkState (isEncoding s) (isDecoding s) (decodePending s) (lastPoints s)
    (isMultiMaskMode s) (imageInput s) (imageProcessed s) v
    (currentModelKey s) (model s) (processor s) (statusLabel s)
    (cutButton_disabled s) (loadFromAviUtl2Button_disabled s)
    (uploadButton_display s) (backgroundImage s) (icons s) (maskCanvas
    s) (pending s) (outputs s).
Definition set_currentModelKey (v : ModelKey) (s : State) : State :=
  mkState (isEncoding s) (isDecoding s) (decodePending s) (lastPoints s)
    (isMultiMaskMode s) (imageInput s) (imageProcessed s)
    (imageEmbeddings s) v (model s) (processor s) (statusLabel s)
    (cutButton_disabled s) (loadFromAviUtl2Button_disabled s)
    (uploadButton_display s) (backgroundImage s) (icons s) (maskCanvas
    s) (pending s) (outputs s).
Definition set_model (v : option ModelKey) (s : State) : State :=
  mkState (isEncoding s) (isDecoding s) (decodePending s) (lastPoints s)
    (isMultiMaskMode s) (imageInput s) (imageProcessed s)
    (imageEmbeddings s) (currentModelKey s) v (processor s) (statusLabel
    s) (cutButton_disabled s) (loadFromAviUtl2Button_disabled s)
    (uploadButton_display s) (backgroundImage s) (icons s) (maskCanvas
    s) (pending s) (outputs s).
Definition set_processor (v : option ModelKey) (s : State) : State :=
  mkState (isEncoding s) (isDecoding s) (decodePending s) (lastPoints s)
    (isMultiMaskMode s) (imageInput s) (imageProcessed s)
    (imageEmbeddings s) (currentModelKey s) (model s) v (statusLabel s)
    (cutButton_disabled s) (loadFromAviUtl2Button_disabled s)
    (uploadButton_display s) (backgroundImage s) (icons s) (maskCanvas
    s) (pending s) (outputs s).
Definition set_statusLabel (v : string) (s : State) : State :=
  mkState (isEncoding s) (isDecoding s) (decodePending s) (lastPoints s)
    (isMultiMaskMode s) (imageInput s) (imageProcessed s)
    (imageEmbeddings s) (currentModelKey s) (model s) (processor s) v
    (cutButton_disabled s) (loadFromAviUtl2Button_disabled s)
    (uploadButton_display s) (backgroundImage s) (icons s) (maskCanvas
    s) (pending s) (outputs s).
Definition set_cutButton_disabled (v : bool) (s : State) : State :=
  mkState (isEncoding s) (isDecoding s) (decodePending s) (lastPoints s)
    (isMultiMaskMode s) (imageInput s) (imageProcessed s)
    (imageEmbeddings s) (currentModelKey s) (model s) (processor s)
    (statusLabel s) v (loadFromAviUtl2Button_disabled s)
    (uploadButton_display s) (backgroundImage s) (icons s) (maskCanvas
    s) (pending s) (outputs s).
Definition set_loadFromAviUtl2Button_disabled (v : bool) (s : State) : State :=
  mkState (isEncoding s) (isDecoding s) (decodePending s) (lastPoints s)
    (isMultiMaskMode s) (imageInput s) (imageProcessed s)
    (imageEmbeddings s) (currentModelKey s) (model s) (processor s)
    (statusLabel s) (cutButton_disabled s) v (uploadButton_display s)
    (backgroundImage s) (icons s) (maskCanvas s) (pending s) (outputs s).
Definition set_uploadButton_display (v : Display) (s : State) : State :=
  mkState (isEncoding s) (isDecoding s) (decodePending s) (lastPoints s)
    (isMultiMaskMode s) (imageInput s) (imageProcessed s)
    (imageEmbeddings s) (currentModelKey s) (model s) (processor s)
    (statusLabel s) (cutButton_disabled s)
    (loadFromAviUtl2Button_disabled s) v (backgroundImage s) (icons s)
    (maskCanvas s) (pending s) (outputs s).
Definition set_backgroundImage (v : option string) (s : State) : State :=
  mkState (isEncoding s) (isDecoding s) (decodePending s) (lastPoints s)
    (isMultiMaskMode s) (imageInput s) (imageProcessed s)
    (imageEmbeddings s) (currentModelKey s) (model s) (processor s)
    (statusLabel s) (cutButton_disabled s)
    (loadFromAviUtl2Button_disabled s) (uploadButton_display s) v (icons
    s) (maskCanvas s) (pending s) (outputs s).
Definition set_icons (v : list Point) (s : State) : State :=
  mkState (isEncoding s) (isDecoding s) (decodePending s) (lastPoints s)
    (isMultiMaskMode s) (imageInput s) (imageProcessed s)
    (imageEmbeddings s) (currentModelKey s) (model s) (processor s)
    (statusLabel s) (cutButton_disabled s)
    (loadFromAviUtl2Button_disabled s) (uploadButton_display s)
    (backgroundImage s) v (maskCanvas s) (pending s) (outputs s).
Definition set_maskCanvas (v : Canvas) (s : State) : State :=
  mkState (isEncoding s) (isDecoding s) (decodePending s) (lastPoints s)
    (isMultiMaskMode s) (imageInput s) (imageProcessed s)
    (imageEmbeddings s) (currentModelKey s) (model s) (processor s)
    (statusLabel s) (cutButton_disabled s)
    (loadFromAviUtl2Button_disabled s) (uploadButton_display s)
    (backgroundImage s) (icons s) v (pending s) (outputs s).
Definition set_pending (v : list Task) (s : State) : State :=
  mkState (isEncoding s) (isDecoding s) (decodePending s) (lastPoints s)
    (isMultiMaskMode s) (imageInput s) (imageProcessed s)
    (imageEmbeddings s) (currentModelKey s) (model s) (processor s)
    (statusLabel s) (cutButton_disabled s)
    (loadFromAviUtl2Button_disabled s) (uploadButton_display s)
    (backgroundImage s) (icons s) (maskCanvas s) v (outputs s).
Definition set_outputs (v : list Output) (s : State) : State :=
  mkState (isEncoding s) (isDecoding s) (decodePending s) (lastPoints s)
    (isMultiMaskMode s) (imageInput s) (imageProcessed s)
    (imageEmbeddings s) (currentModelKey s) (model s) (processor s)
    (statusLabel s) (cutButton_disabled s)
    (loadFromAviUtl2Button_disabled s) (uploadButton_display s)
    (backgroundImage s) (icons s) (maskCanvas s) (pending s) v.

(** *** The monad of handler bodies: state and thrown errors *)

Definition Js (A : Type) : Type := State -> Completion A * State.

#[global] Instance Js_ret : MRet Js := fun A a s => (Normal a, s).

#[global] Instance Js_bind : MBind Js := fun A B f c s =>
  match c s with
  | (Normal a, s') => f a s'
  | (Throw e, s') => (Throw e, s')
  end.

Definition throw {A} (e : JsError) : Js A := fun s => (Throw e, s).
Definition gets {A} (f : State -> A) : Js A := fun s => (Normal (f s), s).
Definition modify (f : State -> State) : Js unit := fun s => (Normal tt, f s).

(** Reading a property of, or calling, a variable that holds [null]
    throws a TypeError. *)
Definition deref {A} (f : State -> option A) : Js A := fun s =>
  match f s with
  | Some a => (Normal a, s)
  | None => (Throw TypeError, s)
  end.

Definition spawn (t : Task) : Js unit :=
  modify (fun s => set_pending (pending s ++ [t]) s).

Definition output (o : Output) : Js unit :=
  modify (fun s => set_outputs (outputs s ++ [o]) s).

(** A call of an async function whose promise nobody awaits: the caller
    goes on whatever happens inside; a throw only rejects the promise. *)
Definition detach (c : Js unit) : Js unit := fun s => (Normal tt, snd (c s)).

Definition is_null {A} (o : option A) : bool :=
  match o with None => true | Some _ => false end.

Definition when (b : bool) (c : Js unit) : Js unit :=
  if b then c else mret tt.

(** *** decode, index.js:78-120 *)

Definition scale_point (reshaped : float * float) (x : Point) : list float :=
  [ (fst (position x) * snd reshaped)%float;
    (snd (position x) * fst reshaped)%float ].

(** [lastPoints.map(x => [..reshaped[1], ..reshaped[0]]).flat(Infinity)];
    [reshaped] is [undefined] when the processor reported no size, and the
    callback then throws on the first point. *)
Definition scale_points (reshaped : option (float * float))
    (lp : list Point) : Js (list float) :=
  match reshaped, lp with
  | Some r, _ => mret (concat (map (scale_point r) lp))
  | None, [] => mret []
  | None, _ :: _ => throw TypeError
  end.

Definition decode : Js unit :=
  busy ← gets isDecoding;
  if (busy : bool) then modify (set_decodePending true)
  else
    modify (set_isDecoding true);;
    ip ← deref imageProcessed;
    let reshaped := reshaped_input_sizes ip !! 0 in
    lp ← deref lastPoints;
    points ← scale_points reshaped lp;
    let labels := map label lp in
    let num_points := length lp in
    let input_points := mkTensor points [1; 1; num_points; 2] in
    let input_labels := mkTensor labels [1; 1; num_points] in
    m ← deref model;
    emb ← gets imageEmbeddings;
    spawn (AwaitModel m emb input_points input_labels).

(** index.js:122-159 *)
Definition createImageData (w h : nat) : Js (list N) :=
  if (w =? 0) || (h =? 0) then throw IndexSizeError else mret (blank w h).

Definition updateMaskOverlay (mask : RawImage) (scores : list float)
    : Js unit :=
  c ← gets maskCanvas;
  when (negb (canvas_width c =? width mask)
        || negb (canvas_height c =? height mask))
    (modify (set_maskCanvas
               (mkCanvas (width mask) (height mask)
                         (blank (width mask) (height mask)))));;
  c ← gets maskCanvas;
  imageData ← createImageData (canvas_width c) (canvas_height c);
  let numMasks := length scores in
  let best := bestIndex scores in
  score ← deref (fun _ => scores !! best);
  modify (set_statusLabel ("Segment score: " ++ toFixed2 score));;
  let pixelData := fill_mask numMasks best (data mask) imageData in
  modify (set_maskCanvas
            (mkCanvas (canvas_width c) (canvas_height c) pixelData)).

(** After [await model(...)], lines 105-109. *)
Definition decode_after_model (pred_masks : PredMasks)
    (iou_scores : list float) : Js unit :=
  p ← deref processor;
  ip ← deref imageProcessed;
  spawn (AwaitPostProcess p pred_masks (original_sizes ip)
           (reshaped_input_sizes ip) iou_scores).

(** After [await processor.post_process_masks(...)], lines 111-119. *)
Definition decode_after_post (mask : RawImage) (iou_scores : list float)
    : Js unit :=
  modify (set_isDecoding false);;
  updateMaskOverlay mask iou_scores;;
  again ← gets decodePending;
  when again (modify (set_decodePending false);; detach decode).

(** *** clearPointsAndMask and resetImageState, index.js:161-193 *)

Definition clearRect (c : Canvas) : Canvas :=
  mkCanvas (canvas_width c) (canvas_height c)
           (blank (canvas_width c) (canvas_height c)).

Definition clearPointsAndMask : Js unit :=
  modify (set_isMultiMaskMode false);;
  modify (set_lastPoints None);;
  modify (set_icons []);;
  modify (set_cutButton_disabled true);;
  modify (fun s => set_maskCanvas (clearRect (maskCanvas s)) s).

Definition resetImageState : Js unit :=
  modify (set_imageInput None);;
  modify (set_imageProcessed None);;
  modify (set_imageEmbeddings None);;
  modify (set_isEncoding false);;
  modify (set_isDecoding false);;
  modify (set_decodePending false);;
  clearPointsAndMask;;
  modify (set_cutButton_disabled true);;
  modify (set_backgroundImage None);;
  modify (set_uploadButton_display display_flex);;
  modify (set_statusLabel "Ready").

(** *** encode, index.js:202-220

    The promise of an [encode] call settles when its last stage ends or
    when a stage throws; [loadFromAviUtl2] awaits it inside its
    [try]/[catch]/[finally] (lines 245-253), the other callers drop it. *)

Definition loadFromAviUtl2_finally : Js unit :=
  modify (set_loadFromAviUtl2Button_disabled false).

(** Line 247, reached when the awaited [encode] returns. *)
Definition loadFromAviUtl2_after_encode : Js unit :=
  modify (set_statusLabel "Ready");;
  loadFromAviUtl2_finally.

(** The [catch] block, lines 248-250. *)
Definition loadFromAviUtl2_catch : Js unit :=
  modify (set_statusLabel "Failed to load frame from AviUtl2");;
  loadFromAviUtl2_finally.

Definition encode_settled (k : EncodeCaller) (r : Completion unit)
    : Js unit :=
  match k, r with
  | Detached, _ => mret tt
  | FromAviUtl2, Normal _ => loadFromAviUtl2_after_encode
  | FromAviUtl2, Throw _ => loadFromAviUtl2_catch
  end.

(** A stage of [encode] either suspends at the next [await] ([false]) or
    reaches the end of the function ([true]). *)
Definition encode_stage (k : EncodeCaller) (c : Js bool) : Js unit :=
  fun s =>
    match c s with
    | (Normal false, s') => (Normal tt, s')
    | (Normal true, s') => encode_settled k (Normal tt) s'
    | (Throw e, s') => encode_settled k (Throw e) s'
    end.

Definition encode_start (url : string) (k : EncodeCaller) : Js bool :=
  busy ← gets isEncoding;
  if (busy : bool) then mret true
  else
    modify (set_isEncoding true);;
    modify (set_statusLabel "Extracting image embedding...");;
    spawn (AwaitFromURL url k);;
    mret false.

Definition encode (url : string) (k : EncodeCaller) : Js unit :=
  encode_stage k (encode_start url k).

(** After [await RawImage.fromURL(url)], lines 207-215. *)
Definition encode_after_image (url : string) (img : RawImage)
    (k : EncodeCaller) : Js bool :=
  modify (set_imageInput (Some img));;
  modify (set_backgroundImage (Some url));;
  modify (set_uploadButton_display display_none);;
  modify (set_cutButton_disabled true);;
  p ← deref processor;
  spawn (AwaitProcessor p img k);;
  mret false.

(** After [await processor(imageInput)], lines 215-216. *)
Definition encode_after_processor (ip : Processed PixelValues)
    (k : EncodeCaller) : Js bool :=
  modify (set_imageProcessed (Some ip));;
  m ← deref model;
  spawn (AwaitEmbeddings m ip k);;
  mret false.

(** After [await model.get_image_embeddings(imageProcessed)],
    lines 216-219. *)
Definition encode_after_embeddings (emb : Embeddings) : Js bool :=
  modify (set_imageEmbeddings (Some emb));;
  modify (set_statusLabel "Embedding extracted!");;
  modify (set_isEncoding false);;
  mret true.

(** *** loadFromAviUtl2, index.js:222-254 *)

Definition loadFromAviUtl2 : Js unit :=
  encoding ← gets isEncoding;
  decoding ← gets isDecoding;
  if (encoding : bool) || (decoding : bool)
  then modify (set_statusLabel "Busy... please wait")
  else
    resetImageState;;
    modify (set_loadFromAviUtl2Button_disabled true);;
    modify (set_statusLabel "Loading frame from AviUtl2...");;
    spawn AwaitFrameFetch.

(** After [await fetch(AVIUTL2_FRAME_URL)], lines 237-241. *)
Definition loadFromAviUtl2_after_fetch (response : Response) : Js unit :=
  if ok response then spawn (AwaitFrameBlob response)
  else loadFromAviUtl2_catch.

(** After [await response.blob()], lines 242-245. *)
Definition loadFromAviUtl2_after_blob (response : Response) : Js unit :=
  let objectUrl := createObjectURL (body response) in
  encode objectUrl FromAviUtl2.

(** *** The model selector, index.js:53-76 and 279-288

    The cache of load promises has no effect on the state and is left
    out; [model] and [processor] are assigned together when the load
    settles. *)

Definition loadCurrentModelIfNeeded (key : ModelKey) : Js unit :=
  modify (set_currentModelKey key);;
  spawn (AwaitModelLoad key).

(** After [await Promise.all(...)], line 72, and the caller's line 286. *)
Definition loadCurrentModelIfNeeded_after_load (key : ModelKey) : Js unit :=
  modify (set_model (Some key));;
  modify (set_processor (Some key));;
  modify (set_statusLabel "Ready").

Definition on_model_change (key : ModelKey) : Js unit :=
  resetImageState;;
  modify (set_statusLabel "Loading model...");;
  loadCurrentModelIfNeeded key.

(** *** Pointer handlers, index.js:291-315 and 343-352 *)

Definition on_mousedown (e : MouseEvt) : Js unit :=
  if negb (button e =? 0)%Z && negb (button e =? 2)%Z then mret tt
  else
    emb ← gets imageEmbeddings;
    if is_null (emb : option Embeddings) then mret tt
    else
      multi ← gets isMultiMaskMode;
      when (negb multi)
        (modify (set_lastPoints (Some []));;
         modify (set_isMultiMaskMode true);;
         modify (set_cutButton_disabled false));;
      let point := getPoint e in
      lp ← deref lastPoints;
      modify (set_lastPoints (Some (lp ++ [point])));;
      modify (fun s => set_icons (icons s ++ [point]) s);;
      detach decode.

Definition on_mousemove (e : MouseEvt) : Js unit :=
  emb ← gets imageEmbeddings;
  multi ← gets isMultiMaskMode;
  if is_null (emb : option Embeddings) || (multi : bool)
  then mret tt
  else
    modify (set_lastPoints (Some [getPoint e]));;
    detach decode.

(** *** The cut button, index.js:355-409 *)

Definition getImageData (c : Canvas) : Js (list N) :=
  if (canvas_width c =? 0) || (canvas_height c =? 0)
  then throw IndexSizeError
  else mret (pixels c).

Definition on_cut_click : Js unit :=
  c ← gets maskCanvas;
  let w := canvas_width c in
  let h := canvas_height c in
  maskPixelData ← getImageData c;
  img ← deref imageInput;
  let imagePixelData := data img in
  spawn (AwaitConvertToBlob (cut_pixels imagePixelData maskPixelData w h)
                            w h).

(** After [await cutCanvas.convertToBlob(...)], lines 384-400: the one
    blob goes to the download link and into the POST request. *)
Definition cut_after_blob (blob : Blob) : Js unit :=
  output (Download "image.png" blob);;
  modify (set_statusLabel "Sending mask to AviUtl2...");;
  output (HttpPost AVIUTL2_MASK_URL "image/png" blob);;
  spawn (AwaitMaskPost blob).

(** The [catch] block, lines 405-408. *)
Definition cut_upload_failed : Js unit :=
  modify (set_statusLabel "Failed to send mask to AviUtl2").

Definition cut_after_post (res : Response) : Js unit :=
  if ok res then modify (set_statusLabel "Mask sent to AviUtl2")
  else cut_upload_failed.

(** *** The event loop *)

(** How an awaited promise settles. A [fetch] is fulfilled with the
    response the server sent. *)
Inductive Settlement :=
| Fulfilled
| FulfilledWith (r : Response)
| Rejected (e : JsError).

Inductive Event :=
| MouseDown (e : MouseEvt)
| MouseMove (e : MouseEvt)
| ClearClick
| ResetClick
| ExampleClick
| FileLoaded (url : string)
| LoadFromAviUtl2Click
| ModelSelectChange (key : ModelKey)
| CutClick
| Settle (n : nat) (r : Settlement).

(** The continuation a settled await runs; [None] when the settlement is
    not one the awaited promise can have. *)
Definition resume (t : Task) (r : Settlement) : option (Js unit) :=
  match t, r with
  | AwaitModel m emb pts lbls, Fulfilled =>
      Some (let '(pred_masks, iou_scores) := sam_model m emb pts lbls in
            decode_after_model pred_masks iou_scores)
  | AwaitPostProcess p pm os rs sc, Fulfilled =>
      Some (decode_after_post (post_process_masks p pm os rs) sc)
  | AwaitFromURL url k, Fulfilled =>
      Some (encode_stage k (encode_after_image url (RawImage_fromURL url) k))
  | AwaitProcessor p img k, Fulfilled =>
      Some (encode_stage k (encode_after_processor (processor_call p img) k))
  | AwaitEmbeddings m ip k, Fulfilled =>
      Some (encode_stage k
              (encode_after_embeddings (get_image_embeddings m ip)))
  | AwaitFrameFetch, FulfilledWith r => Some (loadFromAviUtl2_after_fetch r)
  | AwaitFrameBlob r, Fulfilled => Some (loadFromAviUtl2_after_blob r)
  | AwaitModelLoad key, Fulfilled => Some (loadCurrentModelIfNeeded_after_load key)
  | AwaitConvertToBlob px w h, Fulfilled =>
      Some (cut_after_blob (convertToBlob px w h))
  | AwaitMaskPost _, FulfilledWith r => Some (cut_after_post r)
  | AwaitModel _ _ _ _, Rejected e
  | AwaitPostProcess _ _ _ _ _, Rejected e
  | AwaitModelLoad _, Rejected e
  | AwaitConvertToBlob _ _ _, Rejected e => Some (throw e)
  | AwaitFromURL _ k, Rejected e
  | AwaitProcessor _ _ k, Rejected e
  | AwaitEmbeddings _ _ k, Rejected e => Some (encode_settled k (Throw e))
  | AwaitFrameFetch, Rejected _
  | AwaitFrameBlob _, Rejected _ => Some loadFromAviUtl2_catch
  | AwaitMaskPost _, Rejected _ => Some cut_upload_failed
  | _, _ => None
  end.

Definition settle (n : nat) (r : Settlement) : Js unit := fun s =>
  match pending s !! n with
  | Some t =>
      match resume t r with
      | Some c => c (set_pending (delete n (pending s)) s)
      | None => (Normal tt, s)
      end
  | None => (Normal tt, s)
  end.

(** A disabled button dispatches no click. *)
Definition unless_disabled (disabled : State -> bool) (c : Js unit)
    : Js unit :=
  fun s => if disabled s then (Normal tt, s) else c s.

Definition handler (ev : Event) : Js unit :=
  match ev with
  | MouseDown e => on_mousedown e
  | MouseMove e => on_mousemove e
  | ClearClick => clearPointsAndMask
  | ResetClick => resetImageState
  | ExampleClick => encode EXAMPLE_URL Detached
  | FileLoaded url => encode url Detached
  | LoadFromAviUtl2Click =>
      unless_disabled loadFromAviUtl2Button_disabled loadFromAviUtl2
  | ModelSelectChange key => on_model_change key
  | CutClick => unless_disabled cutButton_disabled on_cut_click
  | Settle n r => settle n r
  end.

(** One turn of the event loop: the handler runs to its end or to its
    first [await]; an error it throws is reported to the console and the
    state stays as the handler left it. *)
Definition step (s : State) (ev : Event) : State := snd (handler ev s).

Definition run (s : State) (evs : list Event) : State := foldl step s evs.

(** The page once the script has run to its end (line 419): nothing
    loaded, the default model ready, the cut button disabled. *)
Definition initial (c : Canvas) : State :=
  mkState false false false None false None None None
          slimsam (Some slimsam) (Some slimsam)
          "Ready" true false display_flex None [] c [] [].

End Engine.

(** ** Reading pixels *)

(** The four bytes of pixel [p] of an RGBA bitmap. *)
Definition rgba_at (px : list N) (p : nat) : option (N * N * N * N) :=
  r ← px !! (4 * p);
  g ← px !! (4 * p + 1);
  b ← px !! (4 * p + 2);
  a ← px !! (4 * p + 3);
  Some (r, g, b, a).

(** The three bytes of pixel [p] of an RGB buffer, as the cut loop indexes
    [imageInput.data]. *)
Definition rgb_at (img : list N) (p : nat) : option (N * N * N) :=
  r ← img !! (3 * p);
  g ← img !! (3 * p + 1);
  b ← img !! (3 * p + 2);
  Some (r, g, b).

Definition highlight : N * N * N * N := (0, 114, 189, 255)%N.
Definition transparent : N * N * N * N := (0, 0, 0, 0)%N.

(** The label the renderer consults for pixel [p]: the chosen candidate's
    entry in the interleaved mask. *)
Definition label_at (numMasks best : nat) (mask : list N) (p : nat) : option N :=
  mask !! (numMasks * p + best).

Definition is_inside (l : option N) : bool :=
  match l with Some 1%N => true | _ => false end.

(** The overlay a mask and its scores render to, whatever was drawn before. *)
Definition overlay_of (mask : RawImage) (scores : list float) : Canvas :=
  mkCanvas (width mask) (height mask)
    (fill_mask (length scores) (bestIndex scores) (data mask)
       (blank (width mask) (height mask))).

(** What the scan for the best score has established once it has looked at
    the indices below [i]. *)
Definition scanned (scores : list float) (best i : nat) : Prop :=
  best < i
  /\ (forall j, j < i -> gt (score_at scores j) (score_at scores best) = false)
  /\ (forall j, j < best ->
        (score_at scores best <=? score_at scores j)%float = false).

Definition highlight_byte (c : nat) : N :=
  match c with 0 => 0%N | 1 => 114%N | 2 => 189%N | _ => 255%N end.

(** Whether the cut loop sees pixel [i] of [px] as opaque. *)
Definition opaque (px : list N) (i : nat) : bool :=
  match px !! (4 * i + 3) with
  | Some a => (0 <? a)%N
  | None => false
  end.

(** [imagePixelData[3 * i + c]], written into a clamped byte array. *)
Definition source_byte (img : list N) (i c : nat) : N :=
  default 0%N (img !! (3 * i + c)).

(** ** Pointer positions *)

(** The quotients [getPoint] clamps. *)
Definition quotient_x (e : MouseEvt) : float :=
  ((clientX e - rect_left (bb e)) / rect_width (bb e))%float.

Definition quotient_y (e : MouseEvt) : float :=
  ((clientY e - rect_top (bb e)) / rect_height (bb e))%float.

Definition point_in_unit (p : Point) : bool :=
  in_unit (fst (position p)) && in_unit (snd (position p)).

(** A pointer event with finite coordinates over a bounding box of finite,
    non-zero width and height. *)
Definition well_placed (e : MouseEvt) : bool :=
  is_finite (clientX e) && is_finite (clientY e)
  && is_finite (rect_left (bb e)) && is_finite (rect_top (bb e))
  && is_finite (rect_width (bb e)) && negb (is_zero (rect_width (bb e)))
  && is_finite (rect_height (bb e)) && negb (is_zero (rect_height (bb e))).

(** ** The decode pipeline *)

Section DecodeModel.

Context {P : Platform}.

(** An await of the decode pipeline: the model call or the post-processing
    that follows it. *)
Definition is_decode_task (t : Task) : bool :=
  match t with
  | AwaitModel _ _ _ _ | AwaitPostProcess _ _ _ _ _ => true
  | _ => false
  end.

(** An await of [encode]. *)
Definition is_encode_task (t : Task) : bool :=
  match t with
  | AwaitFromURL _ _ | AwaitProcessor _ _ _ | AwaitEmbeddings _ _ _ => true
  | _ => false
  end.

(** A step of [encode]: a call of it from the upload or the example link,
    or one of its awaits settling. *)
Definition is_encode_step (s : State) (ev : Event) : bool :=
  match ev with
  | ExampleClick | FileLoaded _ => true
  | Settle n (Fulfilled | Rejected _) =>
      match pending s !! n with
      | Some t => is_encode_task t
      | None => false
      end
  | _ => false
  end.

(** The point store holds at least one point. *)
Definition has_points (s : State) : bool :=
  match lastPoints s with
  | Some (_ :: _) => true
  | _ => false
  end.

(** Export is offered only inside a multi-point session with points. *)
Definition export_sound (s : State) : Prop :=
  cutButton_disabled s = false ->
  isMultiMaskMode s = true /\ has_points s = true.

(** The state [resetImageState] leaves: no image, no embedding, no point
    session, a blank overlay. *)
Definition torn_down (s : State) : Prop :=
  imageInput s = None
  /\ imageProcessed s = None
  /\ imageEmbeddings s = None
  /\ lastPoints s = None
  /\ isMultiMaskMode s = false
  /\ icons s = []
  /\ cutButton_disabled s = true
  /\ pixels (maskCanvas s) =
       blank (canvas_width (maskCanvas s)) (canvas_height (maskCanvas s)).

(** What a click does to the point store before it calls [decode]: the
    first click of a session opens it, every click appends its point. *)
Definition open_session (s : State) : State :=
  if isMultiMaskMode s then s
  else set_cutButton_disabled false
         (set_isMultiMaskMode true (set_lastPoints (Some []) s)).

Definition push_point (pt : Point) (lp : list Point) (s : State) : State :=
  set_icons (icons s ++ [pt]) (set_lastPoints (Some (lp ++ [pt])) s).

Definition pointer_well_placed (ev : Event) : bool :=
  match ev with
  | MouseDown e | MouseMove e => well_placed e
  | _ => true
  end.

(** Every point the store holds lies in the unit square. *)
Definition points_in_unit (s : State) : Prop :=
  forall lp, lastPoints s = Some lp ->
             Forall (fun p => point_in_unit p = true) lp.

End DecodeModel.

(** ** The decode coordinator within one image session *)

Section Coordinator.

Context {P : Platform}.

(** What stays fixed while pointer events and decodes alternate: the
    loaded model and processor, the image's embedding, and what the
    processor reported about the image. *)
Record Session := mkSession {
  ses_model : ModelKey;
  ses_processor : ModelKey;
  ses_embeddings : Embeddings;
  ses_processed : Processed PixelValues;
  ses_reshaped : float * float
}.

Definition in_session (σ : Session) (s : State) : Prop :=
  model s = Some (ses_model σ)
  /\ processor s = Some (ses_processor σ)
  /\ imageEmbeddings s = Some (ses_embeddings σ)
  /\ imageProcessed s = Some (ses_processed σ)
  /\ reshaped_input_sizes (ses_processed σ) !! 0 = Some (ses_reshaped σ).

(** The two tensors [decode] builds from a point list (lines 88-95). *)
Definition input_points (σ : Session) (lp : list Point) : Tensor float :=
  mkTensor (concat (map (scale_point (ses_reshaped σ)) lp))
           [1; 1; length lp; 2].

Definition input_labels (lp : list Point) : Tensor Z :=
  mkTensor (map label lp) [1; 1; length lp].

(** The inference call a dispatch with the point list [lp] makes, and the
    post-processing call that follows it. *)
Definition model_task (σ : Session) (lp : list Point) : Task :=
  AwaitModel (ses_model σ) (Some (ses_embeddings σ))
             (input_points σ lp) (input_labels lp).

Definition model_output (σ : Session) (lp : list Point)
    : PredMasks * list float :=
  sam_model (ses_model σ) (Some (ses_embeddings σ))
            (input_points σ lp) (input_labels lp).

Definition post_task (σ : Session) (lp : list Point) : Task :=
  AwaitPostProcess (ses_processor σ) (fst (model_output σ lp))
    (original_sizes (ses_processed σ))
    (reshaped_input_sizes (ses_processed σ))
    (snd (model_output σ lp)).

Definition decoded_mask (σ : Session) (lp : list Point) : RawImage :=
  post_process_masks (ses_processor σ) (fst (model_output σ lp))
    (original_sizes (ses_processed σ))
    (reshaped_input_sizes (ses_processed σ)).

Definition decoded_scores (σ : Session) (lp : list Point) : list float :=
  snd (model_output σ lp).

(** The overlay that corresponds to the point list [lp]. *)
Definition rendered (σ : Session) (lp : list Point) : Canvas :=
  overlay_of (decoded_mask σ lp) (decoded_scores σ lp).

(** The model proposes at least one candidate and the mask has pixels. *)
Definition answers_well (σ : Session) : Prop :=
  forall lp,
    decoded_scores σ lp <> []
    /\ width (decoded_mask σ lp) <> 0
    /\ height (decoded_mask σ lp) <> 0.

(** The coordinator's two situations. Busy: one await of the pipeline is
    in flight, for some point list [lp']; unless a rerun is owed, [lp'] is
    the current point list. Idle: nothing is in flight or owed, and the
    overlay is the one of the current point list. *)
Definition coordinator (σ : Session) (s : State) : Prop :=
  exists lp,
    lastPoints s = Some lp
    /\ ((isDecoding s = true
         /\ exists lp',
              (pending s = [model_task σ lp']
               \/ pending s = [post_task σ lp'])
              /\ (decodePending s = false -> lp' = lp))
        \/ (isDecoding s = false
            /\ decodePending s = false
            /\ pending s = []
            /\ maskCanvas s = rendered σ lp)).

(** The events of a decode session: pointer events, and awaits that are
    fulfilled. *)
Definition decode_session_event (ev : Event) : bool :=
  match ev with
  | MouseDown _ | MouseMove _ => true
  | Settle _ (Fulfilled | FulfilledWith _) => true
  | _ => false
  end.



(** The awaits of the decode pipeline in flight. *)
Definition decodes_in_flight (s : State) : nat :=
  length (List.filter is_decode_task (pending s)).

End Coordinator.

(** ** A small instance of the collaborators, for concrete runs

    A two-pixel image; the model proposes three masks scored 0.7, 0.91 and
    0.91; which pixel the selected mask covers depends on the first prompt
    point, so that a rerun with other points shows on the overlay. *)

Module Demo.

Definition image : RawImage :=
  mkRawImage [10; 20; 30; 40; 50; 60]%N 2 1 3.

(** Three interleaved candidates over two pixels: candidate 1, the one
    the scores select, covers the left pixel when the first prompt point
    lies in the left half of the image, and the right pixel otherwise. *)
Definition masks (left : bool) : RawImage :=
  if left
  then mkRawImage [0; 1; 1; 0; 0; 1]%N 2 1 3
  else mkRawImage [0; 0; 1; 0; 1; 1]%N 2 1 3.

Definition in_left_half (input_points : list float) : bool :=
  match input_points with
  | x :: _ => (x <? 512)%float
  | [] => false
  end.

(** 0.7 and 0.91 as a [Float32Array] holds them, and as doubles. *)
Definition score_0_70 : float := 0x1.666666p-1%float.
Definition score_0_91 : float := 0x1.d1eb86p-1%float.
Definition double_0_70 : float := 0x1.6666666666666p-1%float.
Definition double_0_91 : float := 0x1.d1eb851eb851fp-1%float.
Definition three_quarters : float := 0x1.8p-1%float.

#[export] Instance platform : Platform := {|
  Embeddings := RawImage;
  PredMasks := list float;
  PixelValues := RawImage;
  Blob := list N;
  sam_model := fun _ _ pts _ =>
    (tensor_data pts, [score_0_70; score_0_91; score_0_91]);
  post_process_masks := fun _ pts _ _ => masks (in_left_half pts);
  RawImage_fromURL := fun _ => image;
  processor_call := fun _ img =>
    mkProcessed img [(1, 2)%float] [(512, 1024)%float];
  get_image_embeddings := fun _ ip => pixel_values ip;
  convertToBlob := fun px _ _ => px;
  createObjectURL := fun _ => "blob:frame"%string;
  toFixed2 := fun x => if (x <? three_quarters)%float then "0.70"%string else "0.91"%string
|}.

Definition box : DOMRect := mkDOMRect 0 0 100 100.
Definition at_centre (b : Z) : MouseEvt := mkMouseEvt 50 50 b box.
Definition at_corner (b : Z) : MouseEvt := mkMouseEvt 10 10 b box.
Definition outside (b : Z) : MouseEvt := mkMouseEvt 250 (-30) b box.

(** The page with the example image loaded and its embedding ready. *)
Definition loaded : State :=
  run (initial (mkCanvas 2 1 (blank 2 1)))
      [ExampleClick; Settle 0 Fulfilled; Settle 0 Fulfilled;
       Settle 0 Fulfilled].

(** The same page while the decode of a hover point is in flight. *)
Definition hovering : State := step loaded (MouseMove (at_centre 0)).

(** The model call that hover started. *)
Definition hover_request : Task :=
  AwaitModel slimsam (Some image)
    (mkTensor [512; 256]%float [1; 1; 1; 2]) (mkTensor [1%Z] [1; 1; 1]).

(** The same page after a click whose decode has completed. *)
Definition clicked : State :=
  run loaded [MouseDown (at_centre 0); Settle 0 Fulfilled;
              Settle 0 Fulfilled].

(** The session of the loaded example image. *)
Definition session : Session :=
  mkSession slimsam slimsam image
    (mkProcessed image [(1, 2)%float] [(512, 1024)%float])
    (512, 1024)%float.

(** A load overtaken by a reset: the first load's embedding arrives
    after the reset, and the load started after the reset fails. *)
Definition overtaken_load : list Event :=
  [ExampleClick; Settle 0 Fulfilled; ResetClick; ExampleClick;
   Settle 0 Fulfilled; Settle 1 Fulfilled;
   Settle 0 (Rejected (ExternalError "fetch failed"))].

(** A container collapsed to no size, the cursor on its corner. *)
Definition collapsed : MouseEvt :=
  mkMouseEvt 0 0 0 (mkDOMRect 0 0 0 0).

End Demo.

(** ** What the page keeps true from one event to the next *)

Section PageModel.

Context {P : Platform}.

(** index.js:292  the buttons the click handler goes on with. *)
Definition accepted_button (e : MouseEvt) : bool :=
  negb (negb (button e =? 0)%Z && negb (button e =? 2)%Z).

(** The events that end a point session: clearing, resetting, a frame
    load, a change of model. *)
Definition ends_session (ev : Event) : bool :=
  match ev with
  | ClearClick | ResetClick | LoadFromAviUtl2Click | ModelSelectChange _ =>
      true
  | _ => false
  end.

(** The point an event adds to the list of a multi-point session. *)
Definition click_of (ev : Event) : list Point :=
  match ev with
  | MouseDown e => if accepted_button e then [getPoint e] else []
  | _ => []
  end.

Definition clicks_of (evs : list Event) : list Point :=
  concat (click_of <$> evs).

(** The icons over the image are the points of the multi-point session;
    outside a session there are none. *)
Definition icons_mirror_points (s : State) : Prop :=
  if isMultiMaskMode s then lastPoints s = Some (icons s) else icons s = [].

(** A label [getPoint] can produce. *)
Definition label_ok (l : Z) : bool := (l =? 0)%Z || (l =? 1)%Z.

(** The point store, when it holds a list, holds at least one point, and
    every label is 0 or 1. *)
Definition point_list_ok (s : State) : Prop :=
  match lastPoints s with
  | Some lp => lp <> [] /\ Forall (fun p => label_ok (label p) = true) lp
  | None => True
  end.

(** What an inference call in flight was given: an embedding, and for some
    n > 0 a [1,1,n,2] tensor of 2n coordinates and a [1,1,n] tensor of n
    labels, each 0 or 1. *)
Definition inference_call_ok (t : Task) : bool :=
  match t with
  | AwaitModel _ emb pts lbls =>
      let n := length (tensor_data lbls) in
      negb (is_null emb)
      && (0 <? n)
      && (length (tensor_data pts) =? 2 * n)
      && bool_decide (dims pts = [1; 1; n; 2])
      && bool_decide (dims lbls = [1; 1; n])
      && forallb label_ok (tensor_data lbls)
  | _ => true
  end.

(** A rerun is owed only while an embedding is held; the point store and
    the inference calls in flight are well formed. *)
Definition decode_ready (s : State) : Prop :=
  (decodePending s = true -> is_null (imageEmbeddings s) = false)
  /\ point_list_ok s
  /\ Forall (fun t => inference_call_ok t = true) (pending s).

(** What the cut handler has emitted is a sequence of exports: each a
    download of image.png followed by a POST of the same blob to the mask
    endpoint. *)
Fixpoint exports_paired (l : list Output) : Prop :=
  match l with
  | [] => True
  | Download f b :: HttpPost u t b' :: l' =>
      f = "image.png"%string /\ u = AVIUTL2_MASK_URL
      /\ t = "image/png"%string /\ b' = b /\ exports_paired l'
  | _ => False
  end.

(** The bitmap holds four bytes for every pixel of the canvas. *)
Definition canvas_well_formed (c : Canvas) : Prop :=
  length (pixels c) = 4 * canvas_width c * canvas_height c.

(** An await of [loadFromAviUtl2]: its own two, and those of the [encode]
    call it awaits. *)
Definition is_frame_load_task (t : Task) : bool :=
  match t with
  | AwaitFrameFetch | AwaitFrameBlob _ => true
  | AwaitFromURL _ FromAviUtl2
  | AwaitProcessor _ _ FromAviUtl2
  | AwaitEmbeddings _ _ FromAviUtl2 => true
  | _ => false
  end.

Definition frame_loads_in_flight (s : State) : nat :=
  length (List.filter is_frame_load_task (pending s)).

(** The load button is disabled exactly while one frame load is in
    flight. *)
Definition frame_load_guarded (s : State) : Prop :=
  frame_loads_in_flight s
  = if loadFromAviUtl2Button_disabled s then 1 else 0.


(** The state the [catch] and [finally] blocks of [loadFromAviUtl2] leave
    (lines 248-253). *)
Definition frame_load_failed (s : State) : State :=
  set_loadFromAviUtl2Button_disabled false
    (set_statusLabel "Failed to load frame from AviUtl2" s).


(** The awaits of a whole frame load, each fulfilled: the fetch with the
    response [r], then the blob and the three of [encode]. *)
Definition frame_load_events (n : nat) (r : Response) : list Event :=
  [LoadFromAviUtl2Click; Settle n (FulfilledWith r); Settle n Fulfilled;
   Settle n Fulfilled; Settle n Fulfilled; Settle n Fulfilled].

End PageModel.

(** ** A decode in flight when the user clears or resets *)

Section Overtaken.

Context {P : Platform}.

(** The await a decode in flight is suspended at. *)
Inductive DecodeStage := AtModel | AtPostProcess.

Definition stage_task (σ : Session) (lp : list Point) (st : DecodeStage)
    : Task :=
  match st with
  | AtModel => model_task σ lp
  | AtPostProcess => post_task σ lp
  end.

(** The settlements that let a decode suspended at [st] run to its end. *)
Definition drain (st : DecodeStage) : list Event :=
  match st with
  | AtModel => [Settle 0 Fulfilled; Settle 0 Fulfilled]
  | AtPostProcess => [Settle 0 Fulfilled]
  end.

(** The status line a completed decode of [lp] writes (line 143). *)
Definition score_line (σ : Session) (lp : list Point) : string :=
  ("Segment score: "
   ++ toFixed2 (score_at (decoded_scores σ lp)
                  (bestIndex (decoded_scores σ lp))))%string.

End Overtaken.

(** ** The model loader and its caches, index.js:27-34 and 53-76

    [loadCurrentModelIfNeeded] with the two caches of load promises. A
    promise is named by the position, in the log of calls, of the
    [from_pretrained] call that returned it. *)

Module ModelLoader.

(** index.js:27-31 *)
Definition MODEL_IDS (key : ModelKey) : string :=
  match key with
  | slimsam => "Xenova/slimsam-77-uniform"
  | sam_vit_base => "Xenova/sam-vit-base"
  | sam_vit_large => "Xenova/sam-vit-large"
  end.

Definition ModelKey_eqb (a b : ModelKey) : bool :=
  match a, b with
  | slimsam, slimsam
  | sam_vit_base, sam_vit_base
  | sam_vit_large, sam_vit_large => true
  | _, _ => false
  end.

Inductive Loader := SamModel | AutoProcessor.

(** A call [loader.from_pretrained(model_id, options)]; [options] is the
    pair of [dtype] and [device] when the call passes them. *)
Record Call := mkCall {
  loader : Loader;
  pretrained : string;
  options : option (string * string)
}.

Definition Promise := nat.

(** A cache object: what [cache[key]] reads, [undefined] as [None]. *)
Definition Cache := ModelKey -> option Promise.

Definition cache_set (key : ModelKey) (p : Promise) (c : Cache) : Cache :=
  fun k => if ModelKey_eqb k key then Some p else c k.

Record Loading := mkLoading {
  modelCache : Cache;
  processorCache : Cache;
  currentModelKey : ModelKey;
  model_id : string;
  calls : list Call
}.

(** index.js:33-48 *)
Definition start : Loading :=
  mkLoading (fun _ => None) (fun _ => None) slimsam (MODEL_IDS slimsam) [].

(** index.js:53-75, up to the [await]: the state it leaves, and the two
    promises [Promise.all] is given. [key] is the selector's value. *)
Definition loadCurrentModelIfNeeded (key : ModelKey) (l : Loading)
    : Loading * (option Promise * option Promise) :=
  let id := MODEL_IDS key in
  let l' :=
    if is_null (modelCache l key)
    then
      mkLoading
        (cache_set key (length (calls l)) (modelCache l))
        (cache_set key (S (length (calls l))) (processorCache l))
        key id
        (calls l ++ [mkCall SamModel id (Some ("fp16", "webgpu")%string);
                     mkCall AutoProcessor id None])
    else mkLoading (modelCache l) (processorCache l) key id (calls l) in
  (l', (modelCache l' key, processorCache l' key)).

(** The selector changed to each key of [keys] in turn. *)
Definition selections (keys : list ModelKey) (l : Loading) : Loading :=
  foldl (fun l key => fst (loadCurrentModelIfNeeded key l)) l keys.

(** The calls of [loader.from_pretrained] made for [key]. *)
Definition calls_for (ld : Loader) (key : ModelKey) (l : Loading)
    : list Call :=
  List.filter
    (fun c =>
       match loader c, ld with
       | SamModel, SamModel | AutoProcessor, AutoProcessor =>
           String.eqb (pretrained c) (MODEL_IDS key)
       | _, _ => false
       end)
    (calls l).

Definition selected (key : ModelKey) (keys : list ModelKey) : bool :=
  existsb (ModelKey_eqb key) keys.

(** The caches and the log once the keys of [done] have been selected:
    a key is cached exactly when it was selected, and then each loader was
    called once for it. *)
Definition caches_track (l : Loading) (done : list ModelKey) : Prop :=
  forall key,
    is_null (modelCache l key) = negb (selected key done)
    /\ forall ld,
         length (calls_for ld key l) = if selected key done then 1 else 0.

End ModelLoader.

(** ** Scenes on the small instance, for concrete runs *)

Module Scenes.

Import Demo.

(** The page at load, over a canvas of two pixels. *)
Definition page : State := initial (mkCanvas 2 1 (blank 2 1)).


(** The embedding of the example image is being computed. *)
Definition embedding : State :=
  run page [ExampleClick; Settle 0 Fulfilled; Settle 0 Fulfilled].

(** A second hover while the decode of the first is in flight: a rerun is
    owed. *)
Definition owing : State := step Demo.hovering (MouseMove (at_corner 0)).

(** A frame the plugin serves. *)
Definition frame : Response := mkResponse true 200 "OK" [1; 2; 3]%N.

(** A hover, a left click, a click of the middle button, a settling await
    and a right click. *)
Definition clicks : list Event :=
  [MouseMove (at_corner 0); MouseDown (at_centre 0); MouseDown (at_corner 1);
   Settle 0 Fulfilled; MouseDown (outside 2)].

(** The page after a reset that the embedding of the image it dropped has
    overtaken, and a click on it. *)
Definition stale : State :=
  run embedding [ResetClick; Settle 0 Fulfilled; MouseDown (at_centre 0)].

End Scenes.

(** ** The image on the page *)

Section ImageShown.

Context {P : Platform}.

(** The page shows an image, as the container's background and with the
    upload button hidden, exactly when [imageInput] holds one. *)
Definition image_shown_iff_held (s : State) : Prop :=
  is_null (backgroundImage s) = is_null (imageInput s)
  /\ uploadButton_display s
     = if is_null (imageInput s) then display_flex else display_none.

End ImageShown.

(** ** How far a decode in flight is from its end *)

Section DecodeProgress.

Context {P : Platform}.

(** The settlements the decode pipeline still awaits: two for a decode
    suspended at the model call, one for a decode suspended at
    post-processing, and two more when a rerun is owed. *)
Definition decode_steps_left (s : State) : nat :=
  match pending s with
  | [AwaitModel _ _ _ _] => 2 + (if decodePending s then 2 else 0)
  | [AwaitPostProcess _ _ _ _ _] => 1 + (if decodePending s then 2 else 0)
  | _ => 0
  end.

End DecodeProgress.

(** ** The busy flags and what they guard *)

Section BusyFlags.

Context {P : Platform}.

(** The handlers that call [resetImageState] whatever the page is doing:
    the reset button (lines 197-199) and the model selector (lines
    280-282). [loadFromAviUtl2] calls it only when neither flag is set. *)
Definition unguarded_reset (ev : Event) : bool :=
  match ev with
  | ResetClick | ModelSelectChange _ => true
  | _ => false
  end.



(** [isDecoding] is set and no await of the pipeline is in flight that
    could clear it. *)
Definition decode_locked (s : State) : Prop :=
  isDecoding s = true /\ decodes_in_flight s = 0.

(** The awaits of [encode] in flight. *)
Definition encodes_in_flight (s : State) : nat :=
  length (List.filter is_encode_task (pending s)).

(** At most one await of [encode] is in flight, and none unless
    [isEncoding] is set. *)
Definition encode_single_flight (s : State) : Prop :=
  encodes_in_flight s <= (if isEncoding s then 1 else 0).

(** Whether [ev] fulfils the last await of an [encode] call: line 216,
    the one assignment of an embedding. *)
Definition completes_embedding (s : State) (ev : Event) : bool :=
  match ev with
  | Settle n Fulfilled =>
      match pending s !! n with
      | Some (AwaitEmbeddings _ _ _) => true
      | _ => false
      end
  | _ => false
  end.

(** No event of [evs], run from [s], fulfils the last await of an
    [encode] call. *)
Fixpoint no_embedding_arrives (s : State) (evs : list Event) : bool :=
  match evs with
  | [] => true
  | ev :: evs' =>
      negb (completes_embedding s ev) && no_embedding_arrives (step s ev) evs'
  end.

(** No embedding is held when an event of [evs], run from [s], arrives. *)
Fixpoint without_embedding (s : State) (evs : list Event) : bool :=
  match evs with
  | [] => true
  | ev :: evs' =>
      is_null (imageEmbeddings s) && without_embedding (step s ev) evs'
  end.

(** The page holds no point session and a blank overlay, and no decode is
    in flight that could paint it. *)
Definition quiet (s : State) : Prop :=
  lastPoints s = None
  /\ isMultiMaskMode s = false
  /\ icons s = []
  /\ cutButton_disabled s = true
  /\ pixels (maskCanvas s) =
       blank (canvas_width (maskCanvas s)) (canvas_height (maskCanvas s))
  /\ decodes_in_flight s = 0.





End BusyFlags.

(** ** Interleavings on the small instance *)

Module Races.

Import Demo.

(** The page at load, over a canvas of two pixels. *)
Definition page : State := initial (mkCanvas 2 1 (blank 2 1)).






(** A reset while a decode awaits its post-processing. *)
Definition reset_at_post : State :=
  run Demo.loaded [MouseMove (at_centre 0); Settle 0 Fulfilled; ResetClick].

(** The example image loaded from there; the decode completes first. *)
Definition repainted : State :=
  run reset_at_post
    [ExampleClick; Settle 0 Fulfilled; Settle 0 Fulfilled;
     Settle 0 Fulfilled; Settle 0 Fulfilled].

(** A reset that the embedding of the load it interrupted overtakes, and
    a click on the page it leaves. *)
Definition stale_session : State :=
  run page
    [ExampleClick; Settle 0 Fulfilled; Settle 0 Fulfilled; ResetClick;
     Settle 0 Fulfilled; MouseDown (at_centre 0)].

(** The example image loaded from there. *)
Definition session_kept : State :=
  run stale_session
    [ExampleClick; Settle 0 Fulfilled; Settle 0 Fulfilled;
     Settle 0 Fulfilled].

(** A load during which the pointer moves and clicks. *)
Definition load_with_pointer : list Event :=
  [ExampleClick; MouseMove (at_centre 0); ClearClick; Settle 0 Fulfilled;
   Settle 0 Fulfilled; MouseDown (at_corner 0); Settle 0 Fulfilled].

(** Two loads that fail, the second through the frame load. *)
Definition failing_loads : list Event :=
  [ExampleClick; Settle 0 (Rejected (ExternalError "fetch failed"));
   MouseMove (at_centre 0); ResetClick; LoadFromAviUtl2Click;
   Settle 0 (Rejected (ExternalError "connection refused"));
   MouseDown (at_centre 0)].

(** The page once the inference call of a hover's decode has failed. *)
Definition failed : State :=
  step Demo.hovering
    (Settle 0 (Rejected (ExternalError "inference failed"))).

(** What may follow a failed inference call. *)
Definition after_failure : list Event :=
  [MouseMove (at_corner 0); ClearClick; LoadFromAviUtl2Click;
   MouseDown (at_centre 0); CutClick; Settle 0 Fulfilled;
   MouseDown (at_corner 2)].

(** Scores whose first entry is NaN, and scores with a NaN further on. *)
Definition nan_first : list float := [nan; double_0_70; double_0_91].
Definition nan_inside : list float :=
  [double_0_70; nan; double_0_91; double_0_91].

End Races.
(** ** Order facts of IEEE comparison, through the specification floats *)

Section SpecCompare.

Lemma SFcompare_antisym (a b : spec_float) :
  SFcompare b a = CompOpp <$> SFcompare a b.
Proof.
  destruct a as [sa| sa| |sa ma ea], b as [sb| sb| |sb mb eb]; simpl;
    try reflexivity;
    try (destruct sa; reflexivity); try (destruct sb; reflexivity);
    try (destruct sa, sb; reflexivity).
  destruct sa, sb; simpl; try reflexivity;
    rewrite (Z.compare_antisym ea eb);
    destruct (ea ?= eb)%Z; simpl; try reflexivity;
    rewrite !Pos.compare_cont_spec; simpl;
    rewrite (Pos.compare_antisym ma mb);
    destruct (ma ?= mb)%positive; reflexivity.
Qed.

Lemma SFcompare_none (a b : spec_float) :
  SFcompare a b = None <-> a = S754_nan \/ b = S754_nan.
Proof.
  destruct a as [sa| sa| |sa ma ea], b as [sb| sb| |sb mb eb]; simpl;
    split; intros H; try discriminate; try tauto;
    try (destruct H; discriminate).
Qed.

Lemma SFcompare_refl (a : spec_float) :
  a <> S754_nan -> SFcompare a a = Some Eq.
Proof.
  destruct a as [sa| sa| |sa ma ea]; simpl; intros H; try congruence.
  - destruct sa; reflexivity.
  - rewrite Z.compare_refl, Pos.compare_cont_spec, Pos.compare_refl.
    destruct sa; reflexivity.
Qed.


Lemma is_Lt_true (c : comparison) :
  match c with Lt => true | _ => false end = true <-> c = Lt.
Proof. destruct c; split; congruence. Qed.

Lemma lex_Lt (e1 e2 : Z) (m1 m2 : positive) :
  match (e1 ?= e2)%Z with
  | Eq => Pos.compare_cont Eq m1 m2 | Lt => Lt | Gt => Gt end = Lt
  <-> (e1 < e2)%Z \/ (e1 = e2 /\ (m1 < m2)%positive).
Proof.
  change (Pos.compare_cont Eq m1 m2) with (m1 ?= m2)%positive.
  destruct (Z.compare_spec e1 e2) as [->|H|H].
  - unfold Pos.lt.
    split; [intros; right; split; [reflexivity|assumption]
           | intros [H|[_ H]]; [lia|assumption]].
  - intuition lia.
  - split; [discriminate | lia].
Qed.

Lemma lex_opp_Lt (e1 e2 : Z) (m1 m2 : positive) :
  match (e1 ?= e2)%Z with
  | Eq => CompOpp (Pos.compare_cont Eq m1 m2) | Lt => Gt | Gt => Lt end = Lt
  <-> (e2 < e1)%Z \/ (e1 = e2 /\ (m2 < m1)%positive).
Proof.
  change (Pos.compare_cont Eq m1 m2) with (m1 ?= m2)%positive.
  destruct (Z.compare_spec e1 e2) as [->|H|H].
  - rewrite <- Pos.compare_antisym. unfold Pos.lt.
    split; [intros; right; split; [reflexivity|assumption]
           | intros [H|[_ H]]; [lia|assumption]].
  - split; [discriminate | lia].
  - intuition lia.
Qed.

(** [<] on specification floats is transitive: on finite values of one
    sign it is the lexicographic order on (exponent, mantissa). *)
Lemma SFltb_trans (a b c : spec_float) :
  SFltb a b = true -> SFltb b c = true -> SFltb a c = true.
Proof.
  unfold SFltb.
  destruct a as [sa| sa| |sa ma ea], b as [sb| sb| |sb mb eb],
           c as [sc| sc| |sc mc ec]; simpl;
    try discriminate; try reflexivity;
    try (destruct sa; simpl; try discriminate; try reflexivity);
    try (destruct sb; simpl; try discriminate; try reflexivity);
    try (destruct sc; simpl; try discriminate; try reflexivity).
  all: rewrite !is_Lt_true, ?lex_Lt, ?lex_opp_Lt; lia.
Qed.


Lemma is_Le_true (c : comparison) :
  match c with Lt | Eq => true | Gt => false end = true <-> c = Lt \/ c = Eq.
Proof. destruct c; split; try tauto; try congruence; intros [?|?]; congruence. Qed.

Lemma lex_Eq (e1 e2 : Z) (m1 m2 : positive) :
  match (e1 ?= e2)%Z with
  | Eq => Pos.compare_cont Eq m1 m2 | Lt => Lt | Gt => Gt end = Eq
  <-> e1 = e2 /\ m1 = m2.
Proof.
  change (Pos.compare_cont Eq m1 m2) with (m1 ?= m2)%positive.
  destruct (Z.compare_spec e1 e2) as [->|H|H].
  - rewrite Pos.compare_eq_iff. tauto.
  - split; [discriminate | lia].
  - split; [discriminate | lia].
Qed.

Lemma lex_opp_Eq (e1 e2 : Z) (m1 m2 : positive) :
  match (e1 ?= e2)%Z with
  | Eq => CompOpp (Pos.compare_cont Eq m1 m2) | Lt => Gt | Gt => Lt end = Eq
  <-> e1 = e2 /\ m1 = m2.
Proof.
  change (Pos.compare_cont Eq m1 m2) with (m1 ?= m2)%positive.
  destruct (Z.compare_spec e1 e2) as [->|H|H].
  - rewrite <- Pos.compare_antisym, Pos.compare_eq_iff. intuition congruence.
  - split; [discriminate | lia].
  - split; [discriminate | lia].
Qed.

Lemma SFltb_leb_trans (a b c : spec_float) :
  SFltb a b = true -> SFleb b c = true -> SFltb a c = true.
Proof.
  unfold SFleb, SFltb.
  destruct a as [sa| sa| |sa ma ea], b as [sb| sb| |sb mb eb],
           c as [sc| sc| |sc mc ec]; simpl;
    try discriminate; try reflexivity;
    try (destruct sa; simpl; try discriminate; try reflexivity);
    try (destruct sb; simpl; try discriminate; try reflexivity);
    try (destruct sc; simpl; try discriminate; try reflexivity).
  all: intros H1 H2; try apply is_Lt_true in H1; try apply is_Le_true in H2;
    try apply is_Lt_true;
    rewrite ?lex_Lt, ?lex_opp_Lt, ?lex_Eq, ?lex_opp_Eq in *; lia.
Qed.

End SpecCompare.

Section FloatOrder.

Lemma is_nan_spec (x : float) :
  is_nan x = false <-> Prim2SF x <> S754_nan.
Proof.
  unfold is_nan. rewrite FloatAxioms.eqb_spec. unfold SFeqb.
  destruct (Prim2SF x) as [s|s| |s m e] eqn:E; simpl.
  - split; [discriminate | reflexivity].
  - destruct s; (split; [discriminate | reflexivity]).
  - split; [discriminate | congruence].
  - rewrite Z.compare_refl, Pos.compare_cont_spec, Pos.compare_refl.
    destruct s; (split; [discriminate | reflexivity]).
Qed.

Lemma ltb_trans (a b c : float) :
  (a <? b)%float = true -> (b <? c)%float = true -> (a <? c)%float = true.
Proof. rewrite !FloatAxioms.ltb_spec. apply SFltb_trans. Qed.

Lemma ltb_leb_trans (a b c : float) :
  (a <? b)%float = true -> (b <=? c)%float = true -> (a <? c)%float = true.
Proof.
  rewrite FloatAxioms.leb_spec, !FloatAxioms.ltb_spec. apply SFltb_leb_trans.
Qed.

Lemma ltb_irrefl (a : float) : (a <? a)%float = false.
Proof.
  rewrite FloatAxioms.ltb_spec. unfold SFltb.
  destruct (SFcompare (Prim2SF a) (Prim2SF a)) as [c|] eqn:E; [|reflexivity].
  assert (Prim2SF a <> S754_nan) as Ha.
  { intros H. rewrite H in E. discriminate. }
  rewrite (SFcompare_refl _ Ha) in E. injection E as <-. reflexivity.
Qed.

Lemma ltb_nan_r (a : float) : (a <? nan)%float = false.
Proof.
  rewrite FloatAxioms.ltb_spec. change (Prim2SF nan) with S754_nan.
  unfold SFltb. destruct (Prim2SF a); reflexivity.
Qed.

(** On numbers (no NaN) the order is total: not below means at least. *)
Lemma not_ltb_leb (a b : float) :
  is_nan a = false -> is_nan b = false ->
  (a <? b)%float = false -> (b <=? a)%float = true.
Proof.
  rewrite !is_nan_spec, FloatAxioms.ltb_spec, FloatAxioms.leb_spec. unfold SFltb, SFleb.
  intros Ha Hb. rewrite (SFcompare_antisym (Prim2SF a) (Prim2SF b)).
  destruct (SFcompare (Prim2SF a) (Prim2SF b)) as [[]|] eqn:E; simpl;
    try discriminate; try reflexivity.
  apply SFcompare_none in E. tauto.
Qed.

End FloatOrder.

(** ** [clamp] *)

Section Clamp.

Lemma Math_min_nan_l (a b : float) : is_nan a = true -> Math_min a b = nan.
Proof. intros H. unfold Math_min. rewrite H. reflexivity. Qed.

Lemma clamp_nan (x : float) : is_nan x = true -> is_nan (clamp x 0 1) = true.
Proof.
  intros H. unfold clamp. rewrite (Math_min_nan_l _ _ H). reflexivity.
Qed.

Lemma clamp_number (x : float) :
  is_nan x = false -> in_unit (clamp x 0 1) = true.
Proof.
  intros Hx. unfold clamp, Math_min. rewrite Hx.
  change (is_nan 1) with false. change (is_neg_zero 1) with false.
  cbn [orb andb].
  set (m := if (1 <? x)%float then 1%float else x).
  assert (is_nan m = false) as Hm.
  { subst m. destruct (1 <? x)%float; [reflexivity | exact Hx]. }
  assert ((m <=? 1)%float = true) as Hm1.
  { subst m. destruct (1 <? x)%float eqn:E; [reflexivity|].
    apply not_ltb_leb; [reflexivity | exact Hx | exact E]. }
  unfold Math_max. rewrite Hm. change (is_nan 0) with false. cbn [orb].
  destruct (is_pos_zero 0 && is_neg_zero m || (m <? 0)%float) eqn:E.
  - reflexivity.
  - apply orb_false_iff in E as [_ E]. unfold in_unit.
    rewrite Hm1, (not_ltb_leb m 0 Hm eq_refl E). reflexivity.
Qed.

End Clamp.

(** ** When subtraction and division yield a number

    The rounding of the specification floats returns NaN only on a negative
    mantissa, which the operations never pass to it. *)

Section FloatArith.

Lemma shr_1_nonneg (mrs : shr_record) :
  (0 <= shr_m mrs)%Z -> (0 <= shr_m (shr_1 mrs))%Z.
Proof.
  destruct mrs as [m r s]. simpl. intros H.
  destruct m as [|[p|p|]|p]; simpl; lia.
Qed.

Lemma iter_shr_1_nonneg (p : positive) (mrs : shr_record) :
  (0 <= shr_m mrs)%Z -> (0 <= shr_m (SpecFloat.iter_pos shr_1 p mrs))%Z.
Proof.
  revert mrs. induction p as [p IH|p IH|]; intros mrs H; simpl.
  - apply IH, IH, shr_1_nonneg, H.
  - apply IH, IH, H.
  - apply shr_1_nonneg, H.
Qed.

Lemma shr_fexp_nonneg (prec emax m e : Z) (l : location) :
  (0 <= m)%Z -> (0 <= shr_m (fst (shr_fexp prec emax m e l)))%Z.
Proof.
  intros H. unfold shr_fexp, shr.
  assert (0 <= shr_m (shr_record_of_loc m l))%Z as H0.
  { destruct l as [|[]]; exact H. }
  destruct (_ - e)%Z; simpl; auto using iter_shr_1_nonneg.
Qed.

Lemma round_nearest_even_nonneg (m : Z) (l : location) :
  (0 <= m)%Z -> (0 <= round_nearest_even m l)%Z.
Proof.
  intros H. destruct l as [|[]]; simpl; try lia.
  destruct (Z.even m); lia.
Qed.

Lemma binary_round_aux_number (prec emax : Z) (sx : bool) (mx ex : Z)
    (lx : location) :
  (0 <= mx)%Z -> binary_round_aux prec emax sx mx ex lx <> S754_nan.
Proof.
  intros H. unfold binary_round_aux.
  pose proof (shr_fexp_nonneg prec emax mx ex lx H) as H1.
  destruct (shr_fexp prec emax mx ex lx) as [mrs' e']. simpl in H1.
  pose proof (shr_fexp_nonneg prec emax _ e' loc_Exact
                (round_nearest_even_nonneg _ (loc_of_shr_record mrs') H1))
    as H2.
  destruct (shr_fexp prec emax _ e' loc_Exact) as [mrs'' e'']. simpl in H2.
  destruct (shr_m mrs''); try discriminate; [|lia].
  destruct (_ <=? _)%Z; discriminate.
Qed.

Lemma binary_normalize_number (prec emax m e : Z) (szero : bool) :
  binary_normalize prec emax m e szero <> S754_nan.
Proof.
  unfold binary_normalize, binary_round.
  destruct m; try discriminate;
    destruct (shl_align _ _ _); apply binary_round_aux_number; lia.
Qed.

Lemma SFsub_number (prec emax : Z) (x y : spec_float) :
  SFfinite x -> SFfinite y -> SFsub prec emax x y <> S754_nan.
Proof.
  destruct x as [sx|sx| |sx mx ex], y as [sy|sy| |sy my ey];
    simpl; try tauto; intros _ _; try discriminate.
  - destruct sx, sy; discriminate.
  - apply binary_normalize_number.
Qed.

Lemma SFdiv_number (prec emax : Z) (x y : spec_float) (s : bool)
    (m : positive) (e : Z) :
  x <> S754_nan -> y = S754_finite s m e ->
  SFdiv prec emax x y <> S754_nan.
Proof.
  intros Hx ->. destruct x as [sx|sx| |sx mx ex]; simpl; try discriminate;
    [congruence|].
  unfold SFdiv_core_binary.
  set (m' := match _ with Z0 => _ | Zpos _ => _ | Zneg _ => _ end).
  assert (0 <= m')%Z as Hm'.
  { subst m'. destruct (_ - _)%Z; try lia. apply Z.shiftl_nonneg. lia. }
  pose proof (Z_div_mod m' (Z.pos m) ltac:(lia)) as Hdiv.
  destruct (Z.div_eucl m' (Z.pos m)) as [q r].
  apply binary_round_aux_number. nia.
Qed.

Lemma is_finite_spec (x : float) :
  is_finite x = true -> SFfinite (Prim2SF x).
Proof.
  unfold is_finite, is_infinity. intros H.
  apply negb_true_iff, orb_false_iff in H as [Hn Hi].
  apply is_nan_spec in Hn.
  rewrite FloatAxioms.eqb_spec, abs_spec in Hi.
  change (Prim2SF infinity) with (S754_infinity false) in Hi.
  destruct (Prim2SF x) as [s|s| |s m e]; simpl in *; try tauto;
    try congruence.
  discriminate Hi.
Qed.

Lemma not_zero_finite_spec (x : float) :
  is_finite x = true -> is_zero x = false ->
  exists s m e, Prim2SF x = S754_finite s m e.
Proof.
  intros Hf Hz. apply is_finite_spec in Hf.
  unfold is_zero in Hz. rewrite FloatAxioms.eqb_spec in Hz.
  change (Prim2SF zero) with (S754_zero false) in Hz.
  destruct (Prim2SF x) as [s|s| |s m e]; simpl in *; try tauto;
    try discriminate.
  eauto.
Qed.

(** The quotient [getPoint] clamps is a number whenever the coordinates
    are finite and the box has a finite, non-zero extent. *)
Lemma quotient_number (a b w : float) :
  is_finite a = true -> is_finite b = true ->
  is_finite w = true -> is_zero w = false ->
  is_nan ((a - b) / w) = false.
Proof.
  intros Ha Hb Hw Hz. apply is_nan_spec.
  destruct (not_zero_finite_spec w Hw Hz) as (s & m & e & Hws).
  rewrite div_spec, sub_spec.
  apply SFdiv_number with s m e; [|exact Hws].
  apply SFsub_number; apply is_finite_spec; assumption.
Qed.

End FloatArith.

(** ** The scan for the best score *)

Section BestIndex.

Variable scores : list float.

Lemma scanned_start : scanned scores 0 1.
Proof.
  split; [lia|]. split; [|intros j Hj; lia].
  intros j Hj. assert (j = 0) as -> by lia. apply ltb_irrefl.
Qed.

Lemma scanned_step (best i : nat) :
  scanned scores best i -> scanned scores (bestIndex_step scores best i) (S i).
Proof.
  intros (Hlt & Hmax & Hfirst). unfold bestIndex_step.
  destruct (gt (score_at scores i) (score_at scores best)) eqn:Hi.
  - unfold gt in Hi. split; [lia|]. split.
    + intros j Hj. destruct (decide (j = i)) as [->|Hne].
      * apply ltb_irrefl.
      * destruct (gt (score_at scores j) (score_at scores i)) eqn:Hji;
          [|reflexivity].
        unfold gt in Hji.
        rewrite <- (Hmax j ltac:(lia)). unfold gt. symmetry.
        exact (ltb_trans _ _ _ Hi Hji).
    + intros j Hj.
      destruct (score_at scores i <=? score_at scores j)%float eqn:Hij;
        [|reflexivity].
      rewrite <- (Hmax j Hj). unfold gt. symmetry.
      exact (ltb_leb_trans _ _ _ Hi Hij).
  - split; [lia|]. split; [|exact Hfirst].
    intros j Hj. destruct (decide (j = i)) as [->|Hne]; [exact Hi|].
    apply Hmax. lia.
Qed.

Lemma scanned_loop (k best i : nat) :
  scanned scores best i ->
  scanned scores (foldl (bestIndex_step scores) best (seq i k)) (i + k).
Proof.
  revert best i. induction k as [|k IH]; intros best i H; simpl.
  - replace (i + 0) with i by lia. exact H.
  - replace (i + S k) with (S i + k) by lia.
    apply IH, scanned_step, H.
Qed.

Lemma bestIndex_scanned : scanned scores (bestIndex scores) (S (length scores - 1)).
Proof. exact (scanned_loop (length scores - 1) 0 1 scanned_start). Qed.

Lemma bestIndex_lt : scores <> [] -> bestIndex scores < length scores.
Proof.
  intros Hne. destruct bestIndex_scanned as (H & _).
  destruct scores; [congruence|]. simpl in *. lia.
Qed.

Lemma bestIndex_max (j : nat) :
  gt (score_at scores j) (score_at scores (bestIndex scores)) = false.
Proof.
  destruct bestIndex_scanned as (_ & H & _).
  destruct (decide (j < S (length scores - 1))) as [Hj|Hj]; [exact (H j Hj)|].
  unfold score_at at 1. rewrite lookup_ge_None_2 by lia.
  apply ltb_nan_r.
Qed.

Lemma bestIndex_first (j : nat) :
  j < bestIndex scores ->
  (score_at scores (bestIndex scores) <=? score_at scores j)%float = false.
Proof. destruct bestIndex_scanned as (_ & _ & H). exact (H j). Qed.

End BestIndex.

(** ** The overlay fill and the cut loop, byte by byte *)

Section Pixels.

Lemma fill_pixel_length numMasks best mask px i :
  length (fill_pixel numMasks best mask px i) = length px.
Proof.
  unfold fill_pixel.
  destruct (mask !! _) as [[|[| |]]|]; rewrite ?length_insert; reflexivity.
Qed.

Lemma fill_pixel_lookup numMasks best mask px i q :
  q < length px ->
  fill_pixel numMasks best mask px i !! q =
    if is_inside (label_at numMasks best mask i)
       && bool_decide (4 * i <= q < 4 * i + 4)
    then Some (highlight_byte (q - 4 * i))
    else px !! q.
Proof.
  intros Hq. unfold fill_pixel, label_at.
  destruct (mask !! _) as [[|[| |]]|]; cbn [is_inside andb];
    try reflexivity.
  case_bool_decide as Hr.
  - assert (q = 4 * i \/ q = 4 * i + 1 \/ q = 4 * i + 2 \/ q = 4 * i + 3)
      as [ -> | [ -> | [ -> | -> ] ] ] by lia.
    + rewrite !list_lookup_insert_ne by lia.
      rewrite list_lookup_insert_eq by lia.
      replace (4 * i - 4 * i) with 0 by lia. reflexivity.
    + rewrite !list_lookup_insert_ne by lia.
      rewrite list_lookup_insert_eq by (rewrite ?length_insert; lia).
      replace (4 * i + 1 - 4 * i) with 1 by lia. reflexivity.
    + rewrite !list_lookup_insert_ne by lia.
      rewrite list_lookup_insert_eq by (rewrite ?length_insert; lia).
      replace (4 * i + 2 - 4 * i) with 2 by lia. reflexivity.
    + rewrite list_lookup_insert_eq by (rewrite ?length_insert; lia).
      replace (4 * i + 3 - 4 * i) with 3 by lia. reflexivity.
  - rewrite !list_lookup_insert_ne by lia. reflexivity.
Qed.

(** The bitmap after the first [k] iterations of the fill loop. *)
Lemma fill_loop numMasks best mask px k :
  let out := foldl (fill_pixel numMasks best mask) px (seq 0 k) in
  length out = length px
  /\ forall q, q < length px ->
       out !! q =
         if is_inside (label_at numMasks best mask (q / 4))
            && bool_decide (q / 4 < k)
         then Some (highlight_byte (q mod 4))
         else px !! q.
Proof.
  cbv zeta. induction k as [|k [IHlen IH]].
  - split; [reflexivity|]. intros q _.
    rewrite (bool_decide_eq_false_2 (q / 4 < 0)) by lia.
    rewrite andb_false_r. reflexivity.
  - rewrite seq_S, foldl_app. cbn [foldl Nat.add]. split.
    + rewrite fill_pixel_length. exact IHlen.
    + intros q Hq. rewrite fill_pixel_lookup by lia. rewrite (IH q Hq).
      pose proof (Nat.div_mod_eq q 4) as Hdm.
      pose proof (Nat.mod_upper_bound q 4 ltac:(lia)) as Hm.
      destruct (decide (q / 4 = k)) as [ <- | Hne ].
      * rewrite (bool_decide_eq_true_2 (4 * (q / 4) <= q < 4 * (q / 4) + 4))
          by lia.
        rewrite (bool_decide_eq_true_2 (q / 4 < S (q / 4))) by lia.
        rewrite (bool_decide_eq_false_2 (q / 4 < q / 4)) by lia.
        rewrite !andb_true_r, andb_false_r.
        replace (q - 4 * (q / 4)) with (q mod 4) by lia.
        reflexivity.
      * rewrite (bool_decide_eq_false_2 (4 * k <= q < 4 * k + 4)) by lia.
        rewrite andb_false_r.
        rewrite (bool_decide_ext (q / 4 < S k) (q / 4 < k)) by lia.
        reflexivity.
Qed.

Lemma length_blank w h : length (blank w h) = 4 * w * h.
Proof. apply length_replicate. Qed.

Lemma lookup_blank w h q : q < 4 * w * h -> blank w h !! q = Some 0%N.
Proof. intros H. apply lookup_replicate_2, H. Qed.

(** Pixel [p] of the rendered overlay. *)
Lemma fill_mask_pixel numMasks best mask w h p :
  p < w * h ->
  rgba_at (fill_mask numMasks best mask (blank w h)) p =
    Some (if is_inside (label_at numMasks best mask p)
          then highlight else transparent).
Proof.
  intros Hp. unfold fill_mask, rgba_at. rewrite length_blank.
  destruct (fill_loop numMasks best mask (blank w h) (4 * w * h)) as [_ H].
  rewrite length_blank in H.
  rewrite !H by lia.
  replace ((4 * p) / 4) with p by (apply Nat.div_unique with 0; lia).
  replace ((4 * p + 1) / 4) with p by (apply Nat.div_unique with 1; lia).
  replace ((4 * p + 2) / 4) with p by (apply Nat.div_unique with 2; lia).
  replace ((4 * p + 3) / 4) with p by (apply Nat.div_unique with 3; lia).
  replace ((4 * p) mod 4) with 0 by (apply Nat.mod_unique with p; lia).
  replace ((4 * p + 1) mod 4) with 1 by (apply Nat.mod_unique with p; lia).
  replace ((4 * p + 2) mod 4) with 2 by (apply Nat.mod_unique with p; lia).
  replace ((4 * p + 3) mod 4) with 3 by (apply Nat.mod_unique with p; lia).
  rewrite (bool_decide_eq_true_2 (p < 4 * w * h)) by lia.
  rewrite andb_true_r, !lookup_blank by lia.
  destruct (is_inside _); reflexivity.
Qed.

Lemma fill_mask_length numMasks best mask px :
  length (fill_mask numMasks best mask px) = length px.
Proof. apply (fill_loop numMasks best mask px (length px)). Qed.

(** A mask with no pixel inside renders to the blank bitmap. *)
Lemma fill_mask_background numMasks best mask w h :
  (forall p, p < w * h -> is_inside (label_at numMasks best mask p) = false) ->
  fill_mask numMasks best mask (blank w h) = blank w h.
Proof.
  intros Hbg. apply list_eq. intros q.
  destruct (decide (q < 4 * w * h)) as [Hq|Hq].
  - unfold fill_mask. rewrite length_blank.
    destruct (fill_loop numMasks best mask (blank w h) (4 * w * h)) as [_ H].
    rewrite H by (rewrite length_blank; lia).
    rewrite Hbg; [reflexivity|].
    pose proof (Nat.div_mod_eq q 4). nia.
  - rewrite !lookup_ge_None_2;
      rewrite ?fill_mask_length, ?length_blank; try lia. reflexivity.
Qed.

End Pixels.

Section CutLoop.

Variable img : list N.

Lemma copy_pixel_length px i : length (copy_pixel img px i) = length px.
Proof.
  unfold copy_pixel, copy_channel.
  destruct (px !! _) as [a|]; [|reflexivity].
  destruct (0 <? a)%N; [|reflexivity].
  cbn [foldl seq]. rewrite !length_insert. reflexivity.
Qed.

Lemma copy_pixel_lookup px i q :
  q < length px ->
  copy_pixel img px i !! q =
    if opaque px i && bool_decide (4 * i <= q < 4 * i + 3)
    then Some (source_byte img i (q - 4 * i))
    else px !! q.
Proof.
  intros Hq. unfold copy_pixel, opaque, copy_channel, source_byte.
  destruct (px !! (4 * i + 3)) as [a|] eqn:Ha; [|reflexivity].
  destruct (0 <? a)%N; [|reflexivity].
  cbn [foldl seq andb].
  case_bool_decide as Hr.
  - assert (q = 4 * i \/ q = 4 * i + 1 \/ q = 4 * i + 2)
      as [ -> | [ -> | -> ] ] by lia.
    + replace (4 * i + 0) with (4 * i) by lia.
      rewrite !list_lookup_insert_ne by lia.
      rewrite list_lookup_insert_eq by lia.
      replace (4 * i - 4 * i) with 0 by lia. reflexivity.
    + rewrite !list_lookup_insert_ne by lia.
      rewrite list_lookup_insert_eq by (rewrite ?length_insert; lia).
      replace (4 * i + 1 - 4 * i) with 1 by lia. reflexivity.
    + rewrite list_lookup_insert_eq by (rewrite ?length_insert; lia).
      replace (4 * i + 2 - 4 * i) with 2 by lia. reflexivity.
  - rewrite !list_lookup_insert_ne by lia. reflexivity.
Qed.

(** The buffer after the first [k] iterations of the cut loop. *)
Lemma cut_loop px k :
  let out := foldl (copy_pixel img) px (seq 0 k) in
  length out = length px
  /\ forall q, q < length px ->
       out !! q =
         if opaque px (q / 4) && bool_decide (q / 4 < k)
            && bool_decide (q mod 4 < 3)
         then Some (source_byte img (q / 4) (q mod 4))
         else px !! q.
Proof.
  cbv zeta. induction k as [|k [IHlen IH]].
  - split; [reflexivity|]. intros q _.
    rewrite (bool_decide_eq_false_2 (q / 4 < 0)) by lia.
    rewrite andb_false_r. reflexivity.
  - rewrite seq_S, foldl_app. cbn [foldl Nat.add].
    set (out := foldl (copy_pixel img) px (seq 0 k)) in *.
    assert (opaque out k = opaque px k) as Hop.
    { unfold opaque. destruct (decide (4 * k + 3 < length px)) as [Hk|Hk].
      - rewrite (IH _ Hk).
        replace ((4 * k + 3) mod 4) with 3
          by (apply Nat.mod_unique with k; lia).
        rewrite (bool_decide_eq_false_2 (3 < 3)) by lia.
        rewrite andb_false_r. reflexivity.
      - rewrite !lookup_ge_None_2 by lia. reflexivity. }
    split.
    + rewrite copy_pixel_length. exact IHlen.
    + intros q Hq. rewrite copy_pixel_lookup by lia. rewrite Hop, (IH q Hq).
      pose proof (Nat.div_mod_eq q 4) as Hdm.
      pose proof (Nat.mod_upper_bound q 4 ltac:(lia)) as Hm.
      destruct (decide (q / 4 = k)) as [ <- | Hne ].
      * rewrite (bool_decide_eq_true_2 (q / 4 < S (q / 4))) by lia.
        rewrite (bool_decide_eq_false_2 (q / 4 < q / 4)) by lia.
        rewrite (bool_decide_ext (4 * (q / 4) <= q < 4 * (q / 4) + 3)
                   (q mod 4 < 3)) by lia.
        rewrite andb_true_r, andb_false_r, andb_false_l.
        replace (q - 4 * (q / 4)) with (q mod 4) by lia.
        reflexivity.
      * rewrite (bool_decide_eq_false_2 (4 * k <= q < 4 * k + 3)) by lia.
        rewrite andb_false_r.
        rewrite (bool_decide_ext (q / 4 < S k) (q / 4 < k)) by lia.
        reflexivity.
Qed.

(** Pixel [p] of the extracted buffer, from pixel [p] of the overlay. *)
Lemma cut_pixels_pixel px w h p r g b a :
  p < w * h ->
  rgba_at px p = Some (r, g, b, a) ->
  rgba_at (cut_pixels img px w h) p =
    Some (if (0 <? a)%N
          then (source_byte img p 0, source_byte img p 1, source_byte img p 2, a)
          else (r, g, b, a)).
Proof.
  intros Hp Hpx. unfold cut_pixels, rgba_at in *.
  destruct (px !! (4 * p)) as [r'|] eqn:Hr; [|discriminate].
  destruct (px !! (4 * p + 1)) as [g'|] eqn:Hg; [|discriminate].
  destruct (px !! (4 * p + 2)) as [b'|] eqn:Hb; [|discriminate].
  destruct (px !! (4 * p + 3)) as [a'|] eqn:Ha; [|discriminate].
  simpl in Hpx. injection Hpx as -> -> -> ->.
  pose proof (lookup_lt_Some _ _ _ Ha) as Hlen.
  destruct (cut_loop px (w * h)) as [_ H].
  rewrite !H by lia.
  replace ((4 * p) / 4) with p by (apply Nat.div_unique with 0; lia).
  replace ((4 * p + 1) / 4) with p by (apply Nat.div_unique with 1; lia).
  replace ((4 * p + 2) / 4) with p by (apply Nat.div_unique with 2; lia).
  replace ((4 * p + 3) / 4) with p by (apply Nat.div_unique with 3; lia).
  replace ((4 * p) mod 4) with 0 by (apply Nat.mod_unique with p; lia).
  replace ((4 * p + 1) mod 4) with 1 by (apply Nat.mod_unique with p; lia).
  replace ((4 * p + 2) mod 4) with 2 by (apply Nat.mod_unique with p; lia).
  replace ((4 * p + 3) mod 4) with 3 by (apply Nat.mod_unique with p; lia).
  rewrite (bool_decide_eq_true_2 (p < w * h)) by lia.
  rewrite (bool_decide_eq_true_2 (0 < 3)), (bool_decide_eq_true_2 (1 < 3)),
    (bool_decide_eq_true_2 (2 < 3)), (bool_decide_eq_false_2 (3 < 3)) by lia.
  rewrite !andb_true_r, andb_false_r.
  unfold opaque. rewrite Ha, Hr, Hg, Hb.
  destruct (0 <? a)%N; reflexivity.
Qed.

End CutLoop.

(** ** Tactics for running handlers symbolically *)

(** Unfolds the monad and evaluates the handler on what is known of the
    state. *)
Ltac js_eval :=
  repeat (unfold mbind, Js_bind, mret, Js_ret, gets, modify, deref, spawn,
            output, detach, when, throw in *;
          simpl).

(** Normalises a chain of field updates of an explicit state, innermost
    first. *)
Ltac unfold_setters :=
  cbv beta iota delta
    [set_isEncoding set_isDecoding set_decodePending set_lastPoints
     set_isMultiMaskMode set_imageInput set_imageProcessed set_imageEmbeddings
     set_currentModelKey set_model set_processor set_statusLabel
     set_cutButton_disabled set_loadFromAviUtl2Button_disabled set_uploadButton_display set_backgroundImage
     set_icons set_maskCanvas set_pending set_outputs
     isEncoding isDecoding decodePending lastPoints
     isMultiMaskMode imageInput imageProcessed imageEmbeddings
     currentModelKey model processor statusLabel
     cutButton_disabled loadFromAviUtl2Button_disabled uploadButton_display backgroundImage
     icons maskCanvas pending outputs].

(** Splits on the innermost scrutinee the goal still branches on. *)
Ltac case_split :=
  once (match goal with
        | |- context [match ?x with _ => _ end] =>
            lazymatch x with
            | context [match _ with _ => _ end] => fail
            | _ => destruct x eqn:?
            end
        end).

Ltac js_cases := js_eval; repeat (case_split; js_eval).

Ltac unfold_handlers :=
  unfold step, handler, settle, resume, unless_disabled, on_mousedown,
    on_mousemove, on_cut_click, on_model_change, loadCurrentModelIfNeeded,
    loadCurrentModelIfNeeded_after_load,
    clearPointsAndMask, resetImageState, encode, encode_stage, encode_start,
    encode_settled, encode_after_image, encode_after_processor,
    encode_after_embeddings, loadFromAviUtl2, loadFromAviUtl2_after_fetch,
    loadFromAviUtl2_after_blob, loadFromAviUtl2_catch,
    loadFromAviUtl2_after_encode, loadFromAviUtl2_finally,
    encode, encode_stage, encode_start, encode_settled,
    decode_after_model, decode, updateMaskOverlay,
    createImageData, getImageData, scale_points, cut_after_blob,
    cut_after_post, cut_upload_failed, clearRect, is_null in *.

Ltac export_sound_finish H :=
  auto; try discriminate;
  intros Hc; try discriminate; destruct (H Hc) as [? ?]; simplify_eq;
  auto;
  try match goal with
      | E : ?l ++ [_] = [] |- _ => destruct l; discriminate E
      end.


(** ** The engine, handler by handler *)

Section EngineFacts.

Context {P : Platform}.

#[local] Arguments blank : simpl never.
#[local] Arguments fill_mask : simpl never.
#[local] Arguments cut_pixels : simpl never.
#[local] Arguments bestIndex : simpl never.
#[local] Arguments getPoint : simpl never.

Lemma settle_lookup (s : State) (n : nat) (r : Settlement) (t : Task)
    (c : Js unit) :
  pending s !! n = Some t ->
  resume t r = Some c ->
  step s (Settle n r) = snd (c (set_pending (delete n (pending s)) s)).
Proof.
  intros Ht Hc. unfold step, handler, settle. rewrite Ht, Hc. reflexivity.
Qed.

Lemma cut_click_spawns (s : State) (img : RawImage) :
  cutButton_disabled s = false ->
  imageInput s = Some img ->
  canvas_width (maskCanvas s) <> 0 ->
  canvas_height (maskCanvas s) <> 0 ->
  step s CutClick =
    set_pending
      (pending s ++
         [AwaitConvertToBlob
            (cut_pixels (data img) (pixels (maskCanvas s))
               (canvas_width (maskCanvas s)) (canvas_height (maskCanvas s)))
            (canvas_width (maskCanvas s)) (canvas_height (maskCanvas s))])
      s.
Proof.
  intros Hcut Himg Hw Hh.
  unfold step, handler, unless_disabled, on_cut_click. rewrite Hcut.
  apply Nat.eqb_neq in Hw, Hh. unfold getImageData. js_eval.
  rewrite Hw, Hh. js_eval. rewrite Himg. reflexivity.
Qed.

(** *** The pointer handlers as equations on the state *)

Lemma mousedown_eq (s : State) (e : MouseEvt) :
  step s (MouseDown e) =
    if negb (button e =? 0)%Z && negb (button e =? 2)%Z then s
    else if is_null (imageEmbeddings s) then s
    else match lastPoints (open_session s) with
         | Some lp =>
             snd (decode (push_point (getPoint e) lp (open_session s)))
         | None => open_session s
         end.
Proof.
  unfold step, handler, on_mousedown, open_session, push_point.
  destruct (negb (button e =? 0)%Z && negb (button e =? 2)%Z);
    [reflexivity|].
  unfold mbind, Js_bind, gets, when, modify, deref, detach, mret, Js_ret.
  cbn [fst snd].
  destruct (is_null (imageEmbeddings s)); [reflexivity|].
  destruct (isMultiMaskMode s); cbn [negb fst snd];
    destruct (lastPoints _); reflexivity.
Qed.

Lemma mousemove_eq (s : State) (e : MouseEvt) :
  step s (MouseMove e) =
    if is_null (imageEmbeddings s) || isMultiMaskMode s then s
    else snd (decode (set_lastPoints (Some [getPoint e]) s)).
Proof.
  unfold step, handler, on_mousemove.
  unfold mbind, Js_bind, gets, modify, detach, mret, Js_ret. cbn [fst snd].
  destruct (is_null (imageEmbeddings s) || isMultiMaskMode s); reflexivity.
Qed.


(** While the busy flag is set, a pointer event starts no inference call
    and leaves the flag set. *)
Lemma pointer_while_busy (s : State) (e : MouseEvt) :
  isDecoding s = true ->
  (isDecoding (step s (MouseDown e)) = true
   /\ pending (step s (MouseDown e)) = pending s)
  /\ (isDecoding (step s (MouseMove e)) = true
      /\ pending (step s (MouseMove e)) = pending s).
Proof.
  intros H. unfold step, handler, on_mousedown, on_mousemove, is_null.
  destruct s; simpl in H; subst. unfold decode.
  split; js_cases; auto.
Qed.

(** *** What the decode pipeline can change

    [updateMaskOverlay] writes the canvas and the status line; [decode]
    writes the two flags and the list of awaits. *)

Lemma updateMaskOverlay_frame (mask : RawImage) (scores : list float)
    (s : State) :
  exists c t,
    snd (updateMaskOverlay mask scores s)
    = set_maskCanvas c (set_statusLabel t s).
Proof.
  destruct s. unfold updateMaskOverlay, createImageData.
  js_cases; unfold_setters; simpl; do 2 eexists; reflexivity.
Qed.

Lemma decode_frame (s : State) :
  exists b1 b2 l,
    snd (decode s)
    = set_pending l (set_decodePending b2 (set_isDecoding b1 s)).
Proof.
  destruct s. unfold decode, scale_points.
  js_cases; unfold_setters; simpl; do 3 eexists; reflexivity.
Qed.

(** The stages of [decode_after_post], one after the other. *)
Lemma decode_after_post_stages (mask : RawImage) (scores : list float)
    (s : State) :
  let drawn := updateMaskOverlay mask scores (set_isDecoding false s) in
  snd (decode_after_post mask scores s) =
    match fst drawn with
    | Normal _ =>
        if decodePending (snd drawn)
        then snd (decode (set_decodePending false (snd drawn)))
        else snd drawn
    | Throw _ => snd drawn
    end.
Proof.
  unfold decode_after_post, mbind, Js_bind, modify, gets, when, detach.
  cbv zeta.
  destruct (updateMaskOverlay mask scores (set_isDecoding false s))
    as [[[]|e] s1]; cbn [fst snd]; [|reflexivity].
  destruct (decodePending s1); reflexivity.
Qed.

Lemma decode_after_post_frame (mask : RawImage) (scores : list float)
    (s : State) :
  exists b1 b2 c t l,
    snd (decode_after_post mask scores s)
    = set_pending l
        (set_maskCanvas c
           (set_statusLabel t
              (set_decodePending b2 (set_isDecoding b1 s)))).
Proof.
  rewrite decode_after_post_stages. cbv zeta.
  destruct (updateMaskOverlay_frame mask scores (set_isDecoding false s))
    as (c & t & Hd).
  destruct (fst (updateMaskOverlay mask scores (set_isDecoding false s)));
    rewrite Hd.
  - destruct (decodePending _).
    + destruct (decode_frame
                  (set_decodePending false
                     (set_maskCanvas c
                        (set_statusLabel t (set_isDecoding false s)))))
        as (b1 & b2 & l & ->).
      destruct s. unfold_setters. simpl. do 5 eexists. reflexivity.
    + destruct s. unfold_setters. simpl. do 5 eexists. reflexivity.
  - destruct s. unfold_setters. simpl. do 5 eexists. reflexivity.
Qed.


Lemma export_sound_step (s : State) (ev : Event) :
  export_sound s -> export_sound (step s ev).
Proof.
  intros H.
  destruct ev as [e|e| | | |url| |key| |n r];
    try (revert H; unfold export_sound, has_points; destruct s; simpl;
         intros H; unfold_handlers; js_cases; export_sound_finish H).
  unfold step, handler, settle.
  destruct (pending s !! n) as [t|] eqn:Ht; [|exact H].
  destruct (resume t r) as [c|] eqn:Hc; [|exact H].
  destruct t, r; simpl in Hc; simplify_eq;
    try (revert H; unfold export_sound, has_points; destruct s; simpl;
         intros H; unfold_handlers; js_cases; export_sound_finish H).
  destruct (decode_after_post_frame (post_process_masks p pred_masks
              original reshaped) iou_scores
              (set_pending (delete n (pending s)) s))
    as (b1 & b2 & c & t & l & ->).
  revert H. unfold export_sound, has_points. destruct s; simpl. auto.
Qed.

Lemma export_sound_run (evs : list Event) (s : State) :
  export_sound s -> export_sound (run s evs).
Proof.
  revert s. induction evs as [|ev evs IH]; intros s H; [exact H|].
  apply IH, export_sound_step, H.
Qed.

Lemma set_pending_same (s : State) : set_pending (pending s) s = s.
Proof. destruct s; reflexivity. Qed.

Lemma set_pending_twice (s : State) (l l' : list Task) :
  set_pending l (set_pending l' s) = set_pending l s.
Proof. reflexivity. Qed.

Lemma pending_set_pending (s : State) (l : list Task) :
  pending (set_pending l s) = l.
Proof. reflexivity. Qed.

(** Settling the await that was spawned last. *)
Lemma settle_spawned (s : State) (t : Task) (r : Settlement) (c : Js unit) :
  resume t r = Some c ->
  step (set_pending (pending s ++ [t]) s) (Settle (length (pending s)) r)
  = snd (c s).
Proof.
  intros Hc. erewrite settle_lookup; [| |exact Hc].
  - rewrite pending_set_pending, delete_middle, app_nil_r.
    rewrite set_pending_twice, set_pending_same. reflexivity.
  - rewrite pending_set_pending. apply list_lookup_middle. reflexivity.
Qed.

(** Settling the last await of the list. *)
Lemma settle_last (s : State) (l : list Task) (t : Task) (r : Settlement)
    (c : Js unit) :
  pending s = l ++ [t] ->
  resume t r = Some c ->
  step s (Settle (length l) r) = snd (c (set_pending l s)).
Proof.
  intros Hp Hc. erewrite settle_lookup; [| |exact Hc].
  - rewrite Hp, delete_middle, app_nil_r. reflexivity.
  - rewrite Hp. apply list_lookup_middle. reflexivity.
Qed.

End EngineFacts.

(** ** Export *)

Section ExportSinks.

Context {P : Platform}.

#[local] Arguments cut_pixels : simpl never.

(** C7. The cut handler encodes the cut-out once, offers that blob for
    download and then sends the same blob in the POST request; however the
    upload settles (a response, accepted or not, or a network error), the
    download stays offered, nothing is retried and the handler ends with a
    status line. *)
Theorem export_dual_sink (s : State) (img : RawImage) :
  cutButton_disabled s = false ->
  imageInput s = Some img ->
  canvas_width (maskCanvas s) <> 0 ->
  canvas_height (maskCanvas s) <> 0 ->
  let c := maskCanvas s in
  let blob :=
    convertToBlob
      (cut_pixels (data img) (pixels c) (canvas_width c) (canvas_height c))
      (canvas_width c) (canvas_height c) in
  let n := length (pending s) in
  let exported := run s [CutClick; Settle n Fulfilled] in
  outputs exported =
    outputs s ++ [Download "image.png" blob;
                  HttpPost AVIUTL2_MASK_URL "image/png" blob]
  /\ pending exported = pending s ++ [AwaitMaskPost blob]
  /\ (forall res,
        let s' := step exported (Settle n (FulfilledWith res)) in
        outputs s' = outputs exported
        /\ pending s' = pending s
        /\ statusLabel s' =
             if ok res then "Mask sent to AviUtl2"%string
             else "Failed to send mask to AviUtl2"%string)
  /\ (forall e,
        let s' := step exported (Settle n (Rejected e)) in
        outputs s' = outputs exported
        /\ pending s' = pending s
        /\ statusLabel s' = "Failed to send mask to AviUtl2"%string).
Proof.
  intros Hcut Himg Hw Hh c blob n exported.
  assert (exported =
          set_pending (pending s ++ [AwaitMaskPost blob])
            (set_outputs
               (outputs s ++ [Download "image.png" blob;
                              HttpPost AVIUTL2_MASK_URL "image/png" blob])
               (set_statusLabel "Sending mask to AviUtl2..." s))) as Hexp.
  { subst exported n. unfold run. cbn [foldl].
    rewrite (cut_click_spawns s img Hcut Himg Hw Hh).
    erewrite settle_spawned by reflexivity.
    unfold cut_after_blob, output, spawn, modify, mbind, Js_bind. simpl.
    rewrite <- app_assoc. reflexivity. }
  rewrite Hexp. split; [reflexivity|]. split; [reflexivity|].
  set (sent := set_outputs _ _).
  change (pending s) with (pending sent).
  split.
  - intros res s'. subst s'. subst n. change (pending s) with (pending sent).
    erewrite settle_spawned by reflexivity.
    unfold cut_after_post, cut_upload_failed, modify.
    destruct (ok res); simpl; auto.
  - intros e s'. subst s'. subst n. change (pending s) with (pending sent).
    erewrite settle_spawned by reflexivity.
    unfold cut_upload_failed, modify. simpl. auto.
Qed.

End ExportSinks.


(** ** Export enablement *)

Section ExportEnablement.

Context {P : Platform}.

#[local] Arguments decode : simpl never.
#[local] Arguments getPoint : simpl never.

Lemma clear_disables (s : State) :
  cutButton_disabled (step s ClearClick) = true
  /\ has_points (step s ClearClick) = false
  /\ isMultiMaskMode (step s ClearClick) = false.
Proof. destruct s. repeat split. Qed.

Lemma first_click_enables (s : State) (e : MouseEvt) :
  is_null (imageEmbeddings s) = false ->
  isMultiMaskMode s = false ->
  (button e = 0 \/ button e = 2)%Z ->
  cutButton_disabled (step s (MouseDown e)) = false
  /\ has_points (step s (MouseDown e)) = true
  /\ isMultiMaskMode (step s (MouseDown e)) = true.
Proof.
  intros Hemb Hmulti Hb.
  assert (negb (button e =? 0)%Z && negb (button e =? 2)%Z = false) as Hbtn.
  { destruct Hb as [-> | ->]; reflexivity. }
  rewrite mousedown_eq, Hbtn, Hemb. unfold open_session. rewrite Hmulti.
  change (lastPoints (set_cutButton_disabled false _)) with (Some (@nil Point)).
  cbv iota.
  match goal with
  | |- context [decode ?x] =>
      destruct (decode_frame x) as (b1 & b2 & l & ->)
  end.
  unfold has_points. repeat split.
Qed.

Lemma hover_keeps_export (s : State) (e : MouseEvt) :
  cutButton_disabled (step s (MouseMove e)) = cutButton_disabled s.
Proof.
  rewrite mousemove_eq.
  destruct (is_null (imageEmbeddings s) || isMultiMaskMode s);
    [reflexivity|].
  destruct (decode_frame (set_lastPoints (Some [getPoint e]) s))
    as (b1 & b2 & l & ->).
  reflexivity.
Qed.

Lemma hover_sets_point (s : State) (e : MouseEvt) :
  is_null (imageEmbeddings s) = false ->
  isMultiMaskMode s = false ->
  lastPoints (step s (MouseMove e)) = Some [getPoint e].
Proof.
  intros Hemb Hmulti. rewrite mousemove_eq, Hemb, Hmulti. cbn [orb].
  destruct (decode_frame (set_lastPoints (Some [getPoint e]) s))
    as (b1 & b2 & l & ->).
  reflexivity.
Qed.

(** C9 (as amended). Export is enabled by the click that opens a multi-point
    session and disabled by clearing; at every moment an enabled export
    implies a multi-point session holding at least one point. Hover
    replacement puts one point into the store and leaves the cut button as
    it was, so in hover mode a point is present while export stays
    disabled. *)
Theorem export_tracks_point_session (s : State) (evs : list Event) :
  export_sound s ->
  export_sound (run s evs)
  /\ (cutButton_disabled (step s ClearClick) = true
      /\ has_points (step s ClearClick) = false)
  /\ (forall e,
        is_null (imageEmbeddings s) = false ->
        isMultiMaskMode s = false ->
        (button e = 0 \/ button e = 2)%Z ->
        cutButton_disabled (step s (MouseDown e)) = false
        /\ has_points (step s (MouseDown e)) = true)
  /\ (forall e,
        cutButton_disabled (step s (MouseMove e)) = cutButton_disabled s)
  /\ (forall e,
        is_null (imageEmbeddings s) = false ->
        isMultiMaskMode s = false ->
        has_points (step s (MouseMove e)) = true).
Proof.
  intros H. split; [apply export_sound_run, H|].
  split; [split; apply clear_disables|].
  split.
  - intros e He Hm Hb.
    destruct (first_click_enables s e He Hm Hb) as (? & ? & _). auto.
  - split; [apply hover_keeps_export|].
    intros e He Hm. unfold has_points.
    rewrite (hover_sets_point s e He Hm). reflexivity.
Qed.

End ExportEnablement.

(** ** Failure of an inference call, and image loads *)

Section Failures.

Context {P : Platform}.

#[local] Arguments decode : simpl never.
#[local] Arguments getPoint : simpl never.

Lemma reject_decode_task (s : State) (n : nat) (t : Task) (e : JsError) :
  pending s !! n = Some t ->
  is_decode_task t = true ->
  step s (Settle n (Rejected e)) = set_pending (delete n (pending s)) s.
Proof.
  intros Ht Hd. destruct t; try discriminate Hd;
    exact (settle_lookup s n (Rejected e) _ _ Ht eq_refl).
Qed.

Lemma reset_tears_down (s : State) : torn_down (step s ResetClick).
Proof. repeat split. Qed.

Lemma load_frame_tears_down (s : State) :
  loadFromAviUtl2Button_disabled s = false ->
  isEncoding s = false ->
  isDecoding s = false ->
  torn_down (step s LoadFromAviUtl2Click)
  /\ pending (step s LoadFromAviUtl2Click) = pending s ++ [AwaitFrameFetch].
Proof.
  intros Hb He Hd. unfold step, handler, unless_disabled, loadFromAviUtl2.
  rewrite Hb. unfold mbind, Js_bind, gets. cbn [fst snd].
  rewrite He, Hd. repeat split.
Qed.

Lemma encode_keeps_session (s : State) (ev : Event) :
  is_encode_step s ev = true ->
  lastPoints (step s ev) = lastPoints s
  /\ isMultiMaskMode (step s ev) = isMultiMaskMode s
  /\ maskCanvas (step s ev) = maskCanvas s.
Proof.
  intros H. destruct ev as [e|e| | | |url| |key| |n r];
    try discriminate H.
  - destruct s. unfold_handlers. js_cases; auto.
  - destruct s. unfold_handlers. js_cases; auto.
  - unfold is_encode_step in H. unfold step, handler, settle.
    destruct (pending s !! n) as [t|]; [|auto].
    destruct t as [| |url k|p img k|m ip k| | | | |], r as [|res|e];
      try discriminate H; try destruct k;
      destruct s; unfold_handlers; js_cases; auto.
Qed.

Lemma embeddings_replaced (s : State) (n : nat) (m : ModelKey)
    (ip : Processed PixelValues) (k : EncodeCaller) :
  pending s !! n = Some (AwaitEmbeddings m ip k) ->
  imageEmbeddings (step s (Settle n Fulfilled))
  = Some (get_image_embeddings m ip).
Proof.
  intros Ht. erewrite settle_lookup by (try exact Ht; reflexivity).
  destruct k; reflexivity.
Qed.

(** A load that follows a reset: the page ends with the new embedding,
    no point session and a blank overlay. *)
Lemma load_after_reset (s : State) (url : string) (m p : ModelKey) :
  model s = Some m ->
  processor s = Some p ->
  let n := length (pending s) in
  let s' :=
    run s [ResetClick; FileLoaded url; Settle n Fulfilled;
           Settle n Fulfilled; Settle n Fulfilled] in
  imageEmbeddings s'
  = Some (get_image_embeddings m (processor_call p (RawImage_fromURL url)))
  /\ lastPoints s' = None
  /\ isMultiMaskMode s' = false
  /\ pixels (maskCanvas s') =
       blank (canvas_width (maskCanvas s')) (canvas_height (maskCanvas s'))
  /\ pending s' = pending s.
Proof.
  intros Hm Hp n s'. subst n s'. unfold run. cbn [foldl].
  destruct s. cbn [pending model processor] in *. subst.
  set (img := RawImage_fromURL url).
  set (page := fun encoding input processed embeddings status display
                   background tasks =>
                 mkState encoding false false None false input processed
                   embeddings currentModelKey0 (Some m) (Some p) status
                   true loadFromAviUtl2Button_disabled0 display background
                   [] (clearRect maskCanvas0) (pending0 ++ tasks) outputs0).
  assert (forall st t c,
            pending st = pending0 ++ [t] ->
            resume t Fulfilled = Some c ->
            step st (Settle (length pending0) Fulfilled)
            = snd (c (set_pending pending0 st))) as Hsettle.
  { intros st t c. apply settle_last. }
  set (status := "Extracting image embedding..."%string).
  set (t1 := AwaitFromURL url Detached).
  set (t2 := AwaitProcessor p img Detached).
  set (t3 := AwaitEmbeddings m (processor_call p img) Detached).
  set (s1 := page true None None None status display_flex None [t1]).
  set (s2 := page true (Some img) None None status display_none
               (Some url) [t2]).
  set (s3 := page true (Some img) (Some (processor_call p img)) None
               status display_none (Some url) [t3]).
  match goal with
  | |- context [step (step ?s0 ResetClick) (FileLoaded url)] =>
      change (step (step s0 ResetClick) (FileLoaded url)) with s1
  end.
  rewrite (Hsettle s1 t1 _ eq_refl eq_refl).
  match goal with
  | |- context [snd ?x] => change (snd x) with s2
  end.
  rewrite (Hsettle s2 t2 _ eq_refl eq_refl).
  match goal with
  | |- context [snd ?x] => change (snd x) with s3
  end.
  rewrite (Hsettle s3 t3 _ eq_refl eq_refl).
  subst s1 s2 s3 t1 t2 t3.
  subst page. cbn. repeat split.
Qed.

Lemma encode_while_busy (s : State) (url : string) :
  isEncoding s = true ->
  step s (FileLoaded url) = s /\ step s ExampleClick = s.
Proof.
  intros H. unfold step, handler, encode, encode_stage, encode_start.
  unfold mbind, Js_bind, gets. cbn [fst snd]. rewrite H. split; reflexivity.
Qed.

Lemma reject_encode_task (s : State) (n : nat) (t : Task) (e : JsError) :
  pending s !! n = Some t ->
  is_encode_task t = true ->
  imageEmbeddings (step s (Settle n (Rejected e))) = imageEmbeddings s
  /\ pending (step s (Settle n (Rejected e))) = delete n (pending s).
Proof.
  intros Ht He.
  destruct t as [| |url k|p img k|m ip k| | | | |]; try discriminate He;
    erewrite settle_lookup by (try exact Ht; reflexivity);
    destruct k; split; reflexivity.
Qed.

Lemma pointer_without_embedding (s : State) (e : MouseEvt) :
  is_null (imageEmbeddings s) = true ->
  step s (MouseDown e) = s /\ step s (MouseMove e) = s.
Proof.
  intros H. rewrite mousedown_eq, mousemove_eq, H.
  destruct (negb _ && negb _); split; reflexivity.
Qed.

End Failures.

(** ** Pointer positions *)

Section Positions.

Context {P : Platform}.

#[local] Arguments getPoint : simpl never.

Lemma getPoint_x (e : MouseEvt) :
  fst (position (getPoint e)) = clamp (quotient_x e) 0 1.
Proof. reflexivity. Qed.

Lemma getPoint_y (e : MouseEvt) :
  snd (position (getPoint e)) = clamp (quotient_y e) 0 1.
Proof. reflexivity. Qed.

Lemma well_placed_number (e : MouseEvt) :
  well_placed e = true ->
  is_nan (quotient_x e) = false /\ is_nan (quotient_y e) = false.
Proof.
  unfold well_placed. rewrite !andb_true_iff, !negb_true_iff.
  intros [[[[[[[Hx Hy] Hl] Ht] Hw] Hwz] Hh] Hhz].
  split; apply quotient_number; assumption.
Qed.

Lemma well_placed_in_unit (e : MouseEvt) :
  well_placed e = true -> point_in_unit (getPoint e) = true.
Proof.
  intros H. destruct (well_placed_number e H) as [Hx Hy].
  unfold point_in_unit. rewrite getPoint_x, getPoint_y.
  rewrite !clamp_number by assumption. reflexivity.
Qed.

(** What a step can do to the point list. *)
Lemma lastPoints_other (s : State) (ev : Event) :
  match ev with
  | MouseDown _ | MouseMove _ => True
  | _ => lastPoints (step s ev) = lastPoints s
         \/ lastPoints (step s ev) = None
  end.
Proof.
  destruct ev as [e|e| | | |url| |key| |n r]; try exact I;
    try solve [destruct s; unfold_handlers; js_cases; auto].
  unfold step, handler, settle.
  destruct (pending s !! n) as [t|] eqn:Ht; [|auto].
  destruct (resume t r) as [c|] eqn:Hc; [|auto].
  destruct t, r; simpl in Hc; simplify_eq;
    try solve [destruct s; unfold_handlers; js_cases; auto].
  destruct (decode_after_post_frame (post_process_masks p pred_masks
              original reshaped) iou_scores
              (set_pending (delete n (pending s)) s))
    as (b1 & b2 & c & t & l & ->).
  left. reflexivity.
Qed.

Lemma lastPoints_mousedown (s : State) (e : MouseEvt) :
  lastPoints (step s (MouseDown e)) = lastPoints s
  \/ exists lp,
       lastPoints (step s (MouseDown e)) = Some (lp ++ [getPoint e])
       /\ (lastPoints s = Some lp \/ lp = []).
Proof.
  rewrite mousedown_eq.
  destruct (negb _ && negb _); [auto|].
  destruct (is_null _); [auto|].
  unfold open_session.
  destruct (isMultiMaskMode s) eqn:Hm.
  - destruct (lastPoints s) as [lp|] eqn:Hlp; [|auto].
    right. exists lp.
    destruct (decode_frame (push_point (getPoint e) lp s))
      as (b1 & b2 & l & ->).
    split; [reflexivity|auto].
  - cbn [lastPoints set_cutButton_disabled set_isMultiMaskMode
           set_lastPoints].
    right. exists [].
    match goal with
    | |- context [decode ?x] =>
        destruct (decode_frame x) as (b1 & b2 & l & ->)
    end.
    split; [reflexivity|auto].
Qed.

Lemma lastPoints_mousemove (s : State) (e : MouseEvt) :
  lastPoints (step s (MouseMove e)) = lastPoints s
  \/ lastPoints (step s (MouseMove e)) = Some [getPoint e].
Proof.
  rewrite mousemove_eq.
  destruct (is_null _ || _); [auto|].
  destruct (decode_frame (set_lastPoints (Some [getPoint e]) s))
    as (b1 & b2 & l & ->).
  right. reflexivity.
Qed.

Lemma points_in_unit_step (s : State) (ev : Event) :
  points_in_unit s ->
  pointer_well_placed ev = true ->
  points_in_unit (step s ev).
Proof.
  intros H Hev lp' Hlp'.
  destruct ev as [e|e| | | |url| |key| |n r].
  all: try (match goal with
            | Hl : lastPoints (step ?s0 ?ev) = Some _ |- _ =>
                destruct (lastPoints_other s0 ev) as [Hf|Hf];
                rewrite Hf in Hl; [apply H, Hl|discriminate]
            end).
  - destruct (lastPoints_mousedown s e) as [Hf|(lp & Hf & Hlp)];
      rewrite Hf in Hlp'; [apply H, Hlp'|].
    injection Hlp' as <-. apply Forall_app. split.
    + destruct Hlp as [Hlp| ->]; [apply H, Hlp|constructor].
    + repeat constructor. apply well_placed_in_unit, Hev.
  - destruct (lastPoints_mousemove s e) as [Hf|Hf];
      rewrite Hf in Hlp'; [apply H, Hlp'|].
    injection Hlp' as <-.
    repeat constructor. apply well_placed_in_unit, Hev.
Qed.

Lemma points_in_unit_run (evs : list Event) (s : State) :
  points_in_unit s ->
  Forall (fun ev => pointer_well_placed ev = true) evs ->
  points_in_unit (run s evs).
Proof.
  revert s. induction evs as [|ev evs IH]; intros s H Hevs; [exact H|].
  inversion Hevs as [|? ? Hev Hrest]; subst.
  apply IH; [apply points_in_unit_step; assumption|exact Hrest].
Qed.

(** C10 (as amended). A coordinate of a point built from a pointer event is
    [clamp] of a quotient: it lies in [[0,1]] whenever the quotient is a
    number, wherever the cursor is, and it is NaN when the quotient is NaN.
    The quotient is a number whenever the event's coordinates are finite and
    the container's bounding box has a finite, non-zero width and height; so
    under such events every point the point list ever holds lies in the unit
    square. *)
Theorem point_coordinates_clamped (s : State) (evs : list Event) :
  points_in_unit s ->
  Forall (fun ev => pointer_well_placed ev = true) evs ->
  points_in_unit (run s evs)
  /\ (forall e, well_placed e = true -> point_in_unit (getPoint e) = true)
  /\ (forall e,
        (is_nan (quotient_x e) = false ->
         in_unit (fst (position (getPoint e))) = true)
        /\ (is_nan (quotient_x e) = true ->
            is_nan (fst (position (getPoint e))) = true)
        /\ (is_nan (quotient_y e) = false ->
            in_unit (snd (position (getPoint e))) = true)
        /\ (is_nan (quotient_y e) = true ->
            is_nan (snd (position (getPoint e))) = true)).
Proof.
  intros H Hevs. split; [apply points_in_unit_run; assumption|].
  split; [apply well_placed_in_unit|].
  intros e. rewrite getPoint_x, getPoint_y.
  repeat split; auto using clamp_number, clamp_nan.
Qed.

End Positions.

(** ** Mask selection, overlay rendering, cut extraction *)

Section Rendering.

Context {P : Platform}.

#[local] Arguments blank : simpl never.
#[local] Arguments fill_mask : simpl never.
#[local] Arguments bestIndex : simpl never.

(** A successful overlay update, as one assignment to the state. *)
Lemma updateMaskOverlay_ok (mask : RawImage) (scores : list float)
    (s : State) :
  scores <> [] -> width mask <> 0 -> height mask <> 0 ->
  updateMaskOverlay mask scores s =
    (Normal tt,
     set_maskCanvas (overlay_of mask scores)
       (set_statusLabel
          ("Segment score: "
           ++ toFixed2 (score_at scores (bestIndex scores))) s)).
Proof.
  intros Hs Hw Hh.
  pose proof (bestIndex_lt scores Hs) as Hb.
  destruct (lookup_lt_is_Some_2 scores _ Hb) as [sc Hsc].
  apply Nat.eqb_neq in Hw, Hh.
  unfold updateMaskOverlay, createImageData, overlay_of, score_at.
  unfold mbind, Js_bind, gets, when, modify, deref, mret, Js_ret, throw.
  rewrite Hsc.
  destruct (negb (canvas_width (maskCanvas s) =? width mask)
            || negb (canvas_height (maskCanvas s) =? height mask)) eqn:E.
  - cbn [fst snd maskCanvas set_maskCanvas canvas_width canvas_height].
    rewrite Hw, Hh. reflexivity.
  - apply orb_false_iff in E as [E1 E2].
    apply negb_false_iff, Nat.eqb_eq in E1, E2.
    cbn [fst snd]. rewrite E1, E2, Hw, Hh. reflexivity.
Qed.

Lemma updateMaskOverlay_idempotent (mask : RawImage) (scores : list float)
    (s : State) :
  snd (updateMaskOverlay mask scores (snd (updateMaskOverlay mask scores s)))
  = snd (updateMaskOverlay mask scores s).
Proof.
  destruct s. unfold updateMaskOverlay, createImageData.
  js_cases; rewrite ?Nat.eqb_refl in *; simpl in *;
    try discriminate; try reflexivity.
Qed.

(** C5. For every pixel the renderer reads the chosen candidate's label at
    [numMasks * p + bestIndex] of the interleaved mask; the pixel becomes the
    highlight colour at full opacity when that label is 1 and transparent
    black otherwise. The canvas after the update is a function of the mask
    and the scores alone, whatever was drawn before, and a mask with no
    pixel inside renders to the blank bitmap. *)
Theorem overlay_render (mask : RawImage) (scores : list float) (s : State) :
  scores <> [] -> width mask <> 0 -> height mask <> 0 ->
  let drawn := snd (updateMaskOverlay mask scores s) in
  let numMasks := length scores in
  let best := bestIndex scores in
  maskCanvas drawn = overlay_of mask scores
  /\ canvas_width (maskCanvas drawn) = width mask
  /\ canvas_height (maskCanvas drawn) = height mask
  /\ (forall p,
        label_at numMasks best (data mask) p
        = data mask !! (numMasks * p + best))
  /\ (forall p,
        p < width mask * height mask ->
        rgba_at (pixels (maskCanvas drawn)) p =
          Some (if is_inside (label_at numMasks best (data mask) p)
                then highlight else transparent))
  /\ ((forall p,
         p < width mask * height mask ->
         is_inside (label_at numMasks best (data mask) p) = false) ->
      pixels (maskCanvas drawn) = blank (width mask) (height mask)).
Proof.
  intros Hs Hw Hh drawn numMasks best. subst drawn.
  rewrite (updateMaskOverlay_ok mask scores s Hs Hw Hh).
  cbn [snd maskCanvas set_maskCanvas overlay_of canvas_width canvas_height
         pixels].
  split; [reflexivity|]. split; [reflexivity|]. split; [reflexivity|].
  split; [reflexivity|].
  split.
  - intros p Hp. apply fill_mask_pixel, Hp.
  - intros Hbg. apply fill_mask_background, Hbg.
Qed.

(** C6. For every pixel of the overlay whose alpha is non-zero, the cut loop
    writes the source image's three colour bytes of that pixel and keeps the
    alpha: alpha 255 over source colour (10,20,30) gives (10,20,30,255). A
    pixel whose alpha is zero keeps the four bytes the overlay held. The
    buffer the handler hands to the encoder is this one. *)
Theorem cut_extract (img px : list N) (w h p : nat) (r g b a : N) :
  p < w * h ->
  rgba_at px p = Some (r, g, b, a) ->
  let out := cut_pixels img px w h in
  (a <> 0%N ->
   forall sr sg sb,
     rgb_at img p = Some (sr, sg, sb) ->
     rgba_at out p = Some (sr, sg, sb, a))
  /\ (a = 0%N -> rgba_at out p = Some (r, g, b, a))
  /\ rgba_at (cut_pixels [10; 20; 30]%N [0; 114; 189; 255]%N 1 1) 0
     = Some (10, 20, 30, 255)%N
  /\ (forall (s : State) (image : RawImage),
        cutButton_disabled s = false ->
        imageInput s = Some image ->
        canvas_width (maskCanvas s) <> 0 ->
        canvas_height (maskCanvas s) <> 0 ->
        pending (step s CutClick) =
          pending s ++
            [AwaitConvertToBlob
               (cut_pixels (data image) (pixels (maskCanvas s))
                  (canvas_width (maskCanvas s)) (canvas_height (maskCanvas s)))
               (canvas_width (maskCanvas s)) (canvas_height (maskCanvas s))]).
Proof.
  intros Hp Hpx out. subst out.
  rewrite (cut_pixels_pixel img px w h p r g b a Hp Hpx).
  split; [|split; [|split]].
  - intros Ha sr sg sb Hsrc.
    assert ((0 <? a)%N = true) as -> by (apply N.ltb_lt; lia).
    unfold rgb_at in Hsrc. unfold source_byte.
    replace (3 * p + 0) with (3 * p) by lia.
    destruct (img !! (3 * p)) as [x|]; [|discriminate].
    destruct (img !! (3 * p + 1)) as [y|]; [|discriminate].
    destruct (img !! (3 * p + 2)) as [z|]; [|discriminate].
    simpl in Hsrc. injection Hsrc as -> -> ->. reflexivity.
  - intros ->. reflexivity.
  - reflexivity.
  - intros s image Hc Hi Hw Hh.
    rewrite (cut_click_spawns s image Hc Hi Hw Hh). reflexivity.
Qed.

End Rendering.

(** ** The decode coordinator *)

Section CoordinatorFacts.

Context {P : Platform}.

#[local] Arguments decode : simpl never.
#[local] Arguments updateMaskOverlay : simpl never.
#[local] Arguments getPoint : simpl never.
#[local] Arguments overlay_of : simpl never.

Variable σ : Session.
Hypothesis Hwell : answers_well σ.

(** A dispatch: the flag is set and the model is called with the point
    list as it is now. *)
Lemma decode_dispatch (s : State) (lp : list Point) :
  in_session σ s ->
  isDecoding s = false ->
  lastPoints s = Some lp ->
  decode s =
    (Normal tt,
     set_pending (pending s ++ [model_task σ lp]) (set_isDecoding true s)).
Proof.
  intros (Hm & Hp & He & Hi & Hr) Hd Hl.
  unfold decode, mbind, Js_bind, gets, modify, deref, spawn, scale_points,
    mret, Js_ret.
  rewrite Hd. cbn [fst snd].
  change (imageProcessed (set_isDecoding true s)) with (imageProcessed s).
  rewrite Hi. cbn [fst snd]. rewrite Hr.
  change (lastPoints (set_isDecoding true s)) with (lastPoints s).
  rewrite Hl. cbn [fst snd].
  change (model (set_isDecoding true s)) with (model s).
  rewrite Hm. cbn [fst snd].
  change (imageEmbeddings (set_isDecoding true s)) with (imageEmbeddings s).
  rewrite He. reflexivity.
Qed.

Lemma in_session_frame (s s' : State) :
  model s' = model s ->
  processor s' = processor s ->
  imageEmbeddings s' = imageEmbeddings s ->
  imageProcessed s' = imageProcessed s ->
  in_session σ s -> in_session σ s'.
Proof.
  intros H1 H2 H3 H4 (Hm & Hp & He & Hi & Hr).
  unfold in_session. rewrite H1, H2, H3, H4. auto.
Qed.


(** The model call returns: post-processing is awaited next. *)
Lemma decode_after_model_in_session (s : State) (lp : list Point) :
  in_session σ s ->
  snd ((let '(pred_masks, iou_scores) := model_output σ lp in
        decode_after_model pred_masks iou_scores) s)
  = set_pending (pending s ++ [post_task σ lp]) s.
Proof.
  intros (Hm & Hp & He & Hi & Hr). unfold post_task.
  destruct (model_output σ lp) as [pm sc]. cbn [fst snd].
  unfold decode_after_model, mbind, Js_bind, deref, spawn, modify.
  rewrite Hp. cbn [fst snd]. rewrite Hi. reflexivity.
Qed.

(** Post-processing returns: the flag is released, the overlay drawn, and
    an owed rerun dispatched with the point list as it is now. *)
Lemma decode_after_post_in_session (s : State) (lp lp' : list Point) :
  in_session σ s ->
  lastPoints s = Some lp ->
  let drawn :=
    set_maskCanvas (rendered σ lp')
      (set_statusLabel
         ("Segment score: "
          ++ toFixed2 (score_at (decoded_scores σ lp')
                         (bestIndex (decoded_scores σ lp'))))
         (set_isDecoding false s)) in
  snd (decode_after_post (decoded_mask σ lp') (decoded_scores σ lp') s) =
    if decodePending s
    then set_pending (pending s ++ [model_task σ lp])
           (set_isDecoding true (set_decodePending false drawn))
    else drawn.
Proof.
  intros Hs Hl drawn. rewrite decode_after_post_stages. cbv zeta.
  destruct (Hwell lp') as (H1 & H2 & H3).
  rewrite (updateMaskOverlay_ok _ _ _ H1 H2 H3). cbn [fst snd].
  fold (rendered σ lp'). fold drawn.
  change (decodePending drawn) with (decodePending s).
  destruct (decodePending s); [|reflexivity].
  rewrite (decode_dispatch _ lp); try reflexivity; try exact Hl.
  apply (in_session_frame s); auto.
Qed.

Lemma coordinator_settle (s : State) (n : nat) (r : Settlement) :
  in_session σ s ->
  coordinator σ s ->
  decode_session_event (Settle n r) = true ->
  in_session σ (step s (Settle n r))
  /\ coordinator σ (step s (Settle n r))
  /\ lastPoints (step s (Settle n r)) = lastPoints s.
Proof.
  intros Hs Hc Hev.
  assert (step s (Settle n r) = s ->
          in_session σ (step s (Settle n r))
          /\ coordinator σ (step s (Settle n r))
          /\ lastPoints (step s (Settle n r)) = lastPoints s) as Hsame.
  { intros ->. auto. }
  destruct Hc as (lp & Hl & [(Hbusy & lp' & Hq & Hlp')
                            |(Hidle & Hpend & Hnil & Hcanvas)]).
  - destruct n as [|n];
      [|apply Hsame; unfold step, handler, settle;
        destruct Hq as [-> | ->]; reflexivity].
    destruct r as [|res|e]; [| |discriminate Hev].
    + destruct Hq as [Hq|Hq].
      * erewrite settle_lookup;
          [|rewrite Hq; reflexivity|reflexivity].
        rewrite Hq. cbn [delete list_delete].
        fold (model_output σ lp').
        rewrite decode_after_model_in_session
          by (apply (in_session_frame s); auto).
        split; [apply (in_session_frame s); auto|].
        split; [|reflexivity].
        exists lp. split; [exact Hl|]. left. split; [exact Hbusy|].
        exists lp'. split; [right; reflexivity|exact Hlp'].
      * erewrite settle_lookup;
          [|rewrite Hq; reflexivity|reflexivity].
        rewrite Hq. cbn [delete list_delete].
        fold (decoded_mask σ lp').
        fold (decoded_scores σ lp').
        rewrite (decode_after_post_in_session _ lp lp')
          by (try exact Hl; apply (in_session_frame s); auto).
        cbv zeta. cbn [decodePending set_pending].
        destruct (decodePending s) eqn:Hp.
        -- split; [apply (in_session_frame s); auto|].
           split; [|exact eq_refl].
           exists lp. split; [exact Hl|]. left. split; [reflexivity|].
           exists lp. split; [left; reflexivity|reflexivity].
        -- split; [apply (in_session_frame s); auto|].
           split; [|exact eq_refl].
           exists lp. split; [exact Hl|]. right.
           rewrite (Hlp' eq_refl). repeat split; assumption.
    + apply Hsame. unfold step, handler, settle.
      destruct Hq as [-> | ->]; reflexivity.
  - apply Hsame. unfold step, handler, settle. rewrite Hnil.
    reflexivity.
Qed.

Lemma coordinator_drained (s : State) :
  coordinator σ s ->
  pending s = [] ->
  exists lp,
    lastPoints s = Some lp
    /\ maskCanvas s = rendered σ lp
    /\ isDecoding s = false
    /\ decodePending s = false.
Proof.
  intros (lp & Hl & [(_ & lp' & [Hq|Hq] & _)|(Hd & Hp & _ & Hc)]) Hnil;
    try (rewrite Hq in Hnil; discriminate Hnil).
  exists lp. auto.
Qed.

End CoordinatorFacts.



(** ** More on IEEE comparison, [clamp] and the scan for the best score *)

Section FloatCases.

Lemma ltb_true_number (a b : float) :
  (a <? b)%float = true -> is_nan a = false /\ is_nan b = false.
Proof.
  rewrite FloatAxioms.ltb_spec, !is_nan_spec. unfold SFltb. intros H.
  destruct (SFcompare (Prim2SF a) (Prim2SF b)) eqn:E; [|discriminate].
  split; intros Hn; rewrite Hn in E;
    [|destruct (Prim2SF a)]; discriminate.
Qed.

Lemma leb_true_number (a b : float) :
  (a <=? b)%float = true -> is_nan a = false /\ is_nan b = false.
Proof.
  rewrite FloatAxioms.leb_spec, !is_nan_spec. unfold SFleb. intros H.
  destruct (SFcompare (Prim2SF a) (Prim2SF b)) eqn:E; [|discriminate].
  split; intros Hn; rewrite Hn in E;
    [|destruct (Prim2SF a)]; discriminate.
Qed.

Lemma ltb_nan_l (a b : float) : is_nan a = true -> (a <? b)%float = false.
Proof.
  intros Hn. destruct (a <? b)%float eqn:E; [|reflexivity].
  apply ltb_true_number in E as [E _]. congruence.
Qed.

Lemma leb_not_gt (a b : float) :
  (a <=? b)%float = true -> (b <? a)%float = false.
Proof.
  rewrite FloatAxioms.leb_spec, FloatAxioms.ltb_spec. unfold SFleb, SFltb.
  rewrite (SFcompare_antisym (Prim2SF a) (Prim2SF b)).
  destruct (SFcompare (Prim2SF a) (Prim2SF b)) as [[]|]; simpl;
    congruence.
Qed.

Lemma ltb_not_gt (a b : float) :
  (a <? b)%float = true -> (b <? a)%float = false.
Proof.
  rewrite !FloatAxioms.ltb_spec. unfold SFltb.
  rewrite (SFcompare_antisym (Prim2SF a) (Prim2SF b)).
  destruct (SFcompare (Prim2SF a) (Prim2SF b)) as [[]|]; simpl;
    congruence.
Qed.

Lemma is_zero_number (x : float) :
  is_zero x = true ->
  is_nan x = false /\ (1 <? x)%float = false /\ (x <? 0)%float = false.
Proof.
  unfold is_zero. rewrite FloatAxioms.eqb_spec, !FloatAxioms.ltb_spec,
    is_nan_spec.
  change (Prim2SF zero) with (S754_zero false).
  change (Prim2SF 1) with (S754_finite false 4503599627370496 (-52)).
  change (Prim2SF 0) with (S754_zero false).
  unfold SFeqb, SFltb.
  destruct (Prim2SF x) as [s|s| |s m e]; simpl; try discriminate;
    try (destruct s; discriminate).
  intros _. repeat split. discriminate.
Qed.

End FloatCases.

Section ClampCases.

Lemma clamp_below (x : float) : (x <? 0)%float = true -> clamp x 0 1 = 0%float.
Proof.
  intros H. destruct (ltb_true_number _ _ H) as [Hx _].
  assert ((1 <? x)%float = false) as H1.
  { destruct (1 <? x)%float eqn:E; [|reflexivity].
    pose proof (ltb_trans _ _ _ E H) as Habs. discriminate Habs. }
  unfold clamp, Math_min. rewrite Hx, H1.
  change (is_nan 1) with false. change (is_neg_zero 1) with false.
  cbn [orb andb]. unfold Math_max. rewrite Hx, H.
  change (is_nan 0) with false. cbn [orb]. rewrite orb_true_r. reflexivity.
Qed.

Lemma clamp_above (x : float) : (1 <? x)%float = true -> clamp x 0 1 = 1%float.
Proof.
  intros H. destruct (ltb_true_number _ _ H) as [_ Hx].
  unfold clamp, Math_min. rewrite Hx, H.
  change (is_nan 1) with false. cbn [orb]. rewrite orb_true_r. reflexivity.
Qed.

Lemma clamp_inside (x : float) :
  in_unit x = true -> is_neg_zero x = false -> clamp x 0 1 = x.
Proof.
  unfold in_unit. intros H Hz. apply andb_true_iff in H as [H0 H1].
  destruct (leb_true_number _ _ H1) as [Hx _].
  unfold clamp, Math_min. rewrite Hx, (leb_not_gt _ _ H1).
  change (is_nan 1) with false. change (is_neg_zero 1) with false.
  cbn [orb andb]. unfold Math_max. rewrite Hx, Hz, (leb_not_gt _ _ H0).
  change (is_nan 0) with false. rewrite andb_false_r. reflexivity.
Qed.

Lemma clamp_neg_zero (x : float) :
  is_neg_zero x = true -> clamp x 0 1 = 0%float.
Proof.
  unfold is_neg_zero at 1. intros H.
  pose proof H as Hnz. apply andb_true_iff in H as [Hz _].
  destruct (is_zero_number x Hz) as (Hx & H1 & _).
  unfold clamp, Math_min. rewrite Hx, H1.
  change (is_nan 1) with false. change (is_neg_zero 1) with false.
  cbn [orb andb]. unfold Math_max. rewrite Hx.
  fold (is_neg_zero x) in Hnz. rewrite Hnz.
  reflexivity.
Qed.

(** X1. [clamp] saturates: a value below 0 (minus infinity included) gives
    0, a value above 1 (infinity included) gives 1, a value of [[0,1]] is
    returned as it is, except that -0 becomes +0; NaN gives NaN. *)
Theorem clamp_cases (x : float) :
  ((x <? 0)%float = true -> clamp x 0 1 = 0%float)
  /\ ((1 <? x)%float = true -> clamp x 0 1 = 1%float)
  /\ (in_unit x = true -> is_neg_zero x = false -> clamp x 0 1 = x)
  /\ (is_neg_zero x = true -> clamp x 0 1 = 0%float)
  /\ (is_nan x = true -> is_nan (clamp x 0 1) = true)
  /\ clamp neg_infinity 0 1 = 0%float
  /\ clamp infinity 0 1 = 1%float.
Proof.
  split; [apply clamp_below|]. split; [apply clamp_above|].
  split; [apply clamp_inside|]. split; [apply clamp_neg_zero|].
  split; [apply clamp_nan|]. split; reflexivity.
Qed.

End ClampCases.

Section BestIndexNaN.

Variable scores : list float.

Lemma bestIndex_step_nan (i : nat) :
  is_nan (score_at scores 0) = true -> bestIndex_step scores 0 i = 0.
Proof.
  intros H. unfold bestIndex_step, gt.
  destruct (score_at scores 0 <? score_at scores i)%float eqn:E;
    [|reflexivity].
  apply ltb_true_number in E as [E _]. congruence.
Qed.

Lemma bestIndex_nan_first :
  is_nan (score_at scores 0) = true -> bestIndex scores = 0.
Proof.
  intros H. unfold bestIndex.
  generalize (seq 1 (length scores - 1)). intros l.
  induction l as [|i l IH]; [reflexivity|].
  cbn [foldl]. rewrite (bestIndex_step_nan i H). exact IH.
Qed.

Lemma bestIndex_step_number (best i : nat) :
  is_nan (score_at scores best) = false ->
  is_nan (score_at scores (bestIndex_step scores best i)) = false.
Proof.
  intros H. unfold bestIndex_step, gt.
  destruct (score_at scores best <? score_at scores i)%float eqn:E;
    [|exact H].
  apply ltb_true_number in E as [_ E]. exact E.
Qed.

Lemma bestIndex_number :
  is_nan (score_at scores 0) = false ->
  is_nan (score_at scores (bestIndex scores)) = false.
Proof.
  unfold bestIndex. generalize (seq 1 (length scores - 1)).
  intros l.
  assert (forall best,
            is_nan (score_at scores best) = false ->
            is_nan (score_at scores (foldl (bestIndex_step scores) best l))
            = false) as Hloop.
  { induction l as [|i l IH]; intros best H; [exact H|].
    cbn [foldl]. apply IH, bestIndex_step_number, H. }
  apply Hloop.
Qed.

End BestIndexNaN.

(** X2. A score that is NaN is never preferred: when the first score is a
    number, so is the selected one, whatever NaN the others hold. When the
    first score is NaN (or there is no score at all) the scan stays at
    index 0, whatever the other scores. *)
Theorem bestIndex_nan (scores : list float) :
  (is_nan (score_at scores 0) = false ->
   is_nan (score_at scores (bestIndex scores)) = false)
  /\ (is_nan (score_at scores 0) = true -> bestIndex scores = 0)
  /\ bestIndex [nan; 1%float; 2%float] = 0
  /\ bestIndex [1%float; nan; 2%float] = 2.
Proof.
  split; [apply bestIndex_number|]. split; [apply bestIndex_nan_first|].
  split; reflexivity.
Qed.

(** ** The cut loop on a rendered overlay *)

Section CutOverlay.

Variable img : list N.

Lemma cut_pixels_length px w h :
  length (cut_pixels img px w h) = length px.
Proof. apply (cut_loop img px (w * h)). Qed.

Lemma cut_pixels_alpha px w h i :
  cut_pixels img px w h !! (4 * i + 3) = px !! (4 * i + 3).
Proof.
  destruct (decide (4 * i + 3 < length px)) as [Hi|Hi].
  - unfold cut_pixels. destruct (cut_loop img px (w * h)) as [_ H].
    rewrite (H _ Hi).
    replace ((4 * i + 3) mod 4) with 3 by (apply Nat.mod_unique with i; lia).
    rewrite (bool_decide_eq_false_2 (3 < 3)) by lia.
    rewrite andb_false_r. reflexivity.
  - rewrite !lookup_ge_None_2; rewrite ?cut_pixels_length; try lia.
    reflexivity.
Qed.

Lemma cut_pixels_beyond px w h q :
  4 * (w * h) <= q -> cut_pixels img px w h !! q = px !! q.
Proof.
  intros Hq. destruct (decide (q < length px)) as [Hl|Hl].
  - unfold cut_pixels. destruct (cut_loop img px (w * h)) as [_ H].
    rewrite (H _ Hl).
    rewrite (bool_decide_eq_false_2 (q / 4 < w * h)).
    + rewrite andb_false_r. reflexivity.
    + pose proof (Nat.div_mod_eq q 4).
      pose proof (Nat.mod_upper_bound q 4 ltac:(lia)). lia.
  - rewrite !lookup_ge_None_2; rewrite ?cut_pixels_length; try lia.
    reflexivity.
Qed.

Lemma cut_pixels_transparent px w h i c :
  opaque px i = false -> c < 4 ->
  cut_pixels img px w h !! (4 * i + c) = px !! (4 * i + c).
Proof.
  intros Ho Hc. destruct (decide (4 * i + c < length px)) as [Hl|Hl].
  - unfold cut_pixels. destruct (cut_loop img px (w * h)) as [_ H].
    rewrite (H _ Hl).
    replace ((4 * i + c) / 4) with i by (apply Nat.div_unique with c; lia).
    rewrite Ho. reflexivity.
  - rewrite !lookup_ge_None_2; rewrite ?cut_pixels_length; try lia.
    reflexivity.
Qed.

End CutOverlay.

(** X3. The cut loop never changes the size of the buffer nor any alpha
    byte; it leaves every byte past the [w * h] pixels it visits, and every
    byte of a pixel whose alpha is 0, as the overlay held it. *)
Theorem cut_keeps_alpha (img px : list N) (w h : nat) :
  length (cut_pixels img px w h) = length px
  /\ (forall i, cut_pixels img px w h !! (4 * i + 3) = px !! (4 * i + 3))
  /\ (forall q, 4 * (w * h) <= q -> cut_pixels img px w h !! q = px !! q)
  /\ (forall i c,
        opaque px i = false -> c < 4 ->
        cut_pixels img px w h !! (4 * i + c) = px !! (4 * i + c)).
Proof.
  split; [apply cut_pixels_length|]. split; [apply cut_pixels_alpha|].
  split; [apply cut_pixels_beyond|]. apply cut_pixels_transparent.
Qed.

(** X4. Rendering and then cutting: every pixel of the exported buffer
    inside the selected candidate holds the source image's three colour
    bytes at full opacity, every pixel outside it is transparent black; a
    source image too short for the pixel contributes zeros. *)
Theorem cut_of_overlay (img : list N) (mask : RawImage)
    (scores : list float) (p : nat) :
  p < width mask * height mask ->
  let overlay := overlay_of mask scores in
  rgba_at (cut_pixels img (pixels overlay) (canvas_width overlay)
             (canvas_height overlay)) p
  = Some (if is_inside (label_at (length scores) (bestIndex scores)
                          (data mask) p)
          then (source_byte img p 0, source_byte img p 1,
                source_byte img p 2, 255%N)
          else transparent).
Proof.
  intros Hp overlay. subst overlay.
  cbn [overlay_of pixels canvas_width canvas_height].
  pose proof (fill_mask_pixel (length scores) (bestIndex scores) (data mask)
                (width mask) (height mask) p Hp) as Hpx.
  destruct (is_inside _).
  - rewrite (cut_pixels_pixel img _ _ _ p _ _ _ _ Hp Hpx). reflexivity.
  - rewrite (cut_pixels_pixel img _ _ _ p _ _ _ _ Hp Hpx). reflexivity.
Qed.

(** ** Invariants of the event loop *)

Section Invariants.

Context {P : Platform}.

#[local] Arguments blank : simpl never.
#[local] Arguments fill_mask : simpl never.
#[local] Arguments cut_pixels : simpl never.
#[local] Arguments bestIndex : simpl never.
#[local] Arguments getPoint : simpl never.

Lemma run_app (s : State) (evs evs' : list Event) :
  run s (evs ++ evs') = run (run s evs) evs'.
Proof. apply foldl_app. Qed.

Lemma run_cons (s : State) (ev : Event) (evs : list Event) :
  run s (ev :: evs) = run (step s ev) evs.
Proof. reflexivity. Qed.

(** An invariant of every step is an invariant of every run. *)
Lemma run_invariant (I : State -> Prop) :
  (forall s ev, I s -> I (step s ev)) ->
  forall evs s, I s -> I (run s evs).
Proof.
  intros Hstep evs. induction evs as [|ev evs IH]; intros s H; [exact H|].
  apply IH, Hstep, H.
Qed.

(** *** The icons and the point session *)

Ltac mirror_finish :=
  simpl in *;
  try match goal with
      | E : negb ?b = _ |- _ => destruct b; simpl in *; try discriminate
      end;
  simplify_eq; auto; congruence.

Lemma icons_mirror_step (s : State) (ev : Event) :
  icons_mirror_points s -> icons_mirror_points (step s ev).
Proof.
  intros H.
  destruct ev as [e|e| | | |url| |key| |n r];
    try solve [revert H; unfold icons_mirror_points; destruct s; simpl;
               intros H; unfold_handlers; js_cases; mirror_finish].
  unfold step, handler, settle.
  destruct (pending s !! n) as [t|] eqn:Ht; [|exact H].
  destruct (resume t r) as [c|] eqn:Hc; [|exact H].
  destruct t, r; simpl in Hc; simplify_eq;
    try solve [revert H; unfold icons_mirror_points; destruct s; simpl;
               intros H; unfold_handlers; js_cases; mirror_finish].
  destruct (decode_after_post_frame (post_process_masks p pred_masks
              original reshaped) iou_scores
              (set_pending (delete n (pending s)) s))
    as (b1 & b2 & c & t & l & ->).
  revert H. unfold icons_mirror_points. destruct s; simpl. auto.
Qed.

(** *** The model and the processor *)

Lemma model_processor_step (s : State) (ev : Event) :
  model s = processor s /\ is_null (model s) = false ->
  model (step s ev) = processor (step s ev)
  /\ is_null (model (step s ev)) = false.
Proof.
  intros H.
  destruct ev as [e|e| | | |url| |key| |n r];
    try solve [revert H; destruct s; simpl;
               intros H; unfold_handlers; js_cases; simpl in *; auto].
  unfold step, handler, settle.
  destruct (pending s !! n) as [t|] eqn:Ht; [|exact H].
  destruct (resume t r) as [c|] eqn:Hc; [|exact H].
  destruct t, r; simpl in Hc; simplify_eq;
    try solve [revert H; destruct s; simpl;
               intros H; unfold_handlers; js_cases; simpl in *; auto].
  destruct (decode_after_post_frame (post_process_masks p pred_masks
              original reshaped) iou_scores
              (set_pending (delete n (pending s)) s))
    as (b1 & b2 & c & t & l & ->).
  revert H. destruct s; simpl. auto.
Qed.

(** *** What the cut handler emits *)

Lemma exports_paired_app (l : list Output) (b : Blob) :
  exports_paired l ->
  exports_paired
    (l ++ [Download "image.png" b; HttpPost AVIUTL2_MASK_URL "image/png" b]).
Proof.
  revert l. fix IH 1. intros [|[f b1|u t b1] [|[f2 b2|u2 t2 b2] l]];
    cbn [exports_paired app]; try tauto.
  intros (-> & -> & -> & -> & H). repeat split. apply IH, H.
Qed.

Lemma exports_paired_step (s : State) (ev : Event) :
  exports_paired (outputs s) -> exports_paired (outputs (step s ev)).
Proof.
  intros H.
  destruct ev as [e|e| | | |url| |key| |n r];
    try solve [revert H; destruct s; cbn [outputs];
               intros H; unfold_handlers; js_cases; exact H].
  unfold step, handler, settle.
  destruct (pending s !! n) as [t|] eqn:Ht; [|exact H].
  destruct (resume t r) as [c|] eqn:Hc; [|exact H].
  destruct t, r; simpl in Hc; simplify_eq;
    try solve [revert H; destruct s; cbn [outputs];
               intros H; unfold_handlers; js_cases; exact H].
  - destruct (decode_after_post_frame (post_process_masks p pred_masks
                original reshaped) iou_scores
                (set_pending (delete n (pending s)) s))
      as (b1 & b2 & c & t & l & ->).
    revert H. destruct s; simpl. auto.
  - revert H. destruct s; cbn [outputs]. intros H.
    unfold cut_after_blob, output, spawn, modify, mbind, Js_bind.
    cbn [fst snd outputs set_outputs set_pending set_statusLabel].
    rewrite <- app_assoc. apply exports_paired_app, H.
Qed.

(** *** The overlay bitmap *)

Lemma canvas_well_formed_blank (w h : nat) :
  canvas_well_formed (mkCanvas w h (blank w h)).
Proof. unfold canvas_well_formed. cbn. apply length_blank. Qed.

Lemma canvas_well_formed_clearRect (c : Canvas) :
  canvas_well_formed (clearRect c).
Proof. apply canvas_well_formed_blank. Qed.

Lemma updateMaskOverlay_canvas (mask : RawImage) (scores : list float)
    (s : State) :
  canvas_well_formed (maskCanvas s) ->
  canvas_well_formed (maskCanvas (snd (updateMaskOverlay mask scores s))).
Proof.
  intros H. revert H. destruct s. unfold updateMaskOverlay, createImageData.
  unfold canvas_well_formed.
  js_cases; intros H; cbn;
    rewrite ?fill_mask_length, ?length_blank; auto.
Qed.

Lemma decode_after_post_canvas (mask : RawImage) (scores : list float)
    (s : State) :
  canvas_well_formed (maskCanvas s) ->
  canvas_well_formed (maskCanvas (snd (decode_after_post mask scores s))).
Proof.
  intros H. rewrite decode_after_post_stages. cbv zeta.
  pose proof (updateMaskOverlay_canvas mask scores (set_isDecoding false s) H)
    as Hd.
  destruct (fst (updateMaskOverlay mask scores (set_isDecoding false s)));
    [|exact Hd].
  destruct (decodePending _); [|exact Hd].
  match goal with
  | |- context [decode ?x] =>
      destruct (decode_frame x) as (b1 & b2 & l & ->)
  end.
  exact Hd.
Qed.

Lemma canvas_well_formed_step (s : State) (ev : Event) :
  canvas_well_formed (maskCanvas s) ->
  canvas_well_formed (maskCanvas (step s ev)).
Proof.
  intros H.
  destruct ev as [e|e| | | |url| |key| |n r];
    try solve [revert H; destruct s; cbn [maskCanvas];
               intros H; unfold_handlers; js_cases;
               auto using canvas_well_formed_blank,
                 canvas_well_formed_clearRect].
  unfold step, handler, settle.
  destruct (pending s !! n) as [t|] eqn:Ht; [|exact H].
  destruct (resume t r) as [c|] eqn:Hc; [|exact H].
  destruct t, r; simpl in Hc; simplify_eq;
    try solve [revert H; destruct s; cbn [maskCanvas];
               intros H; unfold_handlers; js_cases;
               auto using canvas_well_formed_blank,
                 canvas_well_formed_clearRect].
  apply decode_after_post_canvas. exact H.
Qed.

End Invariants.

(** ** What [decode] does, case by case *)

Section DecodeCases.

Context {P : Platform}.

#[local] Arguments blank : simpl never.
#[local] Arguments fill_mask : simpl never.
#[local] Arguments bestIndex : simpl never.
#[local] Arguments getPoint : simpl never.

Lemma scale_points_length (r : float * float) (lp : list Point) :
  length (concat (map (scale_point r) lp)) = 2 * length lp.
Proof.
  induction lp as [|p lp IH]; [reflexivity|].
  cbn [map concat length app scale_point]. rewrite IH. lia.
Qed.

(** [decode] either marks a rerun as owed, or throws with the busy flag
    set, or awaits the model with the tensors of the point list. *)
Lemma decode_cases (s : State) :
  (isDecoding s = true /\ snd (decode s) = set_decodePending true s)
  \/ (isDecoding s = false /\ snd (decode s) = set_isDecoding true s)
  \/ (isDecoding s = false
      /\ exists lp m pts,
           lastPoints s = Some lp
           /\ length pts = 2 * length lp
           /\ snd (decode s) =
                set_pending
                  (pending s ++
                     [AwaitModel m (imageEmbeddings s)
                        (mkTensor pts [1; 1; length lp; 2])
                        (mkTensor (map label lp) [1; 1; length lp])])
                  (set_isDecoding true s)).
Proof.
  destruct s. unfold decode, scale_points. cbn [isDecoding].
  js_cases;
    first [ left; split; reflexivity
          | right; left; split; reflexivity
          | right; right; split; [reflexivity|];
            do 3 eexists; split; [reflexivity|];
            split; [|reflexivity];
            first [apply scale_points_length | reflexivity] ].
Qed.

Lemma decode_pending (s : State) :
  pending (snd (decode s)) = pending s
  \/ exists m emb pts lbls,
       pending (snd (decode s)) = pending s ++ [AwaitModel m emb pts lbls].
Proof.
  destruct (decode_cases s)
    as [[_ ->]|[[_ ->]|[_ (lp & m & pts & _ & _ & ->)]]];
    [left; reflexivity|left; reflexivity|right; eauto].
Qed.

Lemma decode_after_post_pending (mask : RawImage) (scores : list float)
    (s : State) :
  pending (snd (decode_after_post mask scores s)) = pending s
  \/ exists m emb pts lbls,
       pending (snd (decode_after_post mask scores s))
       = pending s ++ [AwaitModel m emb pts lbls].
Proof.
  rewrite decode_after_post_stages. cbv zeta.
  destruct (updateMaskOverlay_frame mask scores (set_isDecoding false s))
    as (c & t & Hd).
  destruct (fst (updateMaskOverlay mask scores (set_isDecoding false s)));
    rewrite Hd; [|left; reflexivity].
  destruct (decodePending _); [|left; reflexivity].
  match goal with
  | |- context [decode ?x] => destruct (decode_pending x) as [H|H]
  end; [left|right]; exact H.
Qed.

(** What [decode_after_post] leaves outside the decode pipeline's own
    fields, the canvas and the status line. *)
Lemma decode_after_post_button (mask : RawImage) (scores : list float)
    (s : State) :
  loadFromAviUtl2Button_disabled (snd (decode_after_post mask scores s))
  = loadFromAviUtl2Button_disabled s.
Proof.
  destruct (decode_after_post_frame mask scores s)
    as (b1 & b2 & c & t & l & ->).
  reflexivity.
Qed.

End DecodeCases.

(** ** One frame load at a time *)

Section FrameLoad.

Context {P : Platform}.

#[local] Arguments getPoint : simpl never.

Lemma filter_delete_length {A} (f : A -> bool) (l : list A) (n : nat)
    (x : A) :
  l !! n = Some x ->
  length (List.filter f (delete n l)) + (if f x then 1 else 0)
  = length (List.filter f l).
Proof.
  revert n. induction l as [|a l IH]; intros [|n] H; try discriminate H.
  - injection H as ->. cbn [delete list_delete List.filter].
    destruct (f x); cbn [length]; lia.
  - cbn in H. specialize (IH n H).
    change (delete (S n) (a :: l)) with (a :: delete n l).
    cbn [List.filter]. destruct (f a); cbn [length]; lia.
Qed.

Lemma filter_snoc_length {A} (f : A -> bool) (l : list A) (x : A) :
  length (List.filter f (l ++ [x]))
  = length (List.filter f l) + (if f x then 1 else 0).
Proof.
  rewrite List.filter_app, length_app. cbn [List.filter].
  destruct (f x); reflexivity.
Qed.

Ltac guarded_finish :=
  cbn [pending loadFromAviUtl2Button_disabled] in *;
  rewrite ?filter_snoc_length; cbn [is_frame_load_task];
  repeat match goal with
         | |- context [if ?b then _ else _] => destruct b
         | H : context [if ?b then _ else _] |- _ => destruct b
         end;
  simplify_eq; lia.

Lemma frame_load_guarded_step (s : State) (ev : Event) :
  frame_load_guarded s -> frame_load_guarded (step s ev).
Proof.
  intros H.
  destruct ev as [e|e| | | |url| |key| |n r].
  - (* mousedown *)
    revert H. unfold frame_load_guarded, frame_loads_in_flight.
    rewrite mousedown_eq.
    destruct (negb _ && negb _); [auto|].
    destruct (is_null _); [auto|].
    unfold open_session, push_point.
    destruct (isMultiMaskMode s);
      (destruct (lastPoints _); [|auto]);
      match goal with
      | |- context [decode ?x] =>
          destruct (decode_frame x) as (b1 & b2 & q & Hf);
          destruct (decode_pending x) as [Hp|(m & emb & pts & lbls & Hp)];
          rewrite Hp; rewrite Hf
      end; cbn [pending loadFromAviUtl2Button_disabled set_pending
                  set_decodePending set_isDecoding set_icons set_lastPoints
                  set_cutButton_disabled set_isMultiMaskMode];
      rewrite ?filter_snoc_length; cbn [is_frame_load_task]; intros <-; lia.
  - revert H. unfold frame_load_guarded, frame_loads_in_flight.
    rewrite mousemove_eq.
    destruct (is_null _ || _); [auto|].
    match goal with
    | |- context [decode ?x] =>
        destruct (decode_frame x) as (b1 & b2 & q & Hf);
        destruct (decode_pending x) as [Hp|(m & emb & pts & lbls & Hp)];
        rewrite Hp; rewrite Hf
    end; cbn [pending loadFromAviUtl2Button_disabled set_pending
                set_decodePending set_isDecoding set_lastPoints];
    rewrite ?filter_snoc_length; cbn [is_frame_load_task]; intros <-; lia.
  - exact H.
  - exact H.
  - revert H. unfold frame_load_guarded, frame_loads_in_flight.
    destruct s. unfold_handlers. js_cases; intros H; guarded_finish.
  - revert H. unfold frame_load_guarded, frame_loads_in_flight.
    destruct s. unfold_handlers. js_cases; intros H; guarded_finish.
  - revert H. unfold frame_load_guarded, frame_loads_in_flight.
    destruct s. unfold_handlers. js_cases; intros H; guarded_finish.
  - revert H. unfold frame_load_guarded, frame_loads_in_flight.
    destruct s. unfold_handlers. js_cases; intros H; guarded_finish.
  - revert H. unfold frame_load_guarded, frame_loads_in_flight.
    destruct s. unfold_handlers. js_cases; intros H; guarded_finish.
  - unfold step, handler, settle.
    destruct (pending s !! n) as [t|] eqn:Ht; [|exact H].
    destruct (resume t r) as [c|] eqn:Hc; [|exact H].
    pose proof (filter_delete_length is_frame_load_task _ _ _ Ht) as Hdel.
    revert H. unfold frame_load_guarded, frame_loads_in_flight.
    destruct t, r; simpl in Hc; simplify_eq;
      try solve [destruct s; cbn [pending] in *; unfold_handlers;
                 js_cases; intros H; cbn [is_frame_load_task] in Hdel;
                 guarded_finish].
    rewrite decode_after_post_button.
    match goal with
    | |- context [decode_after_post ?m ?sc ?x] =>
        destruct (decode_after_post_pending m sc x)
          as [Hp|(m' & emb & pts & lbls & Hp)];
        rewrite Hp
    end; cbn [pending set_pending loadFromAviUtl2Button_disabled
                is_frame_load_task] in *;
      rewrite ?filter_snoc_length; cbn [is_frame_load_task]; intros <-; lia.
Qed.

End FrameLoad.

(** ** Every inference call is well formed *)

Section InferenceCalls.

Context {P : Platform}.

#[local] Arguments getPoint : simpl never.
#[local] Arguments decode : simpl never.
#[local] Arguments inference_call_ok : simpl never.

Lemma getPoint_label (e : MouseEvt) : label_ok (label (getPoint e)) = true.
Proof. unfold getPoint. cbn [label]. destruct (button e =? 2)%Z; reflexivity. Qed.

Lemma inference_call_ok_spawn (m : ModelKey) (emb : option Embeddings)
    (pts : list float) (lp : list Point) :
  is_null emb = false ->
  lp <> [] ->
  Forall (fun p => label_ok (label p) = true) lp ->
  length pts = 2 * length lp ->
  inference_call_ok
    (AwaitModel m emb (mkTensor pts [1; 1; length lp; 2])
       (mkTensor (map label lp) [1; 1; length lp])) = true.
Proof.
  intros He Hne Hl Hlen. unfold inference_call_ok.
  cbn [tensor_data dims]. rewrite length_map, He, Hlen, Nat.eqb_refl.
  rewrite !bool_decide_eq_true_2 by reflexivity.
  assert ((0 <? length lp) = true) as ->.
  { apply Nat.ltb_lt. destruct lp; [congruence|cbn; lia]. }
  cbn [negb andb]. apply forallb_forall. intros l Hin.
  apply in_map_iff in Hin as (p & <- & Hin).
  rewrite Forall_forall in Hl. apply Hl. apply list_elem_of_In, Hin.
Qed.

(** A request from a state whose store was just given the list [lp]. *)
Lemma decode_ready_request (s x : State) (lp : list Point) :
  decode_ready s ->
  is_null (imageEmbeddings s) = false ->
  lastPoints x = Some lp ->
  lp <> [] ->
  Forall (fun p => label_ok (label p) = true) lp ->
  decodePending x = decodePending s ->
  pending x = pending s ->
  imageEmbeddings x = imageEmbeddings s ->
  decode_ready (snd (decode x)).
Proof.
  intros (Ha & Hb & Hc) He Hl Hne Hlab Hdp Hp Hemb.
  destruct (decode_cases x)
    as [[_ ->]|[[_ ->]|[_ (lp' & m & pts & Hl' & Hlen & ->)]]].
  - split; [|split].
    + intros _. change (is_null (imageEmbeddings x) = false). congruence.
    + unfold point_list_ok.
      change (lastPoints (set_decodePending true x)) with (lastPoints x).
      rewrite Hl. auto.
    + change (pending (set_decodePending true x)) with (pending x).
      rewrite Hp. exact Hc.
  - split; [|split].
    + change (decodePending x = true -> is_null (imageEmbeddings x) = false).
      intros _. congruence.
    + unfold point_list_ok.
      change (lastPoints (set_isDecoding true x)) with (lastPoints x).
      rewrite Hl. auto.
    + change (pending (set_isDecoding true x)) with (pending x).
      rewrite Hp. exact Hc.
  - rewrite Hl in Hl'. injection Hl' as <-. split; [|split].
    + change (decodePending x = true -> is_null (imageEmbeddings x) = false).
      intros _. congruence.
    + unfold point_list_ok.
      change (lastPoints (set_pending _ _)) with (lastPoints x).
      rewrite Hl. auto.
    + cbn [pending set_pending]. apply Forall_app. split.
      * rewrite Hp. exact Hc.
      * repeat constructor. apply inference_call_ok_spawn; auto.
        congruence.
Qed.

Lemma decode_ready_mousedown (s : State) (e : MouseEvt) :
  decode_ready s -> decode_ready (step s (MouseDown e)).
Proof.
  intros H. rewrite mousedown_eq.
  destruct (negb _ && negb _); [exact H|].
  destruct (is_null (imageEmbeddings s)) eqn:He; [exact H|].
  unfold open_session.
  destruct (isMultiMaskMode s).
  - destruct (lastPoints s) as [lp|] eqn:Hl; [|exact H].
    apply (decode_ready_request s _ (lp ++ [getPoint e]) H He);
      try reflexivity.
    + destruct lp; discriminate.
    + apply Forall_app. split.
      * destruct H as (_ & Hb & _). unfold point_list_ok in Hb.
        rewrite Hl in Hb. apply Hb.
      * repeat constructor. apply getPoint_label.
  - cbn [lastPoints set_cutButton_disabled set_isMultiMaskMode
           set_lastPoints].
    apply (decode_ready_request s _ ([] ++ [getPoint e]) H He);
      try reflexivity.
    + discriminate.
    + repeat constructor. apply getPoint_label.
Qed.

Lemma decode_ready_mousemove (s : State) (e : MouseEvt) :
  decode_ready s -> decode_ready (step s (MouseMove e)).
Proof.
  intros H. rewrite mousemove_eq.
  destruct (is_null (imageEmbeddings s)) eqn:He; [exact H|].
  destruct (isMultiMaskMode s); [exact H|]. cbn [orb].
  apply (decode_ready_request s _ [getPoint e] H He); try reflexivity.
  - discriminate.
  - repeat constructor. apply getPoint_label.
Qed.

(** The rerun at the end of [decode_after_post]. *)
Lemma decode_ready_after_post (mask : RawImage) (scores : list float)
    (s : State) :
  decode_ready s -> decode_ready (snd (decode_after_post mask scores s)).
Proof.
  intros H. rewrite decode_after_post_stages. cbv zeta.
  destruct (updateMaskOverlay_frame mask scores (set_isDecoding false s))
    as (c & t & Hd).
  assert (decode_ready (set_maskCanvas c
                          (set_statusLabel t (set_isDecoding false s))))
    as Hdrawn by exact H.
  destruct (fst (updateMaskOverlay mask scores (set_isDecoding false s)));
    rewrite Hd; [|exact Hdrawn].
  change (decodePending (set_maskCanvas c _)) with (decodePending s).
  destruct (decodePending s) eqn:Hdp; [|exact Hdrawn].
  destruct H as (Ha & Hb & Hc).
  set (x := set_decodePending false _).
  destruct (lastPoints s) as [lp|] eqn:Hl.
  - unfold point_list_ok in Hb. rewrite Hl in Hb. destruct Hb as [Hne Hlab].
    assert (decode_ready (set_decodePending false s)) as Hs.
    { split; [discriminate|]. split; [|exact Hc].
      unfold point_list_ok.
      change (lastPoints (set_decodePending false s)) with (lastPoints s).
      rewrite Hl. auto. }
    apply (decode_ready_request (set_decodePending false s) x lp Hs);
      auto.
  - destruct (decode_cases x)
      as [[_ ->]|[[_ ->]|[_ (lp' & m & pts & Hl' & _)]]].
    + split; [|split]; [intros _; apply Ha; exact Hdp| |exact Hc].
      unfold point_list_ok.
      change (lastPoints (set_decodePending true x)) with (lastPoints s).
      rewrite Hl. exact I.
    + split; [|split]; [discriminate| |exact Hc].
      unfold point_list_ok.
      change (lastPoints (set_isDecoding true x)) with (lastPoints s).
      rewrite Hl. exact I.
    + change (lastPoints x) with (lastPoints s) in Hl'. congruence.
Qed.

Ltac ready_finish :=
  cbn [decodePending imageEmbeddings lastPoints pending is_null] in *;
  repeat match goal with
         | H : _ /\ _ |- _ => destruct H
         end;
  repeat split; auto; try discriminate;
  try (apply Forall_app; split; [|repeat constructor]);
  auto using Forall_delete.

Lemma decode_ready_step (s : State) (ev : Event) :
  decode_ready s -> decode_ready (step s ev).
Proof.
  intros H.
  destruct ev as [e|e| | | |url| |key| |n r].
  - apply decode_ready_mousedown, H.
  - apply decode_ready_mousemove, H.
  - revert H. unfold decode_ready, point_list_ok. destruct s.
    unfold_handlers. js_cases; intros H; ready_finish.
  - revert H. unfold decode_ready, point_list_ok. destruct s.
    unfold_handlers. js_cases; intros H; ready_finish.
  - revert H. unfold decode_ready, point_list_ok. destruct s.
    unfold_handlers. js_cases; intros H; ready_finish.
  - revert H. unfold decode_ready, point_list_ok. destruct s.
    unfold_handlers. js_cases; intros H; ready_finish.
  - revert H. unfold decode_ready, point_list_ok. destruct s.
    unfold_handlers. js_cases; intros H; ready_finish.
  - revert H. unfold decode_ready, point_list_ok. destruct s.
    unfold_handlers. js_cases; intros H; ready_finish.
  - revert H. unfold decode_ready, point_list_ok. destruct s.
    unfold_handlers. js_cases; intros H; ready_finish.
  - unfold step, handler, settle.
    destruct (pending s !! n) as [t|] eqn:Ht; [|exact H].
    destruct (resume t r) as [c|] eqn:Hc; [|exact H].
    assert (decode_ready (set_pending (delete n (pending s)) s)) as Hdel.
    { destruct H as (Ha & Hb & Hc'). split; [exact Ha|]. split; [exact Hb|].
      apply Forall_delete, Hc'. }
    clear H Ht. revert Hdel. generalize (delete n (pending s)). intros l.
    destruct t, r; simpl in Hc; simplify_eq;
      try solve [unfold decode_ready, point_list_ok; destruct s;
                 unfold_handlers; js_cases; intros H; ready_finish].
    apply decode_ready_after_post.
Qed.

End InferenceCalls.

(** ** The busy flags as invariants of the event loop *)

(** Opens a state into its fields. *)
Ltac open_state s :=
  destruct s as [s_enc s_dec s_owed s_pts s_multi s_img s_proc s_emb s_key
                 s_mdl s_prc s_status s_cut s_load s_upload s_bg s_icons
                 s_canvas s_tasks s_outs].

Section FlagInvariants.

Context {P : Platform}.

#[local] Arguments blank : simpl never.
#[local] Arguments fill_mask : simpl never.
#[local] Arguments cut_pixels : simpl never.
#[local] Arguments bestIndex : simpl never.
#[local] Arguments getPoint : simpl never.
#[local] Arguments decode : simpl never.



Lemma filter_none_lookup {A} (f : A -> bool) (l : list A) (n : nat)
    (x : A) :
  l !! n = Some x -> length (List.filter f l) = 0 -> f x = false.
Proof.
  intros H Hlen. pose proof (filter_delete_length f l n x H) as Hd.
  destruct (f x); [lia|reflexivity].
Qed.

(** *** One decode at a time *)



Ltac flight_finish :=
  cbn [pending isDecoding isEncoding] in *;
  rewrite ?filter_snoc_length; cbn [is_decode_task is_encode_task] in *;
  repeat match goal with
         | |- context [if ?b then _ else _] => destruct b
         | H : context [if ?b then _ else _] |- _ => destruct b
         end;
  simplify_eq; try lia.


(** *** A decode that failed *)

Lemma decode_locked_step (s : State) (ev : Event) :
  unguarded_reset ev = false ->
  decode_locked s -> decode_locked (step s ev).
Proof.
  intros Hev [Hb Hn].
  destruct ev as [e|e| | | |url| |key| |n r]; try discriminate Hev.
  - destruct (pointer_while_busy s e Hb) as [[H1 H2] _].
    split; [exact H1|]. unfold decodes_in_flight. rewrite H2. exact Hn.
  - destruct (pointer_while_busy s e Hb) as [_ [H1 H2]].
    split; [exact H1|]. unfold decodes_in_flight. rewrite H2. exact Hn.
  - split; [exact Hb|exact Hn].
  - revert Hb Hn. unfold decode_locked, decodes_in_flight.
    open_state s. unfold_handlers. js_cases; intros Hb Hn;
      (split; [try exact Hb; try reflexivity|]);
      flight_finish.
  - revert Hb Hn. unfold decode_locked, decodes_in_flight.
    open_state s. unfold_handlers. js_cases; intros Hb Hn;
      (split; [try exact Hb; try reflexivity|]);
      flight_finish.
  - revert Hb Hn. unfold decode_locked, decodes_in_flight.
    open_state s. unfold_handlers. js_cases; intros Hb Hn;
      (split; [try exact Hb; try reflexivity|]);
      flight_finish.
  - revert Hb Hn. unfold decode_locked, decodes_in_flight.
    open_state s. unfold_handlers. js_cases; intros Hb Hn;
      (split; [try exact Hb; try reflexivity|]);
      flight_finish.
  - unfold step, handler, settle.
    destruct (pending s !! n) as [t|] eqn:Ht; [|split; assumption].
    destruct (resume t r) as [c|] eqn:Hc; [|split; assumption].
    pose proof (filter_none_lookup is_decode_task _ _ _ Ht Hn) as Hf.
    pose proof (filter_delete_length is_decode_task _ _ _ Ht) as Hdel.
    rewrite Hf in Hdel.
    revert Hb Hn. unfold decode_locked, decodes_in_flight.
    destruct t, r; simpl in Hc; simplify_eq; try discriminate Hf;
      open_state s; cbn [pending] in *; unfold_handlers;
      js_cases; intros Hb Hn;
      (split; [try exact Hb; try reflexivity|]);
      flight_finish.
Qed.

(** *** One load at a time *)

Lemma encode_single_flight_decode (x : State) :
  encode_single_flight x -> encode_single_flight (snd (decode x)).
Proof.
  unfold encode_single_flight, encodes_in_flight. intros H.
  destruct (decode_cases x)
    as [[Hd ->]|[[Hd ->]|[Hd (lp & m & pts & _ & _ & ->)]]];
    [exact H|exact H|].
  cbn [pending set_pending set_isDecoding isEncoding].
  rewrite filter_snoc_length. cbn [is_encode_task]. lia.
Qed.

Lemma encode_single_flight_after_post (mask : RawImage)
    (scores : list float) (x : State) :
  encode_single_flight x ->
  encode_single_flight (snd (decode_after_post mask scores x)).
Proof.
  intros H. rewrite decode_after_post_stages. cbv zeta.
  destruct (updateMaskOverlay_frame mask scores (set_isDecoding false x))
    as (c & t & Hd).
  assert (encode_single_flight
            (set_maskCanvas c (set_statusLabel t (set_isDecoding false x))))
    as Hdrawn by exact H.
  destruct (fst (updateMaskOverlay mask scores (set_isDecoding false x)));
    rewrite Hd; [|exact Hdrawn].
  destruct (decodePending _); [|exact Hdrawn].
  apply encode_single_flight_decode. exact Hdrawn.
Qed.

Lemma encode_single_flight_step (s : State) (ev : Event) :
  unguarded_reset ev = false ->
  encode_single_flight s -> encode_single_flight (step s ev).
Proof.
  intros Hev H.
  destruct ev as [e|e| | | |url| |key| |n r]; try discriminate Hev.
  - rewrite mousedown_eq.
    destruct (negb _ && negb _); [exact H|].
    destruct (is_null _); [exact H|].
    unfold open_session, push_point.
    destruct (isMultiMaskMode s);
      (destruct (lastPoints _); [|exact H]);
      apply encode_single_flight_decode; exact H.
  - rewrite mousemove_eq.
    destruct (is_null _ || _); [exact H|].
    apply encode_single_flight_decode. exact H.
  - exact H.
  - revert H. unfold encode_single_flight, encodes_in_flight.
    open_state s. unfold_handlers. js_cases; intros H;
      flight_finish.
  - revert H. unfold encode_single_flight, encodes_in_flight.
    open_state s. unfold_handlers. js_cases; intros H;
      flight_finish.
  - revert H. unfold encode_single_flight, encodes_in_flight.
    open_state s. unfold_handlers. js_cases; intros H;
      flight_finish.
  - revert H. unfold encode_single_flight, encodes_in_flight.
    open_state s. unfold_handlers. js_cases; intros H;
      flight_finish.
  - unfold step, handler, settle.
    destruct (pending s !! n) as [t|] eqn:Ht; [|exact H].
    destruct (resume t r) as [c|] eqn:Hc; [|exact H].
    pose proof (filter_delete_length is_encode_task _ _ _ Ht) as Hdel.
    assert (encode_single_flight (set_pending (delete n (pending s)) s))
      as Hrest.
    { unfold encode_single_flight, encodes_in_flight in *.
      cbn [pending set_pending isEncoding].
      destruct (is_encode_task t); lia. }
    revert H. unfold encode_single_flight, encodes_in_flight.
    destruct t, r; simpl in Hc; simplify_eq;
      try solve [open_state s; cbn [pending] in *; unfold_handlers;
                 js_cases; intros H; cbn [is_encode_task] in Hdel;
                 flight_finish].
    intros _. apply encode_single_flight_after_post. exact Hrest.
Qed.

(** *** Where an embedding comes from *)

Lemma embedding_only_from_encode (s : State) (ev : Event) :
  imageEmbeddings s = None ->
  completes_embedding s ev = false ->
  imageEmbeddings (step s ev) = None.
Proof.
  intros He Hev.
  destruct ev as [e|e| | | |url| |key| |n r].
  - rewrite (proj1 (pointer_without_embedding s e
                      ltac:(rewrite He; reflexivity))). exact He.
  - rewrite (proj2 (pointer_without_embedding s e
                      ltac:(rewrite He; reflexivity))). exact He.
  - exact He.
  - reflexivity.
  - revert He. open_state s. unfold_handlers. js_cases; auto.
  - revert He. open_state s. unfold_handlers. js_cases; auto.
  - revert He. open_state s. unfold_handlers. js_cases; auto.
  - reflexivity.
  - revert He. open_state s. unfold_handlers. js_cases; auto.
  - revert Hev. unfold completes_embedding. unfold step, handler, settle.
    destruct (pending s !! n) as [t|] eqn:Ht; [|intros _; exact He].
    destruct (resume t r) as [c|] eqn:Hc; [|intros _; exact He].
    destruct t, r; simpl in Hc; simplify_eq; intros Hev;
      try discriminate Hev;
      try solve [revert He; open_state s; unfold_handlers; js_cases; auto].
    destruct (decode_after_post_frame (post_process_masks p pred_masks
                original reshaped) iou_scores
                (set_pending (delete n (pending s)) s))
      as (b1 & b2 & c & t & l & ->).
    exact He.
Qed.

Lemma no_embedding_run (evs : list Event) (s : State) :
  imageEmbeddings s = None ->
  no_embedding_arrives s evs = true ->
  imageEmbeddings (run s evs) = None.
Proof.
  revert s. induction evs as [|ev evs IH]; intros s He H; [exact He|].
  cbn [no_embedding_arrives] in H. apply andb_true_iff in H as [H1 H2].
  apply negb_true_iff in H1. rewrite run_cons.
  apply IH; [apply embedding_only_from_encode; assumption|exact H2].
Qed.

(** *** A page without point session *)

Ltac quiet_finish Hdel :=
  cbn [pending lastPoints isMultiMaskMode icons cutButton_disabled
         maskCanvas canvas_width canvas_height pixels imageEmbeddings] in *;
  repeat match goal with
         | H : _ /\ _ |- _ => destruct H
         end;
  simplify_eq;
  repeat split; auto;
  rewrite ?filter_snoc_length; cbn [is_decode_task] in *; try lia.

Lemma quiet_step (s : State) (ev : Event) :
  imageEmbeddings s = None ->
  quiet s -> quiet (step s ev).
Proof.
  intros He H.
  destruct ev as [e|e| | | |url| |key| |n r].
  - rewrite (proj1 (pointer_without_embedding s e
                      ltac:(rewrite He; reflexivity))). exact H.
  - rewrite (proj2 (pointer_without_embedding s e
                      ltac:(rewrite He; reflexivity))). exact H.
  - revert H. unfold quiet, decodes_in_flight. open_state s.
    unfold_handlers. js_cases; intros H; quiet_finish H.
  - revert H. unfold quiet, decodes_in_flight. open_state s.
    unfold_handlers. js_cases; intros H; quiet_finish H.
  - revert H. unfold quiet, decodes_in_flight. open_state s.
    unfold_handlers. js_cases; intros H; quiet_finish H.
  - revert H. unfold quiet, decodes_in_flight. open_state s.
    unfold_handlers. js_cases; intros H; quiet_finish H.
  - revert H. unfold quiet, decodes_in_flight. open_state s.
    unfold_handlers. js_cases; intros H; quiet_finish H.
  - revert H. unfold quiet, decodes_in_flight. open_state s.
    unfold_handlers. js_cases; intros H; quiet_finish H.
  - revert H. unfold quiet, decodes_in_flight. open_state s.
    unfold_handlers. js_cases; intros H; quiet_finish H.
  - unfold step, handler, settle.
    destruct (pending s !! n) as [t|] eqn:Ht; [|exact H].
    destruct (resume t r) as [c|] eqn:Hc; [|exact H].
    assert (decodes_in_flight s = 0) as Hn by apply H.
    pose proof (filter_none_lookup is_decode_task _ _ _ Ht Hn) as Hf.
    pose proof (filter_delete_length is_decode_task _ _ _ Ht) as Hdel.
    rewrite Hf in Hdel. clear Hn.
    revert H. unfold quiet, decodes_in_flight.
    destruct t, r; simpl in Hc; simplify_eq; try discriminate Hf;
      open_state s; cbn [pending] in *; unfold_handlers;
      js_cases; intros H; quiet_finish Hdel.
Qed.

Lemma quiet_run (evs : list Event) (s : State) :
  quiet s -> without_embedding s evs = true -> quiet (run s evs).
Proof.
  revert s. induction evs as [|ev evs IH]; intros s H Hw; [exact H|].
  cbn [without_embedding] in Hw. apply andb_true_iff in Hw as [H1 H2].
  rewrite run_cons. apply IH; [|exact H2].
  apply quiet_step; [|exact H].
  destruct (imageEmbeddings s); [discriminate H1|reflexivity].
Qed.

Lemma quiet_reset (s : State) :
  decodes_in_flight s = 0 -> quiet (step s ResetClick).
Proof. intros H. repeat split. exact H. Qed.

End FlagInvariants.

(** ** The decode coordinator, whatever else is in flight *)

Section Coordinating.

Context {P : Platform}.

#[local] Arguments decode : simpl never.
#[local] Arguments updateMaskOverlay : simpl never.
#[local] Arguments getPoint : simpl never.
#[local] Arguments overlay_of : simpl never.
#[local] Arguments cut_pixels : simpl never.

Variable σ : Session.
Hypothesis Hwell : answers_well σ.







(** *** What the other handlers leave alone *)





(** *** The awaits of the pipeline *)







End Coordinating.

(** ** Mask selection on scores that hold NaN *)

Section SelectBest.

Context {P : Platform}.

#[local] Arguments bestIndex : simpl never.

(** On numbers (no NaN) the order is total: not at most means above. *)
Lemma not_leb_ltb (a b : float) :
  is_nan a = false -> is_nan b = false ->
  (a <=? b)%float = false -> (b <? a)%float = true.
Proof.
  rewrite !is_nan_spec, FloatAxioms.ltb_spec, FloatAxioms.leb_spec.
  unfold SFltb, SFleb.
  intros Ha Hb. rewrite (SFcompare_antisym (Prim2SF a) (Prim2SF b)).
  destruct (SFcompare (Prim2SF a) (Prim2SF b)) as [[]|] eqn:E; simpl;
    try discriminate; try reflexivity.
  apply SFcompare_none in E. tauto.
Qed.

(** C4 (as amended). The scan returns an index of the candidate set. When
    the first score is a number, the selected score is a number, every
    score that is a number is at most the selected one, and every earlier
    score that is a number is strictly below it: the first maximum of the
    numeric scores, a NaN elsewhere being passed over. When the first score
    is NaN the scan stays at index 0 whatever the other scores. In every
    case no score compares above the selected one and no earlier score
    compares at least as great. The index is a function of the scores alone;
    for [0.7, 0.91, 0.91] it is 1, for a single candidate it is 0, and
    rendering the same candidates twice leaves the state of the first
    rendering. *)
Theorem select_best_score (scores : list float) :
  (scores = [] \/ bestIndex scores < length scores)
  /\ (is_nan (score_at scores 0) = false ->
      is_nan (score_at scores (bestIndex scores)) = false
      /\ (forall j,
            j < length scores ->
            is_nan (score_at scores j) = false ->
            (score_at scores j <=? score_at scores (bestIndex scores))%float
            = true)
      /\ (forall j,
            j < bestIndex scores ->
            is_nan (score_at scores j) = false ->
            (score_at scores j <? score_at scores (bestIndex scores))%float
            = true))
  /\ (is_nan (score_at scores 0) = true -> bestIndex scores = 0)
  /\ (forall j,
        gt (score_at scores j) (score_at scores (bestIndex scores)) = false)
  /\ (forall j,
        j < bestIndex scores ->
        (score_at scores (bestIndex scores) <=? score_at scores j)%float
        = false)
  /\ bestIndex [Demo.score_0_70; Demo.score_0_91; Demo.score_0_91] = 1
  /\ bestIndex [Demo.double_0_70; Demo.double_0_91; Demo.double_0_91] = 1
  /\ (forall x, bestIndex [x] = 0)
  /\ (forall mask (s : State),
        snd (updateMaskOverlay mask scores
               (snd (updateMaskOverlay mask scores s)))
        = snd (updateMaskOverlay mask scores s)).
Proof.
  split.
  { destruct scores as [|x l] eqn:E; [left; reflexivity|right].
    apply bestIndex_lt. discriminate. }
  split.
  { intros H0. pose proof (bestIndex_number scores H0) as Hb.
    split; [exact Hb|]. split.
    - intros j _ Hj. apply not_ltb_leb; [exact Hb|exact Hj|].
      exact (bestIndex_max scores j).
    - intros j Hlt Hj. apply not_leb_ltb; [exact Hb|exact Hj|].
      exact (bestIndex_first scores j Hlt). }
  split; [apply bestIndex_nan_first|].
  split; [apply bestIndex_max|].
  split; [apply bestIndex_first|].
  split; [reflexivity|]. split; [reflexivity|]. split; [reflexivity|].
  intros mask s. apply updateMaskOverlay_idempotent.
Qed.

End SelectBest.

(** ** Single flight, and what a reset does to it *)

Section FlagsHold.

Context {P : Platform}.

#[local] Arguments decode : simpl never.
#[local] Arguments getPoint : simpl never.

(** An invariant of every step but the guarded ones is an invariant of
    every run without them. *)
Lemma run_invariant_unless (I : State -> Prop) (bad : Event -> bool) :
  (forall s ev, bad ev = false -> I s -> I (step s ev)) ->
  forall evs s,
    Forall (fun ev => bad ev = false) evs -> I s -> I (run s evs).
Proof.
  intros Hstep evs. induction evs as [|ev evs IH]; intros s Hevs H;
    [exact H|].
  inversion Hevs as [|? ? Hev Hrest]; subst.
  apply (IH _ Hrest), Hstep; assumption.
Qed.





(** C2 (as amended). When the inference call of a decode fails, the
    rejection leaves [decode] through its promise, which no caller awaits:
    nothing is retried, nothing is written to the status line, and the
    overlay stays as it was. [decode] has no error path, so [isDecoding]
    stays true and the next pointer event starts no inference call. When
    the failed call was the only await of the pipeline in flight, this
    lasts: after every sequence of events without a click on the reset
    button or a change of model, [isDecoding] is still set, no await of
    the pipeline is in flight, and a pointer event adds none.
    [resetImageState] clears the flag. *)
Theorem decode_failure_keeps_busy (s : State) (n : nat) (t : Task)
    (e : JsError) :
  pending s !! n = Some t ->
  is_decode_task t = true ->
  isDecoding s = true ->
  let failed := step s (Settle n (Rejected e)) in
  failed = set_pending (delete n (pending s)) s
  /\ isDecoding failed = true
  /\ maskCanvas failed = maskCanvas s
  /\ statusLabel failed = statusLabel s
  /\ (forall ev,
        isDecoding (step failed (MouseDown ev)) = true
        /\ pending (step failed (MouseDown ev)) = pending failed)
  /\ (forall ev,
        isDecoding (step failed (MouseMove ev)) = true
        /\ pending (step failed (MouseMove ev)) = pending failed)
  /\ isDecoding (step failed ResetClick) = false
  /\ (decodes_in_flight s = 1 ->
      forall evs,
        Forall (fun ev => unguarded_reset ev = false) evs ->
        isDecoding (run failed evs) = true
        /\ decodes_in_flight (run failed evs) = 0
        /\ (forall ev,
              pending (step (run failed evs) (MouseDown ev))
              = pending (run failed evs)
              /\ pending (step (run failed evs) (MouseMove ev))
                 = pending (run failed evs)))
  /\ (forall evs key,
        isDecoding (step (run failed evs) ResetClick) = false
        /\ isDecoding (step (run failed evs) (ModelSelectChange key))
           = false).
Proof.
  intros Ht Hd Hbusy failed. subst failed.
  rewrite (reject_decode_task s n t e Ht Hd).
  split; [reflexivity|]. split; [exact Hbusy|].
  split; [reflexivity|]. split; [reflexivity|].
  split; [|split; [|split; [|split]]].
  - intros ev. apply (pointer_while_busy _ ev). exact Hbusy.
  - intros ev. apply (pointer_while_busy _ ev). exact Hbusy.
  - reflexivity.
  - intros Hone evs Hevs.
    assert (decode_locked (run (set_pending (delete n (pending s)) s) evs))
      as [Hb Hn].
    { apply (run_invariant_unless decode_locked unguarded_reset
               decode_locked_step evs _ Hevs).
      split; [exact Hbusy|].
      pose proof (filter_delete_length is_decode_task _ _ _ Ht) as Hdel.
      rewrite Hd in Hdel. unfold decodes_in_flight in *.
      cbn [pending set_pending]. lia. }
    split; [exact Hb|]. split; [exact Hn|].
    intros ev. destruct (pointer_while_busy _ ev Hb) as [[_ H1] [_ H2]].
    split; assumption.
  - intros evs key. split; reflexivity.
Qed.

(** C3 (as amended). [resetImageState] drops the image, its embedding, the
    point list, the multi-point mode and the overlay in one synchronous
    step, and the remote frame load runs it before it fetches. [encode],
    which the file upload and the example link call directly, replaces the
    embedding when it succeeds and at none of its steps touches the point
    list, the mode or the overlay. So a load through them that directly
    follows a reset, its three awaits settling with nothing in between,
    ends with the new embedding, no point session and a blank overlay; and
    a page without point session, with a blank overlay and no decode in
    flight, as a reset leaves it when no decode is in flight, stays so
    under every sequence of events for as long as no embedding is held
    when an event arrives: up to and including the event that brings the
    embedding of the load. *)
Theorem image_load_teardown (s : State) :
  torn_down (step s ResetClick)
  /\ (loadFromAviUtl2Button_disabled s = false ->
      isEncoding s = false ->
      isDecoding s = false ->
      torn_down (step s LoadFromAviUtl2Click)
      /\ pending (step s LoadFromAviUtl2Click)
         = pending s ++ [AwaitFrameFetch])
  /\ (forall ev,
        is_encode_step s ev = true ->
        lastPoints (step s ev) = lastPoints s
        /\ isMultiMaskMode (step s ev) = isMultiMaskMode s
        /\ maskCanvas (step s ev) = maskCanvas s)
  /\ (forall n m ip k,
        pending s !! n = Some (AwaitEmbeddings m ip k) ->
        imageEmbeddings (step s (Settle n Fulfilled))
        = Some (get_image_embeddings m ip))
  /\ (forall url m p,
        model s = Some m ->
        processor s = Some p ->
        let n := length (pending s) in
        let s' :=
          run s [ResetClick; FileLoaded url; Settle n Fulfilled;
                 Settle n Fulfilled; Settle n Fulfilled] in
        imageEmbeddings s'
        = Some (get_image_embeddings m
                  (processor_call p (RawImage_fromURL url)))
        /\ lastPoints s' = None
        /\ isMultiMaskMode s' = false
        /\ pixels (maskCanvas s') =
             blank (canvas_width (maskCanvas s'))
                   (canvas_height (maskCanvas s')))
  /\ (decodes_in_flight s = 0 -> quiet (step s ResetClick))
  /\ (forall evs,
        quiet s -> without_embedding s evs = true -> quiet (run s evs))
  /\ step s ExampleClick = step s (FileLoaded EXAMPLE_URL).
Proof.
  split; [apply reset_tears_down|].
  split; [apply load_frame_tears_down|].
  split; [apply encode_keeps_session|].
  split; [apply embeddings_replaced|].
  split.
  { intros url m p Hm Hp n s'.
    destruct (load_after_reset s url m p Hm Hp) as (H1 & H2 & H3 & H4 & _).
    auto. }
  split; [apply quiet_reset|].
  split; [intros evs; apply quiet_run|reflexivity].
Qed.

(** C8 (as amended). [encode] is a no-op while [isEncoding] is set, so in
    every run without a click on the reset button or a change of model at
    most one of its awaits is in flight, and none unless the flag is set;
    [resetImageState] clears the flag without cancelling, so a load started
    after a reset runs beside the one in flight. When its last await is
    fulfilled [encode] replaces the embedding. When one of its awaits is
    rejected it starts nothing new and leaves [imageEmbeddings] and
    [isEncoding] as they are at that moment. An embedding is written only
    when the last await of an [encode] call is fulfilled: from a state
    without embedding, every sequence of events in which that does not
    happen, failed loads included, ends without embedding, and then the
    pointer handlers return without calling [decode]. *)
Theorem embedding_failure_semantics (s : State) :
  (isEncoding s = true ->
   forall url, step s (FileLoaded url) = s /\ step s ExampleClick = s)
  /\ (forall n m ip k,
        pending s !! n = Some (AwaitEmbeddings m ip k) ->
        imageEmbeddings (step s (Settle n Fulfilled))
        = Some (get_image_embeddings m ip))
  /\ (forall n t e,
        pending s !! n = Some t ->
        is_encode_task t = true ->
        imageEmbeddings (step s (Settle n (Rejected e))) = imageEmbeddings s
        /\ pending (step s (Settle n (Rejected e))) = delete n (pending s)
        /\ isEncoding (step s (Settle n (Rejected e))) = isEncoding s)
  /\ (is_null (imageEmbeddings s) = true ->
      forall e, step s (MouseDown e) = s /\ step s (MouseMove e) = s)
  /\ (forall evs,
        imageEmbeddings s = None ->
        no_embedding_arrives s evs = true ->
        imageEmbeddings (run s evs) = None)
  /\ (forall evs,
        Forall (fun ev => unguarded_reset ev = false) evs ->
        encode_single_flight s ->
        encode_single_flight (run s evs))
  /\ (forall (c : Canvas) evs,
        Forall (fun ev => unguarded_reset ev = false) evs ->
        encodes_in_flight (run (initial c) evs)
        <= (if isEncoding (run (initial c) evs) then 1 else 0))
  /\ (forall url,
        encodes_in_flight (run s [ResetClick; FileLoaded url])
        = S (encodes_in_flight s)).
Proof.
  split; [intros H url; apply encode_while_busy, H|].
  split; [apply embeddings_replaced|].
  split.
  { intros n t e Ht He.
    destruct (reject_encode_task s n t e Ht He) as [H1 H2].
    split; [exact H1|]. split; [exact H2|].
    destruct t as [| |url k|p img k|m ip k| | | | |]; try discriminate He;
      erewrite settle_lookup by (try exact Ht; reflexivity);
      destruct k; reflexivity. }
  split; [intros H e; apply pointer_without_embedding, H|].
  split; [intros evs; apply no_embedding_run|].
  split.
  { intros evs Hevs.
    apply (run_invariant_unless encode_single_flight unguarded_reset
             encode_single_flight_step evs s Hevs). }
  split.
  { intros c evs Hevs.
    apply (run_invariant_unless encode_single_flight unguarded_reset
             encode_single_flight_step evs (initial c) Hevs).
    unfold encode_single_flight. cbn. lia. }
  intros url. unfold encodes_in_flight, run. cbn [foldl]. open_state s.
  unfold_handlers. js_cases. cbn [pending]. rewrite filter_snoc_length.
  cbn [is_encode_task]. lia.
Qed.

End FlagsHold.

(** ** Invariants from page load *)

Section FromPageLoad.

Context {P : Platform}.

(** X5. The icons over the image are exactly the points of the multi-point
    session, in click order, and outside a session there is no icon: every
    step keeps this, so it holds at every moment of every run from page
    load. *)
Theorem icons_mirror_point_session (c : Canvas) (evs : list Event) :
  (forall s, icons_mirror_points s -> icons_mirror_points (run s evs))
  /\ icons_mirror_points (run (initial c) evs).
Proof.
  assert (forall s, icons_mirror_points s -> icons_mirror_points (run s evs))
    as H by (apply (run_invariant icons_mirror_points icons_mirror_step)).
  split; [exact H|]. apply H. reflexivity.
Qed.

(** X6. Every inference call in flight was given an image embedding and,
    for some n > 0, a [1,1,n,2] tensor of 2n coordinates and a [1,1,n]
    tensor of n labels, each label 0 or 1; the point store never holds an
    empty list, and a rerun is owed only while an embedding is held. This
    holds at every moment of every run from page load. *)
Theorem inference_calls_well_formed (c : Canvas) (evs : list Event) :
  (forall s, decode_ready s -> decode_ready (run s evs))
  /\ Forall (fun t => inference_call_ok t = true)
       (pending (run (initial c) evs))
  /\ point_list_ok (run (initial c) evs).
Proof.
  assert (forall s, decode_ready s -> decode_ready (run s evs))
    as H by (apply (run_invariant decode_ready decode_ready_step)).
  split; [exact H|].
  assert (decode_ready (initial c)) as H0.
  { split; [discriminate|]. split; [exact I|constructor]. }
  destruct (H _ H0) as (_ & Hb & Hc). auto.
Qed.

(** X7. Exports are paired: at every moment of every run from page load,
    what the cut handler has handed to its two sinks is a sequence of
    pairs, a download named image.png immediately followed by a POST of
    the very same blob, as image/png, to the mask endpoint; the pairs of
    two exports in flight together never interleave. *)
Theorem exports_are_paired (c : Canvas) (evs : list Event) :
  (forall s, exports_paired (outputs s) -> exports_paired (outputs (run s evs)))
  /\ exports_paired (outputs (run (initial c) evs)).
Proof.
  assert (forall s, exports_paired (outputs s) ->
                    exports_paired (outputs (run s evs))) as H.
  { apply (run_invariant (fun s => exports_paired (outputs s))
             exports_paired_step). }
  split; [exact H|]. apply H. exact I.
Qed.

(** X8. The overlay bitmap always holds four bytes for every pixel of the
    canvas: rendering, clearing, resetting and every other step keep the
    buffer's length at 4 * width * height. *)
Theorem overlay_bitmap_sized (s : State) (evs : list Event) :
  canvas_well_formed (maskCanvas s) ->
  canvas_well_formed (maskCanvas (run s evs)).
Proof.
  apply (run_invariant (fun s => canvas_well_formed (maskCanvas s))
           canvas_well_formed_step).
Qed.

(** X9. At most one frame load is in flight, and the load button is
    disabled exactly while one is: whichever way a load ends, through the
    last await of [encode], a failed await, an error status or a thrown
    error, the button is enabled again, and until then no second load can
    start. This holds at every moment of every run from page load, whatever
    else is clicked meanwhile. *)
Theorem frame_load_single_flight (c : Canvas) (evs : list Event) :
  (forall s, frame_load_guarded s -> frame_load_guarded (run s evs))
  /\ frame_loads_in_flight (run (initial c) evs)
     = if loadFromAviUtl2Button_disabled (run (initial c) evs) then 1 else 0.
Proof.
  assert (forall s, frame_load_guarded s -> frame_load_guarded (run s evs))
    as H by (apply (run_invariant frame_load_guarded frame_load_guarded_step)).
  split; [exact H|]. apply H. reflexivity.
Qed.

End FromPageLoad.

(** ** The model selector *)

Section ModelSwitch.

Context {P : Platform}.

Lemma reset_eq (s : State) :
  step s ResetClick
  = mkState false false false None false None None None
      (currentModelKey s) (model s) (processor s) "Ready" true
      (loadFromAviUtl2Button_disabled s) display_flex None []
      (clearRect (maskCanvas s)) (pending s) (outputs s).
Proof. destruct s. reflexivity. Qed.

Lemma model_select_change (s : State) (key : ModelKey) :
  step s (ModelSelectChange key)
  = mkState false false false None false None None None
      key (model s) (processor s) "Loading model..." true
      (loadFromAviUtl2Button_disabled s) display_flex None []
      (clearRect (maskCanvas s)) (pending s ++ [AwaitModelLoad key])
      (outputs s).
Proof. destruct s. reflexivity. Qed.

Lemma model_load_settles (s : State) (l : list Task) (key : ModelKey) :
  pending s = l ++ [AwaitModelLoad key] ->
  step s (Settle (length l) Fulfilled)
  = set_statusLabel "Ready"
      (set_processor (Some key) (set_model (Some key) (set_pending l s))).
Proof. intros H. exact (settle_last s l _ Fulfilled _ H eq_refl). Qed.

Lemma model_switch_states (s : State) (k1 k2 : ModelKey) :
  run s [ModelSelectChange k1; ModelSelectChange k2;
         Settle (S (length (pending s))) Fulfilled;
         Settle (length (pending s)) Fulfilled]
  = set_statusLabel "Ready"
      (set_processor (Some k1)
         (set_model (Some k1)
            (set_currentModelKey k2 (step s ResetClick)))).
Proof.
  replace (S (length (pending s)))
    with (length (pending s ++ [AwaitModelLoad k1]))
    by (rewrite length_app; cbn; lia).
  rewrite reset_eq. destruct s. unfold run. cbn [foldl pending].
  rewrite !model_select_change.
  cbn [pending currentModelKey model processor
         loadFromAviUtl2Button_disabled maskCanvas outputs].
  erewrite (model_load_settles _ (pending0 ++ [AwaitModelLoad k1]) k2);
    [|reflexivity].
  unfold_setters.
  erewrite (model_load_settles _ pending0 k1); [|reflexivity].
  reflexivity.
Qed.

(** X10. [model] and [processor] are only ever assigned together, from the
    same key, and are never null once the page has loaded. The key is the
    one whose load settled last, not the one selected last: when two
    changes of the selector are in flight and the second settles first,
    the page ends with the first key's model under the second key's
    selection, and reports Ready. *)
Theorem model_processor_paired (c : Canvas) (evs : list Event) :
  (let s := run (initial c) evs in
   model s = processor s /\ is_null (model s) = false)
  /\ (forall (s : State) (k1 k2 : ModelKey),
        let n := length (pending s) in
        let s' :=
          run s [ModelSelectChange k1; ModelSelectChange k2;
                 Settle (S n) Fulfilled; Settle n Fulfilled] in
        model s' = Some k1
        /\ processor s' = Some k1
        /\ currentModelKey s' = k2
        /\ statusLabel s' = "Ready"%string
        /\ pending s' = pending s).
Proof.
  split.
  - apply (run_invariant
             (fun s => model s = processor s /\ is_null (model s) = false)
             model_processor_step).
    split; reflexivity.
  - intros s k1 k2 n s'. subst n s'. rewrite model_switch_states.
    rewrite reset_eq. repeat split.
Qed.

(** X11. A model load that fails leaves the page as the change of the
    selector put it: the image state torn down, the new key selected, the
    status line at its loading message, and the model and processor of the
    previous key still in place. *)
Theorem model_switch_failure (s : State) (key : ModelKey) (e : JsError) :
  let s' :=
    run s [ModelSelectChange key; Settle (length (pending s)) (Rejected e)] in
  s' = set_currentModelKey key
         (set_statusLabel "Loading model..." (step s ResetClick))
  /\ model s' = model s
  /\ processor s' = processor s
  /\ currentModelKey s' = key
  /\ statusLabel s' = "Loading model..."%string
  /\ torn_down s'.
Proof.
  intros s'. subst s'. rewrite reset_eq. destruct s.
  unfold run. cbn [foldl pending]. rewrite model_select_change.
  erewrite (settle_last _ pending0 (AwaitModelLoad key) (Rejected e));
    [|reflexivity|reflexivity].
  repeat split.
Qed.

End ModelSwitch.

(** ** A load that fails, and a reset during a load *)

Section LoadEdges.

Context {P : Platform}.

#[local] Arguments getPoint : simpl never.



Lemma decode_without_image (s : State) :
  isDecoding s = false ->
  imageProcessed s = None ->
  snd (decode s) = set_isDecoding true s.
Proof.
  intros Hd Hi. unfold decode, mbind, Js_bind, gets, modify, deref.
  rewrite Hd. cbn [fst snd].
  change (imageProcessed (set_isDecoding true s)) with (imageProcessed s).
  rewrite Hi. reflexivity.
Qed.

(** X13. A reset does not cancel a load in flight. When the last await of
    a load settles after a reset, the embedding of the image that was
    dropped is stored while [imageInput] and [imageProcessed] stay null.
    The first hover then enters [decode], which sets [isDecoding] and
    throws on the missing [imageProcessed]: nothing is in flight, the flag
    stays set, and every later pointer event starts no inference call. *)
Theorem reset_during_load (s : State) (n : nat) (m : ModelKey)
    (ip : Processed PixelValues) (k : EncodeCaller) :
  pending s !! n = Some (AwaitEmbeddings m ip k) ->
  let s' := run s [ResetClick; Settle n Fulfilled] in
  imageEmbeddings s' = Some (get_image_embeddings m ip)
  /\ imageInput s' = None
  /\ imageProcessed s' = None
  /\ isDecoding s' = false
  /\ pending s' = delete n (pending s)
  /\ (forall e,
        let jammed := step s' (MouseMove e) in
        isDecoding jammed = true
        /\ pending jammed = pending s'
        /\ (forall e',
              pending (step jammed (MouseMove e')) = pending s'
              /\ pending (step jammed (MouseDown e')) = pending s'
              /\ isDecoding (step jammed (MouseMove e')) = true
              /\ isDecoding (step jammed (MouseDown e')) = true)).
Proof.
  intros Ht s'.
  assert (imageEmbeddings s' = Some (get_image_embeddings m ip)
          /\ imageInput s' = None /\ imageProcessed s' = None
          /\ isDecoding s' = false /\ isMultiMaskMode s' = false
          /\ pending s' = delete n (pending s))
    as (H1 & H2 & H3 & H4 & H5 & H6).
  { subst s'. unfold run. cbn [foldl].
    erewrite (settle_lookup _ n Fulfilled (AwaitEmbeddings m ip k));
      [|exact Ht|reflexivity].
    change (pending (step s ResetClick)) with (pending s).
    destruct k; destruct s; repeat split. }
  split; [exact H1|]. split; [exact H2|]. split; [exact H3|].
  split; [exact H4|]. split; [exact H6|].
  intros e jammed.
  assert (jammed = set_isDecoding true
                     (set_lastPoints (Some [getPoint e]) s')) as Hj.
  { subst jammed. rewrite mousemove_eq, H1, H5. cbn [is_null orb].
    apply decode_without_image; [exact H4|exact H3]. }
  assert (isDecoding jammed = true) as Hb by (rewrite Hj; reflexivity).
  assert (pending jammed = pending s') as Hp by (rewrite Hj; reflexivity).
  split; [exact Hb|]. split; [exact Hp|].
  intros e'.
  destruct (pointer_while_busy jammed e' Hb) as ((Hd1 & Hd2) & (Hm1 & Hm2)).
  rewrite Hd2, Hm2, Hp. auto.
Qed.

End LoadEdges.

(** ** The points of a session *)

Section SessionPoints.

Context {P : Platform}.

#[local] Arguments getPoint : simpl never.
#[local] Arguments decode : simpl never.

(** What a step that is neither a pointer event nor the end of a session
    leaves alone. *)
Lemma step_keeps_session (s : State) (ev : Event) :
  ends_session ev = false ->
  match ev with MouseDown _ | MouseMove _ => False | _ => True end ->
  lastPoints (step s ev) = lastPoints s
  /\ isMultiMaskMode (step s ev) = isMultiMaskMode s
  /\ icons (step s ev) = icons s
  /\ (is_null (imageEmbeddings s) = false ->
      is_null (imageEmbeddings (step s ev)) = false).
Proof.
  intros Hev Hptr.
  destruct ev as [e|e| | | |url| |key| |n r];
    try discriminate Hev; try contradiction;
    try solve [destruct s; unfold_handlers; js_cases; auto].
  unfold step, handler, settle.
  destruct (pending s !! n) as [t|] eqn:Ht; [|auto].
  destruct (resume t r) as [c|] eqn:Hc; [|auto].
  destruct t, r; simpl in Hc; simplify_eq;
    try solve [destruct s; unfold_handlers; js_cases; auto].
  destruct (decode_after_post_frame (post_process_masks p pred_masks
              original reshaped) iou_scores
              (set_pending (delete n (pending s)) s))
    as (b1 & b2 & c & t & l & ->).
  auto.
Qed.

(** One step of a session: the list a click would extend grows by the
    event's click, if it is one. *)
Lemma session_step (s : State) (ev : Event) (lp : list Point) :
  ends_session ev = false ->
  is_null (imageEmbeddings s) = false ->
  lastPoints (open_session s) = Some lp ->
  is_null (imageEmbeddings (step s ev)) = false
  /\ lastPoints (open_session (step s ev)) = Some (lp ++ click_of ev)
  /\ icons (step s ev) = icons s ++ click_of ev
  /\ (isMultiMaskMode s = true \/ click_of ev <> [] ->
      isMultiMaskMode (step s ev) = true).
Proof.
  intros Hev He Hl.
  destruct ev as [e|e| | | |url| |key| |n r]; try discriminate Hev.
  - (* a click *)
    rewrite mousedown_eq. cbn [click_of]. unfold accepted_button.
    destruct (negb (button e =? 0)%Z && negb (button e =? 2)%Z);
      cbn [negb].
    { rewrite !app_nil_r. repeat split; auto. intros [H|H]; congruence. }
    rewrite He, Hl.
    match goal with
    | |- context [decode ?x] =>
        destruct (decode_frame x) as (b1 & b2 & q & ->)
    end.
    unfold open_session, push_point.
    cbn [isMultiMaskMode imageEmbeddings lastPoints icons set_pending
           set_decodePending set_isDecoding set_icons set_lastPoints].
    assert (isMultiMaskMode (open_session s) = true) as Hm.
    { unfold open_session. destruct (isMultiMaskMode s) eqn:E;
        [exact E|reflexivity]. }
    assert (imageEmbeddings (open_session s) = imageEmbeddings s) as Hemb.
    { unfold open_session. destruct (isMultiMaskMode s); reflexivity. }
    assert (icons (open_session s) = icons s) as Hic.
    { unfold open_session. destruct (isMultiMaskMode s); reflexivity. }
    fold (open_session s). rewrite Hm, Hemb, Hic. auto.
  - (* a hover *)
    rewrite mousemove_eq. cbn [click_of]. rewrite He, !app_nil_r.
    cbn [is_null orb].
    destruct (isMultiMaskMode s) eqn:Hm.
    { repeat split; auto. }
    match goal with
    | |- context [decode ?x] =>
        destruct (decode_frame x) as (b1 & b2 & q & ->)
    end.
    unfold open_session in *.
    cbn [isMultiMaskMode imageEmbeddings lastPoints icons set_pending
           set_decodePending set_isDecoding set_lastPoints].
    rewrite Hm in *. cbn in Hl. repeat split; auto.
    intros [H|H]; congruence.
  - destruct (step_keeps_session s ExampleClick eq_refl I)
      as (H1 & H2 & H3 & H4).
    cbn [click_of]. rewrite !app_nil_r. unfold open_session in *.
    rewrite H2, H3. destruct (isMultiMaskMode s);
      [rewrite H1|]; repeat split; auto; intros [H|H]; congruence.
  - destruct (step_keeps_session s (FileLoaded url) eq_refl I)
      as (H1 & H2 & H3 & H4).
    cbn [click_of]. rewrite !app_nil_r. unfold open_session in *.
    rewrite H2, H3. destruct (isMultiMaskMode s);
      [rewrite H1|]; repeat split; auto; intros [H|H]; congruence.
  - destruct (step_keeps_session s CutClick eq_refl I)
      as (H1 & H2 & H3 & H4).
    cbn [click_of]. rewrite !app_nil_r. unfold open_session in *.
    rewrite H2, H3. destruct (isMultiMaskMode s);
      [rewrite H1|]; repeat split; auto; intros [H|H]; congruence.
  - destruct (step_keeps_session s (Settle n r) eq_refl I)
      as (H1 & H2 & H3 & H4).
    cbn [click_of]. rewrite !app_nil_r. unfold open_session in *.
    rewrite H2, H3. destruct (isMultiMaskMode s);
      [rewrite H1|]; repeat split; auto; intros [H|H]; congruence.
Qed.

Lemma session_run (evs : list Event) (s : State) (lp : list Point) :
  Forall (fun ev => ends_session ev = false) evs ->
  is_null (imageEmbeddings s) = false ->
  lastPoints (open_session s) = Some lp ->
  is_null (imageEmbeddings (run s evs)) = false
  /\ lastPoints (open_session (run s evs)) = Some (lp ++ clicks_of evs)
  /\ icons (run s evs) = icons s ++ clicks_of evs
  /\ (isMultiMaskMode s = true \/ clicks_of evs <> [] ->
      isMultiMaskMode (run s evs) = true).
Proof.
  revert s lp. induction evs as [|ev evs IH]; intros s lp Hevs He Hl.
  - unfold clicks_of. cbn. rewrite !app_nil_r. repeat split; auto.
    intros [H|H]; congruence.
  - inversion Hevs as [|? ? Hev Hrest]; subst.
    destruct (session_step s ev lp Hev He Hl) as (H1 & H2 & H3 & H4).
    destruct (IH (step s ev) _ Hrest H1 H2) as (G1 & G2 & G3 & G4).
    rewrite run_cons. unfold clicks_of in *. cbn [fmap list_fmap concat].
    rewrite G2, G3, H3, <- !app_assoc. repeat split; auto.
    intros [H|H].
    + apply G4. left. apply H4. left. exact H.
    + apply G4. destruct (click_of ev) eqn:E.
      * right. exact H.
      * left. apply H4. right. discriminate.
Qed.

(** X14. The point list of a multi-point session is exactly the accepted
    clicks, in click order: hovers, clicks of other buttons, loads through
    the file input or the example link, exports and settling awaits,
    fulfilled or rejected, add nothing to it and take nothing away. The
    icons grow by the same points. (Clearing, resetting, a frame load and a
    change of model end the session.) *)
Theorem session_points_are_clicks (s : State) (evs : list Event)
    (lp : list Point) :
  is_null (imageEmbeddings s) = false ->
  lastPoints (open_session s) = Some lp ->
  Forall (fun ev => ends_session ev = false) evs ->
  clicks_of evs <> [] ->
  lastPoints (run s evs) = Some (lp ++ clicks_of evs)
  /\ icons (run s evs) = icons s ++ clicks_of evs
  /\ isMultiMaskMode (run s evs) = true.
Proof.
  intros He Hl Hevs Hne.
  destruct (session_run evs s lp Hevs He Hl) as (_ & H2 & H3 & H4).
  specialize (H4 (or_intror Hne)).
  unfold open_session in H2. rewrite H4 in H2. auto.
Qed.

End SessionPoints.

(** ** A decode overtaken by a clear or a reset *)

Section OvertakenDecode.

Context {P : Platform}.

#[local] Arguments decode : simpl never.
#[local] Arguments updateMaskOverlay : simpl never.
#[local] Arguments getPoint : simpl never.
#[local] Arguments overlay_of : simpl never.

Variable σ : Session.
Hypothesis Hwell : answers_well σ.

Lemma settle_only (s : State) (t : Task) (r : Settlement) (c : Js unit) :
  pending s = [t] ->
  resume t r = Some c ->
  step s (Settle 0 r) = snd (c (set_pending [] s)).
Proof. intros Hp Hc. exact (settle_last s [] t r c Hp Hc). Qed.

Lemma decode_without_points (s : State) (ip : Processed PixelValues) :
  isDecoding s = false ->
  imageProcessed s = Some ip ->
  lastPoints s = None ->
  snd (decode s) = set_isDecoding true s.
Proof.
  intros Hd Hi Hl. unfold decode, mbind, Js_bind, gets, modify, deref.
  rewrite Hd. cbn [fst snd].
  change (imageProcessed (set_isDecoding true s)) with (imageProcessed s).
  rewrite Hi. cbn [fst snd].
  change (lastPoints (set_isDecoding true s)) with (lastPoints s).
  rewrite Hl. reflexivity.
Qed.

(** The overlay and the status line of a completed decode of [lp]. *)
Lemma decode_after_post_draws (s : State) (lp : list Point) :
  updateMaskOverlay (decoded_mask σ lp) (decoded_scores σ lp) s
  = (Normal tt,
     set_maskCanvas (rendered σ lp) (set_statusLabel (score_line σ lp) s)).
Proof.
  destruct (Hwell lp) as (H1 & H2 & H3).
  exact (updateMaskOverlay_ok _ _ s H1 H2 H3).
Qed.

(** Post-processing returns when the point store is empty: the overlay is
    drawn, and an owed rerun enters [decode], which throws. *)
Lemma decode_after_post_no_points (s : State) (lp : list Point) :
  in_session σ s ->
  lastPoints s = None ->
  snd (decode_after_post (decoded_mask σ lp) (decoded_scores σ lp) s) =
    set_isDecoding (decodePending s)
      (set_decodePending false
         (set_maskCanvas (rendered σ lp)
            (set_statusLabel (score_line σ lp) s))).
Proof.
  intros (Hm & Hp & He & Hi & Hr) Hl.
  rewrite decode_after_post_stages. cbv zeta.
  rewrite decode_after_post_draws. cbn [fst snd].
  change (decodePending (set_maskCanvas _ _)) with (decodePending s).
  destruct (decodePending s) eqn:Hdp.
  - erewrite decode_without_points; [|reflexivity|exact Hi|exact Hl].
    destruct s. reflexivity.
  - destruct s. cbn in Hdp. subst. reflexivity.
Qed.

Lemma decode_after_model_no_image (s : State) (pm : PredMasks)
    (sc : list float) :
  imageProcessed s = None ->
  snd (decode_after_model pm sc s) = s.
Proof.
  intros Hi. unfold decode_after_model, mbind, Js_bind, deref.
  destruct (processor s); cbn [fst snd]; [|reflexivity].
  rewrite Hi. reflexivity.
Qed.

(** The state a clear leaves when the decode in flight has run to its
    end. *)
Lemma clear_then_drain (s : State) (lp : list Point) (st : DecodeStage) :
  in_session σ s ->
  pending s = [stage_task σ lp st] ->
  run s (ClearClick :: drain st)
  = set_isDecoding (decodePending s)
      (set_decodePending false
         (set_maskCanvas (rendered σ lp)
            (set_statusLabel (score_line σ lp)
               (set_pending [] (step s ClearClick))))).
Proof.
  intros Hs Hp.
  assert (in_session σ (step s ClearClick)) as Hs1
    by (apply (in_session_frame σ s); auto).
  assert (forall l, in_session σ (set_pending l (step s ClearClick)))
    as Hs2 by (intros l; apply (in_session_frame σ s); auto).
  rewrite run_cons.
  assert (pending (step s ClearClick) = [stage_task σ lp st]) as Hp1
    by exact Hp.
  destruct st; cbn [drain stage_task] in *; unfold run; cbn [foldl].
  - erewrite (settle_only _ _ _ _ Hp1) by reflexivity.
    fold (model_output σ lp).
    rewrite (decode_after_model_in_session σ _ lp (Hs2 [])).
    rewrite set_pending_twice.
    erewrite settle_only; [|reflexivity|reflexivity].
    rewrite set_pending_twice.
    fold (decoded_mask σ lp). fold (decoded_scores σ lp).
    rewrite (decode_after_post_no_points _ lp (Hs2 [])) by reflexivity.
    reflexivity.
  - erewrite (settle_only _ _ _ _ Hp1) by reflexivity.
    fold (decoded_mask σ lp). fold (decoded_scores σ lp).
    rewrite (decode_after_post_no_points _ lp (Hs2 [])) by reflexivity.
    reflexivity.
Qed.

(** X15. Clearing does not cancel a decode in flight. When that decode
    completes it paints its overlay and its score over the cleared canvas,
    although the point list is empty and export is disabled. If a rerun
    was owed, the rerun enters [decode], which sets [isDecoding] and throws
    on the empty point store: nothing is in flight, the flag stays set, and
    every later pointer event starts no inference call. *)
Theorem clear_during_decode (s : State) (lp : list Point)
    (st : DecodeStage) :
  in_session σ s ->
  pending s = [stage_task σ lp st] ->
  let s' := run s (ClearClick :: drain st) in
  maskCanvas s' = rendered σ lp
  /\ statusLabel s' = score_line σ lp
  /\ lastPoints s' = None
  /\ icons s' = []
  /\ cutButton_disabled s' = true
  /\ pending s' = []
  /\ decodePending s' = false
  /\ isDecoding s' = decodePending s
  /\ (decodePending s = true ->
      forall e,
        pending (step s' (MouseMove e)) = []
        /\ pending (step s' (MouseDown e)) = []
        /\ isDecoding (step s' (MouseMove e)) = true
        /\ isDecoding (step s' (MouseDown e)) = true).
Proof.
  intros Hs Hp s'. subst s'. rewrite (clear_then_drain s lp st Hs Hp).
  set (s' := set_isDecoding _ _).
  assert (isDecoding s' = decodePending s) as Hd by reflexivity.
  assert (pending s' = []) as Hq by reflexivity.
  split; [reflexivity|]. split; [reflexivity|].
  split; [destruct s; reflexivity|]. split; [destruct s; reflexivity|].
  split; [destruct s; reflexivity|]. split; [exact Hq|].
  split; [reflexivity|]. split; [exact Hd|].
  intros Hdp e. rewrite Hdp in Hd.
  destruct (pointer_while_busy s' e Hd) as ((Hd1 & Hd2) & (Hm1 & Hm2)).
  rewrite Hd2, Hm2, Hq. auto.
Qed.

(** X16. Resetting does not cancel a decode in flight either. A decode
    suspended at the model call dies at its next step, on the
    [imageProcessed] the reset has set to null, and leaves the reset page
    as it is. A decode suspended at post-processing completes: it paints
    its overlay and writes its score on the page that holds no image any
    more. *)
Theorem reset_during_decode (s : State) (lp : list Point)
    (st : DecodeStage) :
  in_session σ s ->
  pending s = [stage_task σ lp st] ->
  let torn := set_pending [] (step s ResetClick) in
  run s [ResetClick; Settle 0 Fulfilled]
  = match st with
    | AtModel => torn
    | AtPostProcess =>
        set_maskCanvas (rendered σ lp)
          (set_statusLabel (score_line σ lp) torn)
    end.
Proof.
  intros Hs Hp torn. subst torn. unfold run. cbn [foldl].
  assert (pending (step s ResetClick) = [stage_task σ lp st]) as Hp1
    by exact Hp.
  destruct st; cbn [stage_task] in *.
  - erewrite (settle_only _ _ _ _ Hp1) by reflexivity.
    destruct (sam_model _ _ _ _) as [pm sc].
    apply decode_after_model_no_image. reflexivity.
  - erewrite (settle_only _ _ _ _ Hp1) by reflexivity.
    fold (decoded_mask σ lp). fold (decoded_scores σ lp).
    rewrite decode_after_post_stages. cbv zeta.
    rewrite decode_after_post_draws. cbn [fst snd].
    destruct s. reflexivity.
Qed.

End OvertakenDecode.

(** ** A rendering that throws *)

Section RenderFailure.

Context {P : Platform}.

#[local] Arguments blank : simpl never.
#[local] Arguments fill_mask : simpl never.
#[local] Arguments decode : simpl never.

Lemma bestIndex_nil : bestIndex [] = 0.
Proof. reflexivity. Qed.

Lemma updateMaskOverlay_fails (mask : RawImage) (scores : list float)
    (s : State) :
  scores = [] \/ width mask = 0 \/ height mask = 0 ->
  exists e c,
    updateMaskOverlay mask scores s = (Throw e, set_maskCanvas c s).
Proof.
  intros H. unfold updateMaskOverlay, createImageData.
  unfold mbind, Js_bind, gets, when, modify, deref, mret, Js_ret, throw.
  destruct (negb (canvas_width (maskCanvas s) =? width mask)
            || negb (canvas_height (maskCanvas s) =? height mask)) eqn:E;
    cbn [fst snd maskCanvas set_maskCanvas canvas_width canvas_height].
  - destruct ((width mask =? 0) || (height mask =? 0)) eqn:Ez;
      [do 2 eexists; reflexivity|].
    apply orb_false_iff in Ez as [Ew Eh].
    apply Nat.eqb_neq in Ew, Eh.
    destruct H as [-> |[H|H]]; [|contradiction..].
    cbn. do 2 eexists. reflexivity.
  - apply orb_false_iff in E as [E1 E2].
    apply negb_false_iff, Nat.eqb_eq in E1, E2.
    rewrite E1, E2.
    destruct ((width mask =? 0) || (height mask =? 0)) eqn:Ez.
    + exists IndexSizeError, (maskCanvas s). destruct s. reflexivity.
    + apply orb_false_iff in Ez as [Ew Eh].
      apply Nat.eqb_neq in Ew, Eh.
      destruct H as [-> |[H|H]]; [|contradiction..].
      cbn. exists TypeError, (maskCanvas s). destruct s. reflexivity.
Qed.

(** X17. When the model returns no score, or a mask without pixels,
    [updateMaskOverlay] throws after [isDecoding] has been cleared and
    before the pending flag is looked at: the busy flag is released, the
    status line is not written, and a rerun that was owed is not made;
    [decodePending] stays as it was. *)
Theorem render_failure_skips_rerun (mask : RawImage) (scores : list float)
    (s : State) :
  scores = [] \/ width mask = 0 \/ height mask = 0 ->
  let c := decode_after_post mask scores s in
  (exists e, fst c = Throw e)
  /\ isDecoding (snd c) = false
  /\ decodePending (snd c) = decodePending s
  /\ pending (snd c) = pending s
  /\ statusLabel (snd c) = statusLabel s
  /\ lastPoints (snd c) = lastPoints s.
Proof.
  intros H c. subst c.
  destruct (updateMaskOverlay_fails mask scores (set_isDecoding false s) H)
    as (e & cv & Hf).
  unfold decode_after_post, mbind, Js_bind, modify. cbn [fst snd].
  rewrite Hf. cbn [fst snd]. split; [eauto|]. repeat split.
Qed.

End RenderFailure.

(** ** The frame load from AviUtl2, end to end *)

Section FrameLoadRuns.

Context {P : Platform}.

Lemma load_click_eq (s : State) :
  loadFromAviUtl2Button_disabled s = false ->
  isEncoding s = false ->
  isDecoding s = false ->
  step s LoadFromAviUtl2Click
  = mkState false false false None false None None None
      (currentModelKey s) (model s) (processor s)
      "Loading frame from AviUtl2..." true true display_flex None []
      (clearRect (maskCanvas s)) (pending s ++ [AwaitFrameFetch])
      (outputs s).
Proof.
  intros Hb He Hd. destruct s. cbn in Hb, He, Hd. subst. reflexivity.
Qed.

Lemma frame_load_failed_eq (s : State) :
  frame_load_failed (step s ResetClick)
  = mkState false false false None false None None None
      (currentModelKey s) (model s) (processor s)
      "Failed to load frame from AviUtl2" true false display_flex None []
      (clearRect (maskCanvas s)) (pending s) (outputs s).
Proof. destruct s. reflexivity. Qed.

(** Runs the next event of the run: the await that was spawned last
    settles. *)
Ltac settle_next l t r :=
  rewrite run_cons;
  erewrite (settle_last _ l t r); [|reflexivity|reflexivity].

(** Runs the click on the load button from a page that is not busy. *)
Ltac frame_load_start s Hb He Hd :=
  rewrite (run_cons s), (load_click_eq s Hb He Hd);
  clear Hb He Hd; destruct s;
  cbn [pending currentModelKey model processor maskCanvas outputs] in *;
  subst.

Ltac js_stage :=
  unfold loadFromAviUtl2_after_fetch, loadFromAviUtl2_after_blob,
    loadFromAviUtl2_catch, loadFromAviUtl2_after_encode,
    loadFromAviUtl2_finally, encode, encode_stage, encode_settled,
    encode_start, encode_after_image, encode_after_processor,
    encode_after_embeddings, mbind, Js_bind, gets, modify, spawn, deref,
    mret, Js_ret;
  cbn [fst snd]; unfold_setters; cbn [fst snd]; unfold_setters.

(** X18. A frame load, from a page that is not busy. If the fetch fails,
    or the server answers with an error status, or the body cannot be
    read, the page is left torn down with the failure on the status line
    and the load button enabled again, and [encode] is never called. If
    all five awaits are fulfilled, the page holds the image decoded from
    the object URL of the response body, its processed form and its
    embedding, shows Ready, and the load button is enabled again. *)
Theorem frame_load_outcomes (s : State) (r : Response) (m p : ModelKey) :
  loadFromAviUtl2Button_disabled s = false ->
  isEncoding s = false ->
  isDecoding s = false ->
  model s = Some m ->
  processor s = Some p ->
  let n := length (pending s) in
  let failed := frame_load_failed (step s ResetClick) in
  (forall e, run s [LoadFromAviUtl2Click; Settle n (Rejected e)] = failed)
  /\ (ok r = false ->
      run s [LoadFromAviUtl2Click; Settle n (FulfilledWith r)] = failed)
  /\ (ok r = true ->
      forall e,
        run s [LoadFromAviUtl2Click; Settle n (FulfilledWith r);
               Settle n (Rejected e)] = failed)
  /\ (ok r = true ->
      let url := createObjectURL (body r) in
      let img := RawImage_fromURL url in
      let ip := processor_call p img in
      run s (frame_load_events n r)
      = mkState false false false None false (Some img) (Some ip)
          (Some (get_image_embeddings m ip))
          (currentModelKey s) (Some m) (Some p) "Ready" true false
          display_none (Some url) [] (clearRect (maskCanvas s))
          (pending s) (outputs s)).
Proof.
  intros Hb He Hd Hm Hp n failed. subst n failed.
  rewrite frame_load_failed_eq. unfold frame_load_events.
  split; [|split; [|split]].
  - intros e. frame_load_start s Hb He Hd.
    settle_next pending0 AwaitFrameFetch (Rejected e).
    reflexivity.
  - intros Hok. frame_load_start s Hb He Hd.
    settle_next pending0 AwaitFrameFetch (FulfilledWith r).
    js_stage. rewrite Hok. reflexivity.
  - intros Hok e. frame_load_start s Hb He Hd.
    settle_next pending0 AwaitFrameFetch (FulfilledWith r).
    js_stage. rewrite Hok. js_stage.
    settle_next pending0 (AwaitFrameBlob r) (Rejected e).
    reflexivity.
  - intros Hok. cbv zeta. frame_load_start s Hb He Hd.
    set (url := createObjectURL (body r)).
    set (img := RawImage_fromURL url).
    set (ip := processor_call p img).
    settle_next pending0 AwaitFrameFetch (FulfilledWith r).
    js_stage. rewrite Hok. js_stage.
    settle_next pending0 (AwaitFrameBlob r) Fulfilled.
    fold url. js_stage.
    settle_next pending0 (AwaitFromURL url FromAviUtl2) Fulfilled.
    fold img. js_stage.
    settle_next pending0 (AwaitProcessor p img FromAviUtl2) Fulfilled.
    fold ip. js_stage.
    settle_next pending0 (AwaitEmbeddings m ip FromAviUtl2) Fulfilled.
    reflexivity.
Qed.

Lemma frame_blob_while_encoding (s : State) (n : nat) (r : Response) :
  pending s !! n = Some (AwaitFrameBlob r) ->
  isEncoding s = true ->
  step s (Settle n Fulfilled)
  = set_loadFromAviUtl2Button_disabled false
      (set_statusLabel "Ready" (set_pending (delete n (pending s)) s)).
Proof.
  intros Ht He.
  erewrite (settle_lookup _ n Fulfilled (AwaitFrameBlob r));
    [|exact Ht|reflexivity].
  unfold loadFromAviUtl2_after_blob, encode, encode_stage, encode_start,
    mbind, Js_bind, gets.
  cbn [fst snd]. change (isEncoding (set_pending _ s)) with (isEncoding s).
  rewrite He. reflexivity.
Qed.

Lemma example_click_eq (s : State) :
  isEncoding s = false ->
  step s ExampleClick
  = set_pending (pending s ++ [AwaitFromURL EXAMPLE_URL Detached])
      (set_statusLabel "Extracting image embedding..."
         (set_isEncoding true s)).
Proof.
  intros He. unfold step, handler, encode, encode_stage, encode_start.
  unfold mbind, Js_bind, gets. cbn [fst snd]. rewrite He. reflexivity.
Qed.

Lemma frame_load_overtaken_state (s : State) (r : Response) :
  loadFromAviUtl2Button_disabled s = false ->
  isEncoding s = false ->
  isDecoding s = false ->
  ok r = true ->
  run s [LoadFromAviUtl2Click; Settle (length (pending s)) (FulfilledWith r);
         ExampleClick; Settle (length (pending s)) Fulfilled]
  = mkState true false false None false None None None
      (currentModelKey s) (model s) (processor s) "Ready" true false
      display_flex None [] (clearRect (maskCanvas s))
      (pending s ++ [AwaitFromURL EXAMPLE_URL Detached]) (outputs s).
Proof.
  intros Hb He Hd Hok. frame_load_start s Hb He Hd.
  settle_next pending0 AwaitFrameFetch (FulfilledWith r).
  js_stage. rewrite Hok. js_stage.
  rewrite run_cons, example_click_eq by reflexivity. unfold_setters.
  rewrite run_cons.
  erewrite (frame_blob_while_encoding _ (length pending0) r);
    [|cbn [pending]; rewrite <- app_assoc; apply list_lookup_middle;
      reflexivity|reflexivity].
  cbn [pending]. rewrite <- app_assoc. cbn [app].
  rewrite (delete_middle pending0 _ (AwaitFrameBlob r)).
  reflexivity.
Qed.

(** X19. A frame load overtaken by another load is dropped. When the body
    of the response arrives while [isEncoding] is set, the [encode] call of
    the frame load returns at once: the frame load writes Ready and enables
    its button, and the frame is never decoded. This is what happens when
    the example link is clicked while the frame is being fetched: the page
    reports Ready while the example's load is still in flight. *)
Theorem frame_load_overtaken (s : State) (r : Response) :
  loadFromAviUtl2Button_disabled s = false ->
  isEncoding s = false ->
  isDecoding s = false ->
  ok r = true ->
  (forall (b : State) (n : nat),
     pending b !! n = Some (AwaitFrameBlob r) ->
     isEncoding b = true ->
     step b (Settle n Fulfilled)
     = set_loadFromAviUtl2Button_disabled false
         (set_statusLabel "Ready" (set_pending (delete n (pending b)) b)))
  /\ (let n := length (pending s) in
      let s' :=
        run s [LoadFromAviUtl2Click; Settle n (FulfilledWith r);
               ExampleClick; Settle n Fulfilled] in
      pending s' = pending s ++ [AwaitFromURL EXAMPLE_URL Detached]
      /\ statusLabel s' = "Ready"%string
      /\ loadFromAviUtl2Button_disabled s' = false
      /\ isEncoding s' = true
      /\ imageInput s' = None).
Proof.
  intros Hb He Hd Hok. split; [intros b n; apply frame_blob_while_encoding|].
  intros n s'. subst n s'.
  rewrite (frame_load_overtaken_state s r Hb He Hd Hok). repeat split.
Qed.

End FrameLoadRuns.

(** ** The caches of the model loader *)

Section LoaderCaches.

Import ModelLoader.

Lemma ModelKey_eqb_spec (a b : ModelKey) :
  ModelKey_eqb a b = true <-> a = b.
Proof. destruct a, b; split; intros H; try reflexivity; discriminate H. Qed.

Lemma ModelKey_eqb_refl (a : ModelKey) : ModelKey_eqb a a = true.
Proof. destruct a; reflexivity. Qed.

Lemma MODEL_IDS_eqb (a b : ModelKey) :
  String.eqb (MODEL_IDS a) (MODEL_IDS b) = ModelKey_eqb a b.
Proof. destruct a, b; reflexivity. Qed.

Lemma selected_app (key : ModelKey) (keys keys' : list ModelKey) :
  selected key (keys ++ keys') = selected key keys || selected key keys'.
Proof. apply existsb_app. Qed.

Lemma caches_track_load (l : Loading) (done : list ModelKey)
    (key : ModelKey) :
  caches_track l done ->
  caches_track (fst (loadCurrentModelIfNeeded key l)) (done ++ [key]).
Proof.
  intros H k. destruct (H k) as [Hk Hcalls].
  destruct (H key) as [Hkey _].
  unfold loadCurrentModelIfNeeded. cbn [fst].
  rewrite selected_app. cbn [selected existsb]. rewrite orb_false_r.
  destruct (is_null (modelCache l key)) eqn:Hnull.
  - cbn [modelCache calls]. unfold cache_set, calls_for. cbn [calls].
    destruct (ModelKey_eqb k key) eqn:E.
    + apply ModelKey_eqb_spec in E. subst k.
      symmetry in Hkey. apply negb_true_iff in Hkey. rewrite Hkey in *.
      split; [reflexivity|]. intros ld.
      rewrite List.filter_app, length_app. fold (calls_for ld key l).
      rewrite (Hcalls ld). cbn [List.filter loader pretrained].
      rewrite String.eqb_refl. destruct ld; reflexivity.
    + rewrite orb_false_r. split; [exact Hk|]. intros ld.
      rewrite List.filter_app, length_app. fold (calls_for ld k l).
      rewrite (Hcalls ld). cbn [List.filter loader pretrained].
      rewrite MODEL_IDS_eqb.
      assert (ModelKey_eqb key k = false) as ->.
      { destruct key, k; try reflexivity; discriminate E. }
      destruct ld; cbn [length]; lia.
  - cbn [modelCache calls]. unfold calls_for. cbn [calls].
    fold (calls_for).
    symmetry in Hkey. apply negb_false_iff in Hkey.
    destruct (ModelKey_eqb k key) eqn:E.
    + apply ModelKey_eqb_spec in E. subst k. rewrite Hkey in *.
      split; [exact Hk|exact Hcalls].
    + rewrite orb_false_r. split; [exact Hk|exact Hcalls].
Qed.

Lemma caches_track_selections (keys done : list ModelKey) (l : Loading) :
  caches_track l done ->
  caches_track (selections keys l) (done ++ keys).
Proof.
  revert l done. induction keys as [|key keys IH]; intros l done H.
  - rewrite app_nil_r. exact H.
  - cbn [selections foldl].
    replace (done ++ key :: keys) with ((done ++ [key]) ++ keys)
      by (rewrite <- app_assoc; reflexivity).
    apply IH, caches_track_load, H.
Qed.

Lemma caches_track_start : caches_track start [].
Proof. intros key. split; [reflexivity|]. intros ld. reflexivity. Qed.

(** X20. However the selector is changed, each loader's [from_pretrained]
    is called exactly once for every key that was ever selected, with that
    key's model id, and never for a key that was not. *)
Theorem from_pretrained_once (keys : list ModelKey) (key : ModelKey)
    (ld : Loader) :
  length (calls_for ld key (selections keys start))
  = if selected key keys then 1 else 0.
Proof.
  destruct (caches_track_selections keys [] start caches_track_start key)
    as [_ H].
  exact (H ld).
Qed.

Lemma load_keeps_cached (l : Loading) (key k : ModelKey) :
  is_null (modelCache l key) = false ->
  let l' := fst (loadCurrentModelIfNeeded k l) in
  modelCache l' key = modelCache l key
  /\ processorCache l' key = processorCache l key.
Proof.
  intros H l'. subst l'. unfold loadCurrentModelIfNeeded. cbn [fst].
  destruct (is_null (modelCache l k)) eqn:Hk; [|split; reflexivity].
  cbn [modelCache processorCache]. unfold cache_set.
  destruct (ModelKey_eqb key k) eqn:E; [|split; reflexivity].
  apply ModelKey_eqb_spec in E. subst k. congruence.
Qed.

Lemma selections_keep_cached (keys : list ModelKey) (l : Loading)
    (key : ModelKey) :
  is_null (modelCache l key) = false ->
  modelCache (selections keys l) key = modelCache l key
  /\ processorCache (selections keys l) key = processorCache l key.
Proof.
  revert l. induction keys as [|k keys IH]; intros l H; [split; reflexivity|].
  cbn [selections foldl].
  destruct (load_keeps_cached l key k H) as [H1 H2].
  destruct (IH (fst (loadCurrentModelIfNeeded k l))) as [G1 G2].
  { rewrite H1. exact H. }
  unfold selections in *. rewrite G1, G2. auto.
Qed.

Lemma load_caches (l : Loading) (key : ModelKey) :
  is_null (modelCache (fst (loadCurrentModelIfNeeded key l)) key) = false.
Proof.
  unfold loadCurrentModelIfNeeded. cbn [fst].
  destruct (is_null (modelCache l key)) eqn:H; [|exact H].
  cbn [modelCache]. unfold cache_set. rewrite ModelKey_eqb_refl.
  reflexivity.
Qed.

(** X21. A key that was selected once is never loaded again: whatever is
    selected in between, selecting it again awaits the very two promises
    its first selection awaited. A load that was rejected is therefore
    rejected again by every later selection of its key. *)
Theorem reselect_awaits_same_promises (l : Loading) (key : ModelKey)
    (keys : list ModelKey) :
  let first := loadCurrentModelIfNeeded key l in
  let again := loadCurrentModelIfNeeded key (selections keys (fst first)) in
  snd again = snd first
  /\ calls (fst again) = calls (selections keys (fst first)).
Proof.
  intros first again.
  pose proof (load_caches l key) as Hc. fold first in Hc.
  destruct (selections_keep_cached keys (fst first) key Hc) as [H1 H2].
  assert (is_null (modelCache (selections keys (fst first)) key) = false)
    as Hc' by (rewrite H1; exact Hc).
  assert (snd first = (modelCache (fst first) key,
                       processorCache (fst first) key)) as Hf.
  { subst first. unfold loadCurrentModelIfNeeded. reflexivity. }
  assert (calls (fst again) = calls (selections keys (fst first))) as Hcalls.
  { subst again. unfold loadCurrentModelIfNeeded. cbn [fst].
    rewrite Hc'. reflexivity. }
  split; [|exact Hcalls].
  subst again. unfold loadCurrentModelIfNeeded at 1. cbn [snd].
  rewrite Hc'. cbn [modelCache processorCache]. rewrite H1, H2, Hf.
  reflexivity.
Qed.

End LoaderCaches.

(** ** The image on the page, and clearing and resetting *)

Section PageLaws.

Context {P : Platform}.

Lemma image_shown_step (s : State) (ev : Event) :
  image_shown_iff_held s -> image_shown_iff_held (step s ev).
Proof.
  intros H.
  destruct ev as [e|e| | | |url| |key| |n r];
    try solve [revert H; unfold image_shown_iff_held; destruct s; simpl;
               intros H; unfold_handlers; js_cases; simpl in *; auto].
  unfold step, handler, settle.
  destruct (pending s !! n) as [t|] eqn:Ht; [|exact H].
  destruct (resume t r) as [c|] eqn:Hc; [|exact H].
  destruct t, r; simpl in Hc; simplify_eq;
    try solve [revert H; unfold image_shown_iff_held; destruct s; simpl;
               intros H; unfold_handlers; js_cases; simpl in *; auto].
  destruct (decode_after_post_frame (post_process_masks p pred_masks
              original reshaped) iou_scores
              (set_pending (delete n (pending s)) s))
    as (b1 & b2 & c & t & l & ->).
  revert H. unfold image_shown_iff_held. destruct s; simpl. auto.
Qed.

(** X22. The page shows an image exactly when it holds one: at every
    moment of every run from page load, the container has a background
    image, and the upload button is hidden, if and only if [imageInput] is
    not null. So once an image is loaded, another can be chosen through the
    file input or the example link only after a reset. *)
Theorem image_shown_while_held (c : Canvas) (evs : list Event) :
  (forall s, image_shown_iff_held s -> image_shown_iff_held (run s evs))
  /\ image_shown_iff_held (run (initial c) evs).
Proof.
  assert (forall s, image_shown_iff_held s ->
                    image_shown_iff_held (run s evs)) as H
    by (apply (run_invariant image_shown_iff_held image_shown_step)).
  split; [exact H|]. apply H. split; reflexivity.
Qed.

Lemma clear_eq (s : State) :
  step s ClearClick
  = mkState (isEncoding s) (isDecoding s) (decodePending s) None false
      (imageInput s) (imageProcessed s) (imageEmbeddings s)
      (currentModelKey s) (model s) (processor s) (statusLabel s) true
      (loadFromAviUtl2Button_disabled s) (uploadButton_display s)
      (backgroundImage s) [] (clearRect (maskCanvas s)) (pending s)
      (outputs s).
Proof. destruct s. reflexivity. Qed.

(** X23. Clearing and resetting are idempotent, and a reset subsumes a
    clear: clearing before or after a reset changes nothing of what the
    reset leaves. *)
Theorem clear_reset_laws (s : State) :
  step (step s ClearClick) ClearClick = step s ClearClick
  /\ step (step s ResetClick) ResetClick = step s ResetClick
  /\ step (step s ClearClick) ResetClick = step s ResetClick
  /\ step (step s ResetClick) ClearClick = step s ResetClick.
Proof.
  rewrite !reset_eq, !clear_eq. unfold_setters. cbn [clearRect].
  repeat split.
Qed.

End PageLaws.

(** ** When export is offered, and when it runs *)

Section ExportEdges.

Context {P : Platform}.

#[local] Arguments getPoint : simpl never.
#[local] Arguments decode : simpl never.
#[local] Arguments cut_pixels : simpl never.

Lemma cut_click_nothing (s : State) :
  cutButton_disabled s = true \/ imageInput s = None
  \/ canvas_width (maskCanvas s) = 0 \/ canvas_height (maskCanvas s) = 0 ->
  step s CutClick = s.
Proof.
  intros H. unfold step, handler, unless_disabled, on_cut_click,
    getImageData.
  destruct (cutButton_disabled s); [reflexivity|].
  unfold mbind, Js_bind, gets, deref, throw, mret, Js_ret. cbn [fst snd].
  destruct ((canvas_width (maskCanvas s) =? 0)
            || (canvas_height (maskCanvas s) =? 0)) eqn:E; [reflexivity|].
  apply orb_false_iff in E as [Ew Eh]. apply Nat.eqb_neq in Ew, Eh.
  cbn [fst snd].
  destruct H as [H|[H|[H|H]]]; try discriminate H; try contradiction.
  rewrite H. reflexivity.
Qed.

(** X24. An export that cannot read its inputs exports nothing. A click on
    the cut button while no image is held, or over a canvas without
    pixels, throws before anything is encoded and leaves the page as it
    was; and when encoding the PNG fails, the handler ends there: nothing
    is offered for download, nothing is posted, and the status line is not
    written. *)
Theorem export_needs_inputs (s : State) :
  cutButton_disabled s = true \/ imageInput s = None
  \/ canvas_width (maskCanvas s) = 0 \/ canvas_height (maskCanvas s) = 0 ->
  step s CutClick = s
  /\ (forall b n px w h e,
        pending b !! n = Some (AwaitConvertToBlob px w h) ->
        step b (Settle n (Rejected e))
        = set_pending (delete n (pending b)) b).
Proof.
  intros H. split; [apply cut_click_nothing, H|].
  intros b n px w h e Ht.
  exact (settle_lookup b n (Rejected e) _ _ Ht eq_refl).
Qed.

(** X25. Only a click that opens a multi-point session enables export: an
    event after which the cut button is enabled, when it was disabled
    before, is a click of the left or right button on a page that holds an
    embedding and is not in multi-point mode. No other handler, and no
    later click of the same session, enables the button. *)
Theorem export_enabled_only_by_opening_click (s : State) (ev : Event) :
  cutButton_disabled s = true ->
  cutButton_disabled (step s ev) = false ->
  exists e,
    ev = MouseDown e
    /\ accepted_button e = true
    /\ isMultiMaskMode s = false
    /\ is_null (imageEmbeddings s) = false.
Proof.
  intros Hoff Hon.
  destruct ev as [e|e| | | |url| |key| |n r].
  - exists e. split; [reflexivity|].
    revert Hon. rewrite mousedown_eq. unfold accepted_button.
    destruct (negb (button e =? 0)%Z && negb (button e =? 2)%Z);
      [congruence|].
    destruct (is_null (imageEmbeddings s)); [congruence|].
    unfold open_session.
    destruct (isMultiMaskMode s); [|auto].
    destruct (lastPoints s); [|congruence].
    match goal with
    | |- context [decode ?x] =>
        destruct (decode_frame x) as (b1 & b2 & q & ->)
    end.
    cbn [cutButton_disabled set_pending set_decodePending set_isDecoding
           push_point set_icons set_lastPoints]. congruence.
  - rewrite hover_keeps_export in Hon. congruence.
  - destruct s; discriminate Hon.
  - destruct s; discriminate Hon.
  - exfalso. revert Hoff Hon. destruct s. unfold_handlers.
    js_cases; simpl; congruence.
  - exfalso. revert Hoff Hon. destruct s. unfold_handlers.
    js_cases; simpl; congruence.
  - exfalso. revert Hoff Hon. destruct s. unfold_handlers.
    js_cases; simpl; congruence.
  - destruct s; discriminate Hon.
  - exfalso. revert Hoff Hon. destruct s. unfold_handlers.
    js_cases; simpl; congruence.
  - exfalso. revert Hon. unfold step, handler, settle.
    destruct (pending s !! n) as [t|] eqn:Ht; [|cbn [snd]; intros Hon; congruence].
    destruct (resume t r) as [c|] eqn:Hc; [|cbn [snd]; intros Hon; congruence].
    destruct t, r; simpl in Hc; simplify_eq;
      try solve [revert Hoff; destruct s; unfold_handlers;
                 js_cases; simpl; congruence].
    destruct (decode_after_post_frame (post_process_masks p pred_masks
                original reshaped) iou_scores
                (set_pending (delete n (pending s)) s))
      as (b1 & b2 & c & t & l & ->).
    cbn [cutButton_disabled set_pending set_maskCanvas set_statusLabel
           set_decodePending set_isDecoding]. intros Hon. congruence.
Qed.

End ExportEdges.

(** ** From a click to the exported cut-out *)

Section ClickToExport.

Context {P : Platform}.

#[local] Arguments decode : simpl never.
#[local] Arguments updateMaskOverlay : simpl never.
#[local] Arguments getPoint : simpl never.
#[local] Arguments overlay_of : simpl never.
#[local] Arguments cut_pixels : simpl never.

Variable σ : Session.
Hypothesis Hwell : answers_well σ.

(** The page with the session's image loaded and nothing in flight. *)
Lemma idle_page_eq (s : State) (img : RawImage) :
  in_session σ s ->
  pending s = [] ->
  isDecoding s = false ->
  decodePending s = false ->
  isMultiMaskMode s = false ->
  imageInput s = Some img ->
  s = mkState (isEncoding s) false false (lastPoints s) false (Some img)
        (Some (ses_processed σ)) (Some (ses_embeddings σ))
        (currentModelKey s) (Some (ses_model σ)) (Some (ses_processor σ))
        (statusLabel s) (cutButton_disabled s)
        (loadFromAviUtl2Button_disabled s) (uploadButton_display s)
        (backgroundImage s) (icons s) (maskCanvas s) [] (outputs s).
Proof.
  intros (Hm & Hp & He & Hi & _) Hq Hd Hdp Hmm Him.
  destruct s. cbn in *. subst. reflexivity.
Qed.

Lemma click_to_export_state (s : State) (img : RawImage) (e : MouseEvt)
    (res : Response) :
  in_session σ s ->
  pending s = [] ->
  isDecoding s = false ->
  decodePending s = false ->
  isMultiMaskMode s = false ->
  imageInput s = Some img ->
  accepted_button e = true ->
  let lp := [getPoint e] in
  let overlay := rendered σ lp in
  let blob :=
    convertToBlob
      (cut_pixels (data img) (pixels overlay) (canvas_width overlay)
         (canvas_height overlay))
      (canvas_width overlay) (canvas_height overlay) in
  run s [MouseDown e; Settle 0 Fulfilled; Settle 0 Fulfilled; CutClick;
         Settle 0 Fulfilled; Settle 0 (FulfilledWith res)]
  = mkState (isEncoding s) false false (Some lp) true (Some img)
      (Some (ses_processed σ)) (Some (ses_embeddings σ))
      (currentModelKey s) (Some (ses_model σ)) (Some (ses_processor σ))
      (if ok res then "Mask sent to AviUtl2"
       else "Failed to send mask to AviUtl2")
      false (loadFromAviUtl2Button_disabled s) (uploadButton_display s)
      (backgroundImage s) (icons s ++ lp) overlay []
      (outputs s ++ [Download "image.png" blob;
                     HttpPost AVIUTL2_MASK_URL "image/png" blob]).
Proof.
  intros Hs Hq Hd Hdp Hmm Him Hbtn lp overlay blob.
  pose proof Hs as (_ & _ & _ & _ & Hr).
  rewrite (idle_page_eq s img Hs Hq Hd Hdp Hmm Him) at 1.
  generalize (isEncoding s) (lastPoints s) (currentModelKey s)
    (statusLabel s) (cutButton_disabled s)
    (loadFromAviUtl2Button_disabled s) (uploadButton_display s)
    (backgroundImage s) (icons s) (maskCanvas s) (outputs s).
  intros enc lp0 key status cut load display background ics canvas outs.
  clear Hs Hq Hd Hdp Hmm Him s.
  (* the click opens the session and dispatches a decode *)
  rewrite run_cons, mousedown_eq.
  unfold accepted_button in Hbtn. apply negb_true_iff in Hbtn.
  rewrite Hbtn. unfold open_session, push_point. unfold_setters.
  cbn [is_null app].
  erewrite (decode_dispatch σ _ lp); [|repeat split; exact Hr|reflexivity..].
  cbn [snd]. unfold_setters. cbn [app].
  (* the model answers, then post-processing *)
  rewrite run_cons.
  erewrite (settle_last _ [] (model_task σ lp) Fulfilled);
    [|reflexivity|reflexivity].
  fold (model_output σ lp).
  erewrite (decode_after_model_in_session σ _ lp);
    [|repeat split; exact Hr].
  unfold_setters. cbn [app].
  rewrite run_cons.
  erewrite (settle_last _ [] (post_task σ lp) Fulfilled);
    [|reflexivity|reflexivity].
  fold (decoded_mask σ lp). fold (decoded_scores σ lp).
  erewrite (decode_after_post_in_session σ Hwell _ lp lp);
    [|repeat split; exact Hr|reflexivity].
  cbv zeta. unfold_setters. fold overlay.
  (* the cut *)
  destruct (Hwell lp) as (_ & Hw & Hh).
  rewrite run_cons.
  erewrite (cut_click_spawns _ img); [|reflexivity|reflexivity|exact Hw|exact Hh].
  unfold_setters. cbn [app]. fold overlay.
  rewrite run_cons.
  erewrite (settle_last _ [] (AwaitConvertToBlob _ _ _) Fulfilled);
    [|reflexivity|reflexivity].
  fold blob.
  unfold cut_after_blob, output, spawn, modify, mbind, Js_bind.
  cbn [fst snd]. unfold_setters. cbn [app].
  rewrite run_cons.
  erewrite (settle_last _ [] (AwaitMaskPost blob) (FulfilledWith res));
    [|reflexivity|reflexivity].
  unfold cut_after_post, cut_upload_failed, modify.
  rewrite <- app_assoc. cbn [app].
  destruct (ok res); reflexivity.
Qed.

(** X26. From a click to the export, on a page that holds the session's
    image and has nothing in flight: the click opens the session with its
    one point and enables export, the decode paints the overlay of that
    point, and the cut offers for download, and posts, one blob: the PNG
    of the overlay's pixels with the image's colours copied in. The page
    ends with nothing in flight and the upload's outcome on the status
    line. *)
Theorem click_to_export (s : State) (img : RawImage) (e : MouseEvt)
    (res : Response) :
  in_session σ s ->
  pending s = [] ->
  isDecoding s = false ->
  decodePending s = false ->
  isMultiMaskMode s = false ->
  imageInput s = Some img ->
  accepted_button e = true ->
  let lp := [getPoint e] in
  let overlay := rendered σ lp in
  let blob :=
    convertToBlob
      (cut_pixels (data img) (pixels overlay) (canvas_width overlay)
         (canvas_height overlay))
      (canvas_width overlay) (canvas_height overlay) in
  let s' :=
    run s [MouseDown e; Settle 0 Fulfilled; Settle 0 Fulfilled; CutClick;
           Settle 0 Fulfilled; Settle 0 (FulfilledWith res)] in
  outputs s'
  = outputs s ++ [Download "image.png" blob;
                  HttpPost AVIUTL2_MASK_URL "image/png" blob]
  /\ maskCanvas s' = overlay
  /\ lastPoints s' = Some lp
  /\ cutButton_disabled s' = false
  /\ pending s' = []
  /\ isDecoding s' = false
  /\ statusLabel s'
     = (if ok res then "Mask sent to AviUtl2"
        else "Failed to send mask to AviUtl2")%string.
Proof.
  intros Hs Hq Hd Hdp Hmm Him Hbtn lp overlay blob s'. subst s'.
  rewrite (click_to_export_state s img e res Hs Hq Hd Hdp Hmm Him Hbtn).
  repeat split.
Qed.

End ClickToExport.

(** ** The decode pipeline drains *)

Section Drain.

Context {P : Platform}.

#[local] Arguments decode : simpl never.
#[local] Arguments updateMaskOverlay : simpl never.
#[local] Arguments getPoint : simpl never.
#[local] Arguments overlay_of : simpl never.

Variable σ : Session.
Hypothesis Hwell : answers_well σ.

Lemma drain_step_left (s : State) :
  in_session σ s ->
  coordinator σ s ->
  decode_steps_left (step s (Settle 0 Fulfilled))
  = pred (decode_steps_left s).
Proof.
  intros Hs (lp & Hl & [(Hbusy & lp' & Hq & Hlp')
                       |(Hidle & Hpend & Hnil & Hcanvas)]).
  - destruct Hq as [Hq|Hq].
    + erewrite settle_only; [|exact Hq|reflexivity].
      fold (model_output σ lp').
      rewrite decode_after_model_in_session
        by (apply (in_session_frame σ s); auto).
      unfold decode_steps_left. rewrite Hq. reflexivity.
    + erewrite settle_only; [|exact Hq|reflexivity].
      fold (decoded_mask σ lp'). fold (decoded_scores σ lp').
      rewrite (decode_after_post_in_session σ Hwell _ lp lp')
        by (try exact Hl; apply (in_session_frame σ s); auto).
      cbv zeta. unfold decode_steps_left. rewrite Hq.
      cbn [decodePending set_pending].
      destruct (decodePending s); reflexivity.
  - assert (step s (Settle 0 Fulfilled) = s) as ->
      by (unfold step, handler, settle; rewrite Hnil; reflexivity).
    unfold decode_steps_left. rewrite Hnil. reflexivity.
Qed.

Lemma drain_run (k : nat) (s : State) :
  in_session σ s ->
  coordinator σ s ->
  let s' := run s (replicate k (Settle 0 Fulfilled)) in
  in_session σ s'
  /\ coordinator σ s'
  /\ lastPoints s' = lastPoints s
  /\ decode_steps_left s' = decode_steps_left s - k.
Proof.
  revert s. induction k as [|k IH]; intros s Hs Hc; cbv zeta.
  - cbn. rewrite Nat.sub_0_r. auto.
  - cbn [replicate]. rewrite run_cons.
    destruct (coordinator_settle σ Hwell s 0 Fulfilled Hs Hc eq_refl)
      as (Hs' & Hc' & Hl').
    destruct (IH _ Hs' Hc') as (H1 & H2 & H3 & H4).
    rewrite H3, H4, Hl', (drain_step_left s Hs Hc).
    split; [exact H1|]. split; [exact H2|]. split; [reflexivity|]. lia.
Qed.

Lemma drained_pending (s : State) :
  coordinator σ s -> decode_steps_left s = 0 -> pending s = [].
Proof.
  intros (lp & _ & [(_ & lp' & [Hq|Hq] & _)|(_ & _ & Hq & _)]) H;
    [| |exact Hq];
    unfold decode_steps_left in H; rewrite Hq in H; discriminate H.
Qed.

Lemma decode_steps_left_le (s : State) : decode_steps_left s <= 4.
Proof.
  unfold decode_steps_left.
  destruct (pending s) as [|[] []]; destruct (decodePending s); cbn; lia.
Qed.

(** X27. However many requests were made while a decode was in flight,
    they were coalesced into at most one rerun: once the pointer rests,
    the pipeline drains within four settlements, two for the decode in
    flight and two for the rerun if one is owed, and the overlay is then
    the one of the point list as it is, with no rerun owed. *)
Theorem decode_drains (s : State) (k : nat) :
  in_session σ s ->
  coordinator σ s ->
  decode_steps_left s <= k ->
  let s' := run s (replicate k (Settle 0 Fulfilled)) in
  decode_steps_left s <= 4
  /\ pending s' = []
  /\ isDecoding s' = false
  /\ decodePending s' = false
  /\ lastPoints s' = lastPoints s
  /\ exists lp, lastPoints s = Some lp /\ maskCanvas s' = rendered σ lp.
Proof.
  intros Hs Hc Hk s'. subst s'.
  destruct (drain_run k s Hs Hc) as (H1 & H2 & H3 & H4).
  assert (pending (run s (replicate k (Settle 0 Fulfilled))) = []) as Hq.
  { apply (drained_pending _ H2). lia. }
  destruct (coordinator_drained σ _ H2 Hq) as (lp & G1 & G2 & G3 & G4).
  split; [apply decode_steps_left_le|].
  split; [exact Hq|]. split; [exact G3|]. split; [exact G4|].
  split; [exact H3|]. exists lp. rewrite <- H3. auto.
Qed.

End Drain.
(** ** Concrete runs *)

Section Runs.

Import Demo.

Lemma demo_answers_well : answers_well Demo.session.
Proof.
  intros lp. unfold decoded_scores, decoded_mask, model_output. simpl.
  split; [discriminate|].
  destruct (in_left_half _); split; discriminate.
Defined.

Lemma demo_in_session : in_session Demo.session Demo.hovering.
Proof. repeat split. Defined.




Lemma after_failure_events :
  Forall (fun ev => unguarded_reset ev = false) Races.after_failure.
Proof. repeat constructor. Defined.

Lemma decode_failure_keeps_busy_witness :
  pending Demo.hovering !! 0 = Some Demo.hover_request
  /\ is_decode_task Demo.hover_request = true
  /\ isDecoding Demo.hovering = true
  /\ decodes_in_flight Demo.hovering = 1
  /\ Forall (fun ev => unguarded_reset ev = false) Races.after_failure
  /\ isDecoding Races.failed = true
  /\ isDecoding (run Races.failed Races.after_failure) = true
  /\ decodes_in_flight (run Races.failed Races.after_failure) = 0.
Proof.
  split; [reflexivity|]. split; [reflexivity|]. split; [reflexivity|].
  split; [reflexivity|]. split; [exact after_failure_events|].
  destruct (decode_failure_keeps_busy Demo.hovering 0 Demo.hover_request
              (ExternalError "inference failed") eq_refl eq_refl eq_refl)
    as (_ & Hbusy & _ & _ & _ & _ & _ & Hlocked & _).
  split; [exact Hbusy|].
  destruct (Hlocked eq_refl Races.after_failure after_failure_events)
    as (H1 & H2 & _).
  split; assumption.
Defined.

Lemma image_load_teardown_witness :
  quiet Races.page
  /\ without_embedding Races.page Races.load_with_pointer = true
  /\ quiet (run Races.page Races.load_with_pointer)
  /\ is_null (imageEmbeddings (run Races.page Races.load_with_pointer))
     = false.
Proof.
  assert (quiet Races.page) as Hq by (repeat split).
  split; [exact Hq|]. split; [reflexivity|].
  destruct (image_load_teardown Races.page)
    as (_ & _ & _ & _ & _ & _ & Hrun & _).
  split; [exact (Hrun Races.load_with_pointer Hq eq_refl)|reflexivity].
Defined.

Lemma load_with_pointer_events :
  Forall (fun ev => unguarded_reset ev = false) Races.load_with_pointer.
Proof. repeat constructor. Defined.

Lemma embedding_failure_semantics_witness :
  imageEmbeddings Races.page = None
  /\ no_embedding_arrives Races.page Races.failing_loads = true
  /\ imageEmbeddings (run Races.page Races.failing_loads) = None
  /\ Forall (fun ev => unguarded_reset ev = false) Races.load_with_pointer
  /\ encode_single_flight Races.page
  /\ encode_single_flight (run Races.page Races.load_with_pointer).
Proof.
  assert (encode_single_flight Races.page) as He by (repeat constructor).
  split; [reflexivity|]. split; [reflexivity|].
  destruct (embedding_failure_semantics Races.page)
    as (_ & _ & _ & _ & Hnone & Hone & _).
  split; [exact (Hnone Races.failing_loads eq_refl eq_refl)|].
  split; [exact load_with_pointer_events|]. split; [exact He|].
  exact (Hone Races.load_with_pointer load_with_pointer_events He).
Defined.

Lemma select_best_score_witness :
  is_nan (score_at Races.nan_inside 0) = false
  /\ 0 < length Races.nan_inside
  /\ 0 < bestIndex Races.nan_inside
  /\ bestIndex Races.nan_inside = 2
  /\ (score_at Races.nan_inside 0
      <=? score_at Races.nan_inside (bestIndex Races.nan_inside))%float
     = true
  /\ (score_at Races.nan_inside 0
      <? score_at Races.nan_inside (bestIndex Races.nan_inside))%float
     = true.
Proof.
  assert (0 < length Races.nan_inside) as Hlen by (cbn; lia).
  assert (0 < bestIndex Races.nan_inside) as Hpos
    by (change (0 < 2); lia).
  split; [reflexivity|]. split; [exact Hlen|]. split; [exact Hpos|].
  split; [reflexivity|].
  destruct (select_best_score Races.nan_inside) as (_ & Hnum & _).
  destruct (Hnum eq_refl) as (_ & Hle & Hlt).
  split; [exact (Hle 0 Hlen eq_refl)|exact (Hlt 0 Hpos eq_refl)].
Defined.

Lemma overlay_render_witness :
  [score_0_70; score_0_91; score_0_91] <> []
  /\ width (Demo.masks true) <> 0
  /\ height (Demo.masks true) <> 0
  /\ pixels (maskCanvas
               (snd (updateMaskOverlay (Demo.masks true)
                       [score_0_70; score_0_91; score_0_91] Demo.clicked)))
     = [0; 114; 189; 255; 0; 0; 0; 0]%N.
Proof.
  assert ([score_0_70; score_0_91; score_0_91] <> []) as Hs by discriminate.
  assert (width (Demo.masks true) <> 0) as Hw by discriminate.
  assert (height (Demo.masks true) <> 0) as Hh by discriminate.
  split; [exact Hs|]. split; [exact Hw|]. split; [exact Hh|].
  rewrite (proj1 (overlay_render (Demo.masks true)
                    [score_0_70; score_0_91; score_0_91] Demo.clicked
                    Hs Hw Hh)).
  reflexivity.
Defined.

Lemma cut_extract_witness :
  0 < 1 * 1
  /\ rgba_at [0; 114; 189; 255]%N 0 = Some (0, 114, 189, 255)%N
  /\ rgba_at (cut_pixels [10; 20; 30]%N [0; 114; 189; 255]%N 1 1) 0
     = Some (10, 20, 30, 255)%N.
Proof.
  split; [exact Nat.lt_0_1|]. split; [reflexivity|].
  refine (proj1 (cut_extract [10; 20; 30]%N [0; 114; 189; 255]%N 1 1 0
                   0 114 189 255 Nat.lt_0_1 eq_refl) _ 10 20 30 eq_refl)%N.
  discriminate.
Defined.

Lemma export_dual_sink_witness :
  cutButton_disabled Demo.clicked = false
  /\ imageInput Demo.clicked = Some Demo.image
  /\ canvas_width (maskCanvas Demo.clicked) <> 0
  /\ canvas_height (maskCanvas Demo.clicked) <> 0
  /\ outputs (run Demo.clicked [CutClick; Settle 0 Fulfilled])
     = [Download "image.png" [0; 0; 0; 0; 40; 50; 60; 255]%N;
        HttpPost AVIUTL2_MASK_URL "image/png"
          [0; 0; 0; 0; 40; 50; 60; 255]%N].
Proof.
  assert (canvas_width (maskCanvas Demo.clicked) <> 0) as Hw by discriminate.
  assert (canvas_height (maskCanvas Demo.clicked) <> 0) as Hh
    by discriminate.
  split; [reflexivity|]. split; [reflexivity|].
  split; [exact Hw|]. split; [exact Hh|].
  exact (proj1 (export_dual_sink Demo.clicked Demo.image eq_refl eq_refl
                  Hw Hh)).
Defined.

Lemma export_tracks_point_session_witness :
  export_sound Demo.loaded
  /\ export_sound
       (run Demo.loaded
          [MouseDown (at_centre 0); ClearClick; MouseMove (at_corner 0)]).
Proof.
  assert (export_sound Demo.loaded) as H by (intros H; discriminate H).
  split; [exact H|].
  exact (proj1 (export_tracks_point_session Demo.loaded
                  [MouseDown (at_centre 0); ClearClick;
                   MouseMove (at_corner 0)] H)).
Defined.

Lemma point_coordinates_clamped_witness :
  points_in_unit Demo.loaded
  /\ Forall (fun ev => pointer_well_placed ev = true)
       [MouseMove (outside 0); MouseDown (at_corner 2)]
  /\ points_in_unit
       (run Demo.loaded [MouseMove (outside 0); MouseDown (at_corner 2)]).
Proof.
  assert (points_in_unit Demo.loaded) as H by (intros lp Hlp; discriminate Hlp).
  assert (Forall (fun ev => pointer_well_placed ev = true)
            [MouseMove (outside 0); MouseDown (at_corner 2)]) as Hevs
    by (repeat constructor).
  split; [exact H|]. split; [exact Hevs|].
  exact (proj1 (point_coordinates_clamped Demo.loaded
                  [MouseMove (outside 0); MouseDown (at_corner 2)] H Hevs)).
Defined.


(** C4, as the spec states it, fails: when the first score is NaN the scan
    stays at candidate 0, although candidate 2 holds a number above every
    other number, and the overlay drawn is that of candidate 0. *)
Lemma nan_score_counterexample :
  bestIndex Races.nan_first = 0
  /\ is_nan (score_at Races.nan_first 0) = true
  /\ is_nan (score_at Races.nan_first 2) = false
  /\ (score_at Races.nan_first 1 <? score_at Races.nan_first 2)%float = true
  /\ pixels (maskCanvas
               (snd (updateMaskOverlay (Demo.masks true) Races.nan_first
                       Demo.loaded)))
     = [0; 0; 0; 0; 0; 0; 0; 0]%N
  /\ fill_mask 3 2 (data (Demo.masks true)) (blank 2 1)
     = [0; 114; 189; 255; 0; 114; 189; 255]%N.
Proof. vm_compute. repeat split. Qed.

(** C2, as the spec states it, fails: after a failed inference call the busy
    flag is still set, the status line has not changed, and the next pointer
    event starts no inference call. *)
Lemma decode_failure_counterexample :
  let failed :=
    step Demo.hovering
      (Settle 0 (Rejected (ExternalError "inference failed"))) in
  pending Demo.hovering = [Demo.hover_request]
  /\ isDecoding failed = true
  /\ statusLabel failed = statusLabel Demo.hovering
  /\ pending (step failed (MouseMove (at_corner 0))) = []
  /\ decodePending (step failed (MouseMove (at_corner 0))) = true.
Proof. vm_compute. repeat split. Qed.

(** C3, as the spec states it, fails. The example image is loaded on a
    page that a reset has just torn down while a decode awaited its
    post-processing: the decode completes during the load, and the load ends
    with the new embedding under that decode's overlay. And on a page where
    the embedding of an interrupted load has overtaken the reset, a click
    opens a point session, and the load of the example image that follows
    ends with the point, the icon and the multi-point mode still in
    place. *)
Lemma image_load_counterexample :
  (uploadButton_display Races.reset_at_post = display_flex
   /\ pixels (maskCanvas Races.reset_at_post) = blank 2 1
   /\ statusLabel Races.repainted = "Embedding extracted!"%string
   /\ pending Races.repainted = []
   /\ is_null (imageEmbeddings Races.repainted) = false
   /\ pixels (maskCanvas Races.repainted)
      = [0; 0; 0; 0; 0; 114; 189; 255]%N)
  /\ (uploadButton_display Races.stale_session = display_flex
      /\ statusLabel Races.session_kept = "Embedding extracted!"%string
      /\ pending Races.session_kept = []
      /\ is_null (imageEmbeddings Races.session_kept) = false
      /\ isMultiMaskMode Races.session_kept = true
      /\ lastPoints Races.session_kept = Some [getPoint (at_centre 0)]
      /\ icons Races.session_kept = [getPoint (at_centre 0)]).
Proof. vm_compute. repeat split. Qed.

(** C8, as the spec states it, fails: a load started after a reset fails
    at its first await, yet the page holds an embedding afterwards, that of
    the load the reset interrupted, which arrived meanwhile; the next hover
    starts an inference call. *)
Lemma embedding_failure_counterexample :
  let s := run Races.page Demo.overtaken_load in
  uploadButton_display (run Races.page (take 3 Demo.overtaken_load))
  = display_flex
  /\ is_encode_task <$> pending (run Races.page (take 6 Demo.overtaken_load))
     = [true]
  /\ is_null (imageEmbeddings s) = false
  /\ pending s = []
  /\ is_decode_task <$> pending (step s (MouseMove (at_centre 0))) = [true].
Proof. vm_compute. repeat split. Qed.

(** C9, as the spec states it, fails: while hovering, the point store holds
    a point and the cut button is disabled. *)
Lemma export_enablement_counterexample :
  has_points Demo.hovering = true
  /\ isMultiMaskMode Demo.hovering = false
  /\ cutButton_disabled Demo.hovering = true.
Proof. vm_compute. repeat split. Qed.

(** C10, as the spec states it, fails: over a container collapsed to no
    size the quotient is 0/0, [clamp] returns NaN, and that point enters the
    point list. *)
Lemma point_coordinates_counterexample :
  let p := getPoint Demo.collapsed in
  is_nan (fst (position p)) = true
  /\ in_unit (fst (position p)) = false
  /\ point_in_unit p = false
  /\ lastPoints (step Demo.loaded (MouseMove Demo.collapsed)) = Some [p].
Proof. vm_compute. repeat split. Qed.

End Runs.

(** ** Concrete runs of the further properties *)

Section FurtherRuns.

Import Demo.

Lemma cut_of_overlay_witness :
  0 < width (Demo.masks true) * height (Demo.masks true)
  /\ rgba_at
       (cut_pixels (data Demo.image)
          [0; 114; 189; 255; 0; 0; 0; 0]%N 2 1) 0
     = Some (10, 20, 30, 255)%N.
Proof.
  assert (0 < width (Demo.masks true) * height (Demo.masks true)) as Hp
    by (cbn; lia).
  split; [exact Hp|].
  exact (cut_of_overlay (data Demo.image) (Demo.masks true)
           [score_0_70; score_0_91; score_0_91] 0 Hp).
Defined.

Lemma overlay_bitmap_sized_witness :
  canvas_well_formed (maskCanvas Demo.loaded)
  /\ canvas_well_formed
       (maskCanvas
          (run Demo.loaded
             [MouseMove (at_centre 0); Settle 0 Fulfilled;
              Settle 0 Fulfilled; ClearClick])).
Proof.
  assert (canvas_well_formed (maskCanvas Demo.loaded)) as H by reflexivity.
  split; [exact H|].
  exact (overlay_bitmap_sized Demo.loaded
           [MouseMove (at_centre 0); Settle 0 Fulfilled;
            Settle 0 Fulfilled; ClearClick] H).
Defined.


Lemma reset_during_load_witness :
  pending Scenes.embedding !! 0
  = Some (AwaitEmbeddings slimsam
            (mkProcessed Demo.image [(1, 2)%float] [(512, 1024)%float])
            Detached)
  /\ imageEmbeddings
       (run Scenes.embedding [ResetClick; Settle 0 Fulfilled])
     = Some Demo.image
  /\ imageInput
       (run Scenes.embedding [ResetClick; Settle 0 Fulfilled]) = None.
Proof.
  split; [reflexivity|].
  destruct (reset_during_load Scenes.embedding 0 slimsam
              (mkProcessed Demo.image [(1, 2)%float] [(512, 1024)%float])
              Detached eq_refl) as (H1 & H2 & _).
  split; [exact H1|exact H2].
Defined.

Lemma scene_clicks_keep_session :
  Forall (fun ev => ends_session ev = false) Scenes.clicks.
Proof. repeat constructor. Defined.

Lemma session_points_are_clicks_witness :
  is_null (imageEmbeddings Demo.loaded) = false
  /\ lastPoints (open_session Demo.loaded) = Some []
  /\ Forall (fun ev => ends_session ev = false) Scenes.clicks
  /\ clicks_of Scenes.clicks <> []
  /\ lastPoints (run Demo.loaded Scenes.clicks)
     = Some ([] ++ [getPoint (at_centre 0); getPoint (outside 2)]).
Proof.
  assert (clicks_of Scenes.clicks <> []) as Hne by discriminate.
  split; [reflexivity|]. split; [reflexivity|].
  split; [exact scene_clicks_keep_session|]. split; [exact Hne|].
  exact (proj1 (session_points_are_clicks Demo.loaded Scenes.clicks []
                  eq_refl eq_refl scene_clicks_keep_session Hne)).
Defined.

Lemma scene_owing_in_session : in_session Demo.session Scenes.owing.
Proof. repeat split. Defined.

Lemma clear_during_decode_witness :
  answers_well Demo.session
  /\ in_session Demo.session Scenes.owing
  /\ pending Scenes.owing
     = [stage_task Demo.session [getPoint (at_centre 0)] AtModel]
  /\ maskCanvas (run Scenes.owing (ClearClick :: drain AtModel))
     = rendered Demo.session [getPoint (at_centre 0)]
  /\ isDecoding (run Scenes.owing (ClearClick :: drain AtModel))
     = decodePending Scenes.owing.
Proof.
  split; [exact demo_answers_well|].
  split; [exact scene_owing_in_session|]. split; [reflexivity|].
  destruct (clear_during_decode Demo.session demo_answers_well Scenes.owing
              [getPoint (at_centre 0)] AtModel scene_owing_in_session
              eq_refl) as (H1 & _ & _ & _ & _ & _ & _ & H8 & _).
  split; [exact H1|exact H8].
Defined.

Lemma reset_during_decode_witness :
  answers_well Demo.session
  /\ in_session Demo.session Demo.hovering
  /\ pending Demo.hovering
     = [stage_task Demo.session [getPoint (at_centre 0)] AtModel]
  /\ run Demo.hovering [ResetClick; Settle 0 Fulfilled]
     = set_pending [] (step Demo.hovering ResetClick).
Proof.
  split; [exact demo_answers_well|]. split; [exact demo_in_session|].
  split; [reflexivity|].
  exact (reset_during_decode Demo.session demo_answers_well Demo.hovering
           [getPoint (at_centre 0)] AtModel demo_in_session eq_refl).
Defined.

Lemma render_failure_skips_rerun_witness :
  (@nil float = [] \/ width (Demo.masks true) = 0
   \/ height (Demo.masks true) = 0)
  /\ isDecoding
       (snd (decode_after_post (Demo.masks true) [] Scenes.owing)) = false
  /\ decodePending
       (snd (decode_after_post (Demo.masks true) [] Scenes.owing))
     = decodePending Scenes.owing.
Proof.
  assert (@nil float = [] \/ width (Demo.masks true) = 0
          \/ height (Demo.masks true) = 0) as H by (left; reflexivity).
  split; [exact H|].
  destruct (render_failure_skips_rerun (Demo.masks true) [] Scenes.owing H)
    as (_ & H1 & H2 & _).
  split; [exact H1|exact H2].
Defined.

Lemma frame_load_outcomes_witness :
  loadFromAviUtl2Button_disabled Scenes.page = false
  /\ isEncoding Scenes.page = false
  /\ isDecoding Scenes.page = false
  /\ model Scenes.page = Some slimsam
  /\ processor Scenes.page = Some slimsam
  /\ run Scenes.page
       [LoadFromAviUtl2Click;
        Settle 0 (Rejected (ExternalError "connection refused"))]
     = frame_load_failed (step Scenes.page ResetClick).
Proof.
  split; [reflexivity|]. split; [reflexivity|]. split; [reflexivity|].
  split; [reflexivity|]. split; [reflexivity|].
  exact (proj1 (frame_load_outcomes Scenes.page Scenes.frame slimsam slimsam
                  eq_refl eq_refl eq_refl eq_refl eq_refl)
           (ExternalError "connection refused")).
Defined.

Lemma frame_load_overtaken_witness :
  loadFromAviUtl2Button_disabled Scenes.page = false
  /\ isEncoding Scenes.page = false
  /\ isDecoding Scenes.page = false
  /\ ok Scenes.frame = true
  /\ statusLabel
       (run Scenes.page
          [LoadFromAviUtl2Click; Settle 0 (FulfilledWith Scenes.frame);
           ExampleClick; Settle 0 Fulfilled]) = "Ready"%string.
Proof.
  split; [reflexivity|]. split; [reflexivity|]. split; [reflexivity|].
  split; [reflexivity|].
  destruct (frame_load_overtaken Scenes.page Scenes.frame
              eq_refl eq_refl eq_refl eq_refl) as (_ & _ & H & _).
  exact H.
Defined.

Lemma export_needs_inputs_witness :
  (cutButton_disabled Scenes.stale = true \/ imageInput Scenes.stale = None
   \/ canvas_width (maskCanvas Scenes.stale) = 0
   \/ canvas_height (maskCanvas Scenes.stale) = 0)
  /\ cutButton_disabled Scenes.stale = false
  /\ step Scenes.stale CutClick = Scenes.stale.
Proof.
  assert (cutButton_disabled Scenes.stale = true
          \/ imageInput Scenes.stale = None
          \/ canvas_width (maskCanvas Scenes.stale) = 0
          \/ canvas_height (maskCanvas Scenes.stale) = 0) as H
    by (right; left; reflexivity).
  split; [exact H|]. split; [reflexivity|].
  exact (proj1 (export_needs_inputs Scenes.stale H)).
Defined.

Lemma export_enabled_only_by_opening_click_witness :
  cutButton_disabled Demo.loaded = true
  /\ cutButton_disabled (step Demo.loaded (MouseDown (at_centre 0))) = false
  /\ exists e,
       MouseDown (at_centre 0) = MouseDown e
       /\ accepted_button e = true
       /\ isMultiMaskMode Demo.loaded = false
       /\ is_null (imageEmbeddings Demo.loaded) = false.
Proof.
  split; [reflexivity|]. split; [reflexivity|].
  exact (export_enabled_only_by_opening_click Demo.loaded
           (MouseDown (at_centre 0)) eq_refl eq_refl).
Defined.

Lemma scene_loaded_in_session : in_session Demo.session Demo.loaded.
Proof. repeat split. Defined.

Lemma click_to_export_witness :
  answers_well Demo.session
  /\ in_session Demo.session Demo.loaded
  /\ pending Demo.loaded = []
  /\ isDecoding Demo.loaded = false
  /\ decodePending Demo.loaded = false
  /\ isMultiMaskMode Demo.loaded = false
  /\ imageInput Demo.loaded = Some Demo.image
  /\ accepted_button (at_centre 0) = true
  /\ outputs
       (run Demo.loaded
          [MouseDown (at_centre 0); Settle 0 Fulfilled; Settle 0 Fulfilled;
           CutClick; Settle 0 Fulfilled;
           Settle 0 (FulfilledWith Scenes.frame)])
     = [Download "image.png" [0; 0; 0; 0; 40; 50; 60; 255]%N;
        HttpPost AVIUTL2_MASK_URL "image/png"
          [0; 0; 0; 0; 40; 50; 60; 255]%N].
Proof.
  split; [exact demo_answers_well|].
  split; [exact scene_loaded_in_session|].
  split; [reflexivity|]. split; [reflexivity|]. split; [reflexivity|].
  split; [reflexivity|]. split; [reflexivity|]. split; [reflexivity|].
  exact (proj1 (click_to_export Demo.session demo_answers_well Demo.loaded
                  Demo.image (at_centre 0) Scenes.frame
                  scene_loaded_in_session eq_refl eq_refl eq_refl eq_refl
                  eq_refl eq_refl)).
Defined.

Lemma scene_owing_coordinator : coordinator Demo.session Scenes.owing.
Proof.
  exists [getPoint (at_corner 0)]. split; [reflexivity|]. left.
  split; [reflexivity|]. exists [getPoint (at_centre 0)].
  split; [left; reflexivity|discriminate].
Defined.

Lemma decode_drains_witness :
  answers_well Demo.session
  /\ in_session Demo.session Scenes.owing
  /\ coordinator Demo.session Scenes.owing
  /\ decode_steps_left Scenes.owing <= 4
  /\ pending (run Scenes.owing (replicate 4 (Settle 0 Fulfilled))) = []
  /\ decodePending (run Scenes.owing (replicate 4 (Settle 0 Fulfilled)))
     = false.
Proof.
  assert (decode_steps_left Scenes.owing <= 4) as Hk
    by (vm_compute; repeat constructor).
  split; [exact demo_answers_well|].
  split; [exact scene_owing_in_session|].
  split; [exact scene_owing_coordinator|]. split; [exact Hk|].
  destruct (decode_drains Demo.session demo_answers_well Scenes.owing 4
              scene_owing_in_session scene_owing_coordinator Hk)
    as (_ & H1 & _ & H2 & _).
  split; [exact H1|exact H2].
Defined.

End FurtherRuns.
